(** * InaiUrai task marketplace: escrow ledger, matchmaker, dispatcher, task API

    A shallow embedding of the Go backend:
    - [backend/internal/services/escrow.go]     (EscrowService)
    - [backend/internal/services/matching.go]   (Matcher)
    - the dispatcher service                    (Dispatcher)
    - [backend/internal/handlers/task_handler.go] (TaskHandler)
    - [backend/internal/middleware]              (APIKeyAuth, BudgetCheck)
    - the validator's deadlines                  (Validator.GetDeadline)
    - the account / agent / task / credit / API key repositories
      (SQL statements)

    The relational store is a record of finite maps; every repository method
    is a function of the store in a state-and-error monad.  Go [int] values
    are 64-bit: arithmetic done by Go code is wrapped with [wrap64].  The
    columns [credit_balance], [amount], [budget], ... are PostgreSQL [INT]:
    arithmetic done by an SQL statement fails with "integer out of range"
    instead of wrapping, and a Go value bound to such a parameter must fit.
    Referential and CHECK constraints of the schema are not modelled.
    Requests, dispatches and watchers run one after the other, each to its
    end, and no [context.Context] is cancelled.  [Pool.Begin] returns a
    transaction.  Whether [tx.Commit] returns nil is an input of the two
    handlers that write on the pool inside a transaction ([CreateTask],
    [SubmitResult]); the refund transaction of the dispatcher commits. *)

From Stdlib Require Import ZArith String List Lia QArith.
From stdpp Require Import gmap strings list sorting.

Open Scope Z_scope.

(** ** Machine integers *)

Module GoInt.

Definition wrap64 (z : Z) : Z := (z + 2 ^ 63) mod 2 ^ 64 - 2 ^ 63.

Definition add (a b : Z) : Z := wrap64 (a + b).
Definition sub (a b : Z) : Z := wrap64 (a - b).
Definition mul (a b : Z) : Z := wrap64 (a * b).
(** Go's [/] truncates toward zero. *)
Definition div (a b : Z) : Z := wrap64 (Z.quot a b).

Definition in_int64 (z : Z) : bool := (- 2 ^ 63 <=? z) && (z <? 2 ^ 63).

(** PostgreSQL INT (int4) range. *)
Definition in_int4 (z : Z) : bool := (-2147483648 <=? z) && (z <=? 2147483647).

End GoInt.
Import GoInt.

(** ** Data model ([backend/internal/models]) *)

(** [uuid.UUID].  A UUID is a 128-bit value; its canonical string form is
    fixed-width lower-case hexadecimal, so comparing the strings (as
    [SettleTask] does) is comparing the numbers. *)
Abbreviation uuid := N (only parsing).

Definition uuid_Nil : uuid := 0%N.
Definition SystemPlatformAccountID : uuid := 1%N.
Definition AdminAccountID : uuid := 2%N.

Definition TaskStatusCreated : string := "created".
Definition TaskStatusMatching : string := "matching".
Definition TaskStatusDispatched : string := "dispatched".
Definition TaskStatusInProgress : string := "in_progress".
Definition TaskStatusCompleted : string := "completed".
Definition TaskStatusFailed : string := "failed".

Definition TaskOutputStatusSuccess : string := "success".
Definition TaskOutputStatusPartial : string := "partial".
Definition TaskOutputStatusError : string := "error".

Definition RoutingFastest : string := "fastest".
Definition RoutingCheapest : string := "cheapest".
Definition RoutingAuto : string := "auto".

Definition CreditEntryEscrowLock : string := "escrow_lock".
Definition CreditEntryEscrowRelease : string := "escrow_release".
Definition CreditEntryTaskEarning : string := "task_earning".
Definition CreditEntryPlatformFee : string := "platform_fee".
Definition CreditEntryRefund : string := "refund".

Definition AgentRoleRequester : string := "requester".
Definition AgentRoleWorker : string := "worker".
Definition AgentRoleBoth : string := "both".
Definition AgentAvailabilityOnline : string := "online".
Definition AgentAvailabilityOffline : string := "offline".

Definition CapabilityResearch : string := "research".
Definition CapabilitySummarize : string := "summarize".
Definition CapabilityDataExtraction : string := "data_extraction".

(** The columns of [accounts] that the code below reads or writes; the key
    of the table is the key of the map. *)
Record Account := mkAccount {
  CreditBalance : Z;
  IsSystemAccount : bool
}.

(** [capabilities_offered] is a nullable JSONB column: [None] is NULL, and a
    JSON object is the list of its keys with the ["price"] of each entry
    (0 when the entry has none, as Go's zero value). *)
Record Agent := mkAgent {
  ag_ID : uuid;
  ag_AccountID : uuid;
  Role : string;
  EndpointURL : string;
  CapabilitiesOffered : option (list (string * Z));
  Availability : string;
  SchemaComplianceRate : option Q;
  AvgResponseTimeMs : option Z
}.

(** [input_payload]: [None] stands for bytes that [json.Unmarshal] rejects,
    [Some d] for a JSON object whose ["depth"] member is [d] (the empty
    string when absent). *)
Record Task := mkTask {
  ID : uuid;
  RequesterAgentID : uuid;
  WorkerAgentID : option uuid;
  CapabilityRequired : string;
  InputPayload : option string;
  OutputPayload : string;
  OutputStatus : string;
  Status : string;
  Budget : Z;
  ActualCost : option Z;
  PlatformFee : option Z;
  Deadline : option Z;
  RetryCount : Z;
  RoutingPreference : string
}.

(** A row of [credit_ledger] (the random [id] and [created_at] are left out). *)
Record CreditLedger := mkCreditLedger {
  AccountID : uuid;
  TaskID : option uuid;
  EntryType : string;
  Amount : Z;
  BalanceAfter : option Z
}.

(** ** The store *)

(** [agents] is kept in the order in which [ORDER BY a.created_at DESC]
    returns its rows; [credit_ledger] grows at its end. *)
Record Store := mkStore {
  accounts : gmap N Account;
  agents : list Agent;
  tasks : gmap N Task;
  credit_ledger : list CreditLedger
}.

Definition set_accounts (f : gmap N Account -> gmap N Account) (s : Store) : Store :=
  mkStore (f (accounts s)) (agents s) (tasks s) (credit_ledger s).
Definition set_tasks (f : gmap N Task -> gmap N Task) (s : Store) : Store :=
  mkStore (accounts s) (agents s) (f (tasks s)) (credit_ledger s).
Definition set_credit_ledger (f : list CreditLedger -> list CreditLedger) (s : Store) : Store :=
  mkStore (accounts s) (agents s) (tasks s) (f (credit_ledger s)).

Inductive error :=
| ErrInsufficientFunds      (* services.ErrInsufficientFunds *)
| ErrNoRows                 (* pgx.ErrNoRows *)
| ErrIntegerOutOfRange      (* int4 encoding / SQLSTATE 22003 *)
| ErrUnknownCapability      (* GetDeadline: unknown capability *)
| ErrResearchInput          (* GetDeadline: research input does not unmarshal *)
| ErrBadURL.                (* http.NewRequestWithContext: the URL does not parse *)

(** ** State-and-error monad

    A failing computation keeps the store it had reached: undoing the
    writes of a failed transaction is the caller's [tx.Rollback]. *)

Definition M (A : Type) : Type := Store -> (error + A) * Store.

Definition ret {A} (a : A) : M A := fun s => (inr a, s).
Definition fail {A} (e : error) : M A := fun s => (inl e, s).
Definition bind {A B} (m : M A) (k : A -> M B) : M B :=
  fun s => match m s with
           | (inr a, s') => k a s'
           | (inl e, s') => (inl e, s')
           end.

Notation "x <-- m ;; k" := (bind m (fun x => k))
  (at level 100, m at next level, right associativity).
Notation "m ;;; k" := (bind m (fun _ => k))
  (at level 100, right associativity).

(** [for _, x := range xs { if err := f(x); err != nil { return err } }] *)
Fixpoint for_each {A B} (f : A -> M B) (xs : list A) : M unit :=
  match xs with
  | [] => ret tt
  | x :: xs' => f x ;;; for_each f xs'
  end.

(** ** [sort.Slice]

    The standard library sorts slices of at most 12 elements by the
    insertion sort below, driven by the caller's [less] on positions and by
    swaps.  [less] receives the slice as it currently is, because a closure
    over the slice reads it after the swaps made so far.  Longer slices are
    sorted by another algorithm of the library, which also only swaps; the
    facts below about sorted results use nothing but that the result is a
    permutation of the input. *)

Module Sort.
Section Slice.
Context {A : Type}.
Variable less : list A -> nat -> nat -> bool.

Definition swap (l : list A) (i j : nat) : list A :=
  match l !! i, l !! j with
  | Some x, Some y => <[i := y]> (<[j := x]> l)
  | _, _ => l
  end.

(** [for j := i; j > 0 && less(j, j-1); j-- { swap(j, j-1) }] *)
Fixpoint sift (j : nat) (l : list A) : list A :=
  match j with
  | O => l
  | S j' => if less l (S j') j' then sift j' (swap l (S j') j') else l
  end.

Definition Slice (l : list A) : list A :=
  fold_left (fun acc i => sift i acc) (seq 1 (length l - 1)) l.
End Slice.
End Sort.

(** ** Repositories: the SQL statements *)

(** [SELECT ... FROM accounts WHERE id = $1 FOR UPDATE] *)
Definition GetByIDForUpdate (id : uuid) : M Account :=
  fun s => match accounts s !! id with
           | Some a => (inr a, s)
           | None => (inl ErrNoRows, s)
           end.

(** [UPDATE accounts SET credit_balance = credit_balance - $1
     WHERE id = $2 AND credit_balance >= $1 RETURNING credit_balance] *)
Definition DeductCredits (id : uuid) (amount : Z) : M Z :=
  fun s =>
    if negb (in_int4 amount) then (inl ErrIntegerOutOfRange, s) else
    match accounts s !! id with
    | Some a =>
        if CreditBalance a >=? amount then
          let newBalance := CreditBalance a - amount in
          if in_int4 newBalance then
            (inr newBalance,
             set_accounts (insert id (mkAccount newBalance (IsSystemAccount a))) s)
          else (inl ErrIntegerOutOfRange, s)
        else (inl ErrNoRows, s)
    | None => (inl ErrNoRows, s)
    end.

(** [UPDATE accounts SET credit_balance = credit_balance + $1
     WHERE id = $2 RETURNING credit_balance] *)
Definition AddCredits (id : uuid) (amount : Z) : M Z :=
  fun s =>
    if negb (in_int4 amount) then (inl ErrIntegerOutOfRange, s) else
    match accounts s !! id with
    | Some a =>
        let newBalance := CreditBalance a + amount in
        if in_int4 newBalance then
          (inr newBalance,
           set_accounts (insert id (mkAccount newBalance (IsSystemAccount a))) s)
        else (inl ErrIntegerOutOfRange, s)
    | None => (inl ErrNoRows, s)
    end.

Definition fits_int4 (o : option Z) : bool :=
  match o with Some z => in_int4 z | None => true end.

(** [INSERT INTO credit_ledger (...) VALUES (...)] *)
Definition CreateTx (c : CreditLedger) : M unit :=
  fun s =>
    if in_int4 (Amount c) && fits_int4 (BalanceAfter c) then
      (inr tt, set_credit_ledger (fun l => l ++ [c]) s)
    else (inl ErrIntegerOutOfRange, s).

(** ** [EscrowService] ([services/escrow.go]) *)

Definition LockCredits (accountID taskID : uuid) (amount : Z) : M unit :=
  acc <-- GetByIDForUpdate accountID ;;
  if CreditBalance acc <? amount then fail ErrInsufficientFunds else
  newBalance <-- DeductCredits accountID amount ;;
  CreateTx {| AccountID := accountID; TaskID := Some taskID;
              EntryType := CreditEntryEscrowLock; Amount := amount;
              BalanceAfter := Some newBalance |}.

(** [sort.Slice(ids, func(i, j int) bool { return ids[i].String() < ids[j].String() })] *)
Definition sort_ids (ids : list uuid) : list uuid :=
  Sort.Slice (fun cur i j =>
                match cur !! i, cur !! j with
                | Some a, Some b => (a <? b)%N
                | _, _ => false
                end) ids.

Definition SettleTask (taskID requesterID workerID : uuid) (budget actualCost : Z) : M unit :=
  let platformFee := GoInt.div (GoInt.mul actualCost 10) 100 in
  let workerEarning := GoInt.sub actualCost platformFee in
  let remainder := GoInt.sub budget actualCost in
  let remainder := if remainder <? 0 then 0 else remainder in
  let ids := sort_ids [requesterID; workerID; SystemPlatformAccountID] in
  for_each GetByIDForUpdate ids ;;;
  newWorker <-- AddCredits workerID workerEarning ;;
  CreateTx {| AccountID := workerID; TaskID := Some taskID;
              EntryType := CreditEntryTaskEarning; Amount := workerEarning;
              BalanceAfter := Some newWorker |} ;;;
  newPlatform <-- AddCredits SystemPlatformAccountID platformFee ;;
  CreateTx {| AccountID := SystemPlatformAccountID; TaskID := Some taskID;
              EntryType := CreditEntryPlatformFee; Amount := platformFee;
              BalanceAfter := Some newPlatform |} ;;;
  if remainder >? 0 then
    newReq <-- AddCredits requesterID remainder ;;
    CreateTx {| AccountID := requesterID; TaskID := Some taskID;
                EntryType := CreditEntryEscrowRelease; Amount := remainder;
                BalanceAfter := Some newReq |}
  else ret tt.

Definition SettleError (taskID requesterID : uuid) (budget : Z) : M unit :=
  if budget <=? 0 then ret tt else
  GetByIDForUpdate requesterID ;;;
  newBalance <-- AddCredits requesterID budget ;;
  CreateTx {| AccountID := requesterID; TaskID := Some taskID;
              EntryType := CreditEntryRefund; Amount := budget;
              BalanceAfter := Some newBalance |}.

Definition RefundFailed (taskID requesterID : uuid) (budget : Z) : M unit :=
  SettleError taskID requesterID budget.

(** ** [AgentRepo] and [TaskRepo] *)

(** The JSONB operator [?]: is the string a top-level key of the object. *)
Definition jsonb_has_key (caps : list (string * Z)) (k : string) : bool :=
  existsb (fun e => String.eqb (fst e) k) caps.

(** The WHERE clause of [FindAvailableWorkers], with the INNER JOIN on the
    owning account:
    [ac.is_system_account = FALSE AND a.role IN ('worker', 'both')
     AND a.availability = 'online'
     AND (a.capabilities_offered IS NULL OR a.capabilities_offered ? $1)] *)
Definition available_worker (s : Store) (capability : string) (a : Agent) : bool :=
  match accounts s !! ag_AccountID a with
  | None => false
  | Some ac =>
      negb (IsSystemAccount ac)
      && (String.eqb (Role a) AgentRoleWorker || String.eqb (Role a) AgentRoleBoth)
      && String.eqb (Availability a) AgentAvailabilityOnline
      && match CapabilitiesOffered a with
         | None => true
         | Some caps => jsonb_has_key caps capability
         end
  end.

Definition FindAvailableWorkers (capability : string) : M (list Agent) :=
  fun s => (inr (List.filter (available_worker s capability) (agents s)), s).

Definition agent_row (s : Store) (id : uuid) : option Agent :=
  List.find (fun a => (ag_ID a =? id)%N) (agents s).

(** [SELECT ... FROM agents WHERE id = $1] *)
Definition AgentRepo_GetByID (id : uuid) : M Agent :=
  fun s => match agent_row s id with
           | Some a => (inr a, s)
           | None => (inl ErrNoRows, s)
           end.

(** [tasks] has no column for the routing preference: a row never carries it. *)
Definition task_row (t : Task) : Task :=
  mkTask (ID t) (RequesterAgentID t) (WorkerAgentID t) (CapabilityRequired t)
         (InputPayload t) (OutputPayload t) (OutputStatus t) (Status t) (Budget t)
         (ActualCost t) (PlatformFee t) (Deadline t) (RetryCount t) "".

Definition task_encodes (t : Task) : bool :=
  in_int4 (Budget t) && fits_int4 (ActualCost t) && fits_int4 (PlatformFee t)
  && in_int4 (RetryCount t).

(** [SELECT ... FROM tasks WHERE id = $1] *)
Definition TaskRepo_GetByID (id : uuid) : M Task :=
  fun s => match tasks s !! id with
           | Some t => (inr t, s)
           | None => (inl ErrNoRows, s)
           end.

(** [UPDATE tasks SET ... WHERE id = $1]: no row, no error. *)
Definition TaskRepo_Update (t : Task) : M unit :=
  fun s =>
    if task_encodes t then
      match tasks s !! ID t with
      | Some _ => (inr tt, set_tasks (insert (ID t) (task_row t)) s)
      | None => (inr tt, s)
      end
    else (inl ErrIntegerOutOfRange, s).

(** [resolveAccountID] (the same helper in the handler and the dispatcher). *)
Definition resolveAccountID (agentID : uuid) : M uuid :=
  agent <-- AgentRepo_GetByID agentID ;;
  ret (ag_AccountID agent).

(** ** [Matcher] ([services/matching.go])

    [float64] scores are computed over the rationals. *)

Definition defaultPriceByCapability (capability : string) : Z :=
  if String.eqb capability "Research" then 8
  else if String.eqb capability "Summarize" then 3
  else if String.eqb capability "Data Extraction" then 5
  else 0.

Record workerCandidate := mkCandidate {
  agent : Agent;
  pricingPerTask : Z;
  schemaCompliance : Q;
  successRate : Q;
  reputation : Q;
  avgResponseMs : Z
}.

Definition getPricingPerTask (capabilitiesOffered : option (list (string * Z)))
                             (capability : string) : Z :=
  match capabilitiesOffered with
  | None => defaultPriceByCapability capability
  | Some m =>
      match List.find (fun e => String.eqb (fst e) capability) m with
      | Some c => if snd c >? 0 then snd c else defaultPriceByCapability capability
      | None => defaultPriceByCapability capability
      end
  end.

Definition Qgtb (a b : Q) : bool := negb (Qle_bool a b).

Fixpoint buildCandidates (workers : list Agent) (task : Task) (excludeID : uuid)
  : list workerCandidate :=
  match workers with
  | [] => []
  | ag :: rest =>
      if (ag_ID ag =? excludeID)%N then buildCandidates rest task excludeID else
      let price := getPricingPerTask (CapabilitiesOffered ag) (CapabilityRequired task) in
      if price >? Budget task then buildCandidates rest task excludeID else
      let compl := match SchemaComplianceRate ag with
                   | Some r => if Qgtb r 1 then 1%Q else r
                   | None => 0%Q
                   end in
      let ms := match AvgResponseTimeMs ag with Some m => m | None => 0 end in
      mkCandidate ag price compl (1 # 2) (1 # 2) ms
        :: buildCandidates rest task excludeID
  end.

Definition routingPreference (task : Task) : string :=
  let p := RoutingPreference task in
  if String.eqb p "" then RoutingAuto
  else if negb (String.eqb p RoutingFastest) && negb (String.eqb p RoutingCheapest)
          && negb (String.eqb p RoutingAuto) then RoutingAuto
  else p.

Definition less_by (key : workerCandidate -> Z) (cur : list workerCandidate) (i j : nat) : bool :=
  match cur !! i, cur !! j with
  | Some a, Some b => key a <? key b
  | _, _ => false
  end.

Definition max_of (key : workerCandidate -> Z) (cs : list workerCandidate) : Z :=
  let m := fold_left (fun m c => if key c >? m then key c else m) cs 0 in
  if m <=? 0 then 1 else m.

Definition score (maxMs maxPrice : Z) (c : workerCandidate) : Q :=
  let speedNorm := if maxMs >? 0 then (1 - inject_Z (avgResponseMs c) / inject_Z maxMs)%Q else 0%Q in
  let priceNorm := if maxPrice >? 0 then (1 - inject_Z (pricingPerTask c) / inject_Z maxPrice)%Q else 0%Q in
  (schemaCompliance c * (1 # 5) + successRate c * (1 # 4) + reputation c * (1 # 4)
   + speedNorm * (3 # 20) + priceNorm * (3 # 20))%Q.

(** In the weighted case [less] reads [scores], which was filled before the
    sort and is not permuted with the candidates. *)
Definition scoreAndSort (candidates : list workerCandidate) (task : Task)
  : list workerCandidate :=
  let pref := routingPreference task in
  if String.eqb pref RoutingFastest then Sort.Slice (less_by avgResponseMs) candidates
  else if String.eqb pref RoutingCheapest then Sort.Slice (less_by pricingPerTask) candidates
  else
    let maxMs := max_of avgResponseMs candidates in
    let maxPrice := max_of pricingPerTask candidates in
    let scores := List.map (score maxMs maxPrice) candidates in
    Sort.Slice (fun _ i j =>
                  match scores !! i, scores !! j with
                  | Some a, Some b => Qgtb a b
                  | _, _ => false
                  end) candidates.

Definition FindBestWorker (task : Task) : M (option Agent) :=
  workers <-- FindAvailableWorkers (CapabilityRequired task) ;;
  let candidates := buildCandidates workers task uuid_Nil in
  match candidates with
  | [] => ret None
  | _ => ret (option_map agent (head (scoreAndSort candidates task)))
  end.

Definition FindFallbacks (task : Task) (excludeAgentID : uuid) : M (list Agent) :=
  workers <-- FindAvailableWorkers (CapabilityRequired task) ;;
  let candidates := buildCandidates workers task excludeAgentID in
  match candidates with
  | [] => ret []
  | _ => ret (List.map agent (firstn 2 (scoreAndSort candidates task)))
  end.

(** ** [Validator.GetDeadline] (nanoseconds, as [time.Duration]) *)

Definition Second : Z := 1000000000.
Definition ResearchDeadlineQuick : Z := 15 * Second.
Definition ResearchDeadlineStandard : Z := 30 * Second.
Definition ResearchDeadlineDeep : Z := 45 * Second.
Definition SummarizeDeadline : Z := 15 * Second.
Definition DataExtractionDeadline : Z := 20 * Second.

Definition GetDeadline (capability : string) (input : option string) : error + Z :=
  if String.eqb capability CapabilityResearch then
    match input with
    | None => inl ErrResearchInput
    | Some depth =>
        if String.eqb depth "quick" then inr ResearchDeadlineQuick
        else if String.eqb depth "standard" then inr ResearchDeadlineStandard
        else if String.eqb depth "deep" then inr ResearchDeadlineDeep
        else inr ResearchDeadlineStandard
    end
  else if String.eqb capability CapabilitySummarize then inr SummarizeDeadline
  else if String.eqb capability CapabilityDataExtraction then inr DataExtractionDeadline
  else inl ErrUnknownCapability.

(** ** [Dispatcher]

    The dispatcher acts on the store through the connection pool, POSTs to
    worker endpoints and starts deadline watchers.  What the network
    answers is scripted: one [Attempt] per POST, holding the clock reading
    of [time.Now()] and the outcome of [HTTPClient.Do]. *)

Definition dispatchTimeout : Z := 5 * Second.
Definition maxRetries : Z := 2.

Inductive HttpResult :=
| TransportError              (* [Do] returned an error (timeout, refused, ...) *)
| Response (StatusCode : Z).

Record Attempt := mkAttempt { at_now : Z; at_result : HttpResult }.

(** A POST that was sent: endpoint, and the [dispatchPayload] fields that vary. *)
Record Post := mkPost {
  post_url : string;
  post_task : uuid;
  post_worker : uuid;
  post_deadline : Z
}.

(** [go d.monitorDeadline(task.ID, worker.ID, deadline)] *)
Record Watcher := mkWatcher { w_task : uuid; w_worker : uuid; w_deadline : Z }.

Record World := mkWorld {
  store : Store;
  posts : list Post;
  watchers : list Watcher
}.

Definition with_store (w : World) (s : Store) : World :=
  mkWorld s (posts w) (watchers w).

(** A dispatcher step: [None] when the script holds no answer for a POST. *)
Definition D (A : Type) : Type := World -> option ((error + A) * World).

(** Run a store computation on the pool (each statement commits). *)
Definition on_pool {A} (m : M A) : World -> (error + A) * World :=
  fun w => let '(r, s) := m (store w) in (r, with_store w s).

(** [tx := Pool.Begin(); defer tx.Rollback(); ...; tx.Commit()] around
    statements that all run in [tx], with a commit that returns nil. *)
Definition in_tx {A} (m : M A) : M A :=
  fun s => match m s with
           | (inr a, s') => (inr a, s')
           | (inl e, _) => (inl e, s)
           end.

Definition set_status (t : Task) (st : string) : Task :=
  mkTask (ID t) (RequesterAgentID t) (WorkerAgentID t) (CapabilityRequired t)
         (InputPayload t) (OutputPayload t) (OutputStatus t) st (Budget t)
         (ActualCost t) (PlatformFee t) (Deadline t) (RetryCount t) (RoutingPreference t).

Definition set_output_status (t : Task) (os : string) : Task :=
  mkTask (ID t) (RequesterAgentID t) (WorkerAgentID t) (CapabilityRequired t)
         (InputPayload t) (OutputPayload t) os (Status t) (Budget t)
         (ActualCost t) (PlatformFee t) (Deadline t) (RetryCount t) (RoutingPreference t).

Definition set_retry_count (t : Task) (n : Z) : Task :=
  mkTask (ID t) (RequesterAgentID t) (WorkerAgentID t) (CapabilityRequired t)
         (InputPayload t) (OutputPayload t) (OutputStatus t) (Status t) (Budget t)
         (ActualCost t) (PlatformFee t) (Deadline t) n (RoutingPreference t).

Definition set_dispatched (t : Task) (worker : uuid) (deadline : Z) : Task :=
  mkTask (ID t) (RequesterAgentID t) (Some worker) (CapabilityRequired t)
         (InputPayload t) (OutputPayload t) (OutputStatus t) TaskStatusDispatched (Budget t)
         (ActualCost t) (PlatformFee t) (Some deadline) (RetryCount t) (RoutingPreference t).

Section Dispatcher.

(** [http.NewRequestWithContext] accepts the endpoint URL. *)
Variable url_parses : string -> bool.

Definition refundAndFail (task : Task) : World -> (error + unit) * World :=
  on_pool (
    let task := set_output_status (set_status task TaskStatusFailed) TaskOutputStatusError in
    TaskRepo_Update task ;;;
    requesterAccountID <-- resolveAccountID (RequesterAgentID task) ;;
    in_tx (RefundFailed (ID task) requesterAccountID (Budget task))).

Definition failNoWorker (task : Task) : World -> (error + unit) * World :=
  refundAndFail task.

(** [dispatchWithFallback], with the call back into [dispatchToWorker] as a
    parameter. *)
Definition dispatchWithFallback_with (dispatch : Task -> Agent -> D unit)
           (task : Task) (failedAgentID : uuid) : D unit :=
  fun w =>
    let task := set_retry_count task (GoInt.add (RetryCount task) 1) in
    if RetryCount task >? maxRetries then Some (refundAndFail task w) else
    let task := set_status task TaskStatusMatching in
    match on_pool (TaskRepo_Update task) w with
    | (inl e, w) => Some (inl e, w)
    | (inr _, w) =>
        match on_pool (FindFallbacks task failedAgentID) w with
        | (inl e, w) => Some (inl e, w)
        | (inr [], w) => Some (refundAndFail task w)
        | (inr (fb :: _), w) => dispatch task fb w
        end
    end.

Fixpoint dispatchToWorker (script : list Attempt) (task : Task) (worker : Agent)
  : D unit :=
  fun w =>
    match GetDeadline (CapabilityRequired task) (InputPayload task) with
    | inl e => Some (inl e, w)
    | inr deadlineDur =>
        match script with
        | [] => None
        | a :: script' =>
            let deadline := at_now a + deadlineDur in
            let task := set_dispatched task (ag_ID worker) deadline in
            match on_pool (TaskRepo_Update task) w with
            | (inl e, w) => Some (inl e, w)
            | (inr _, w) =>
                if negb (url_parses (EndpointURL worker)) then Some (inl ErrBadURL, w) else
                let w := mkWorld (store w)
                                 (posts w ++ [mkPost (EndpointURL worker) (ID task)
                                                     (ag_ID worker) deadline])
                                 (watchers w) in
                match at_result a with
                | TransportError =>
                    dispatchWithFallback_with (dispatchToWorker script') task (ag_ID worker) w
                | Response code =>
                    if negb (code =? 200) then
                      dispatchWithFallback_with (dispatchToWorker script') task (ag_ID worker) w
                    else
                      let task := set_status task TaskStatusInProgress in
                      match on_pool (TaskRepo_Update task) w with
                      | (inl e, w) => Some (inl e, w)
                      | (inr _, w) =>
                          Some (inr tt,
                                mkWorld (store w) (posts w)
                                        (watchers w ++ [mkWatcher (ID task) (ag_ID worker) deadline]))
                      end
                end
            end
        end
    end.

Definition dispatchWithFallback (script : list Attempt) : Task -> uuid -> D unit :=
  dispatchWithFallback_with (dispatchToWorker script).

Definition DispatchTask (script : list Attempt) (task : Task) : D unit :=
  fun w =>
    match on_pool (FindBestWorker task) w with
    | (inl e, w) => Some (inl e, w)
    | (inr None, w) => Some (failNoWorker task w)
    | (inr (Some worker), w) => dispatchToWorker script task worker w
    end.

(** The body of a watcher once its deadline has passed.  A failure is
    logged, not returned. *)
Definition monitorDeadline (script : list Attempt) (wt : Watcher) : World -> option World :=
  fun w =>
    match on_pool (TaskRepo_GetByID (w_task wt)) w with
    | (inl _, w) => Some w
    | (inr task, w) =>
        if negb (String.eqb (Status task) TaskStatusInProgress) then Some w else
        let task := set_output_status (set_status task TaskStatusFailed) TaskOutputStatusError in
        match on_pool (TaskRepo_Update task) w with
        | (inl _, w) => Some w
        | (inr _, w) =>
            match dispatchWithFallback script task (w_worker wt) w with
            | Some (_, w) => Some w
            | None => None
            end
        end
    end.

(** A scenario for the statements below, in which no worker ever calls
    back: the oldest pending watcher reaches its deadline and its body
    runs, answered by a script of its own. *)
Definition expire_next (script : list Attempt) (w : World) : option World :=
  match watchers w with
  | [] => Some w
  | wt :: pending => monitorDeadline script wt (mkWorld (store w) (posts w) pending)
  end.

Fixpoint expire_all (scripts : list (list Attempt)) (w : World) : option World :=
  match scripts with
  | [] => Some w
  | script :: rest =>
      match expire_next script w with
      | Some w' => expire_all rest w'
      | None => None
      end
  end.

(** The dispatch at creation, then one deadline after the other. *)
Definition silent_life (script : list Attempt) (scripts : list (list Attempt))
           (task : Task) (w : World) : option World :=
  match DispatchTask script task w with
  | Some (_, w') => expire_all scripts w'
  | None => None
  end.

End Dispatcher.

(** ** [TaskHandler] ([handlers/task_handler.go]) *)

(** The principal that [APIKeyAuth] resolved: the account of the API key and
    the first agent of that account, if it has one. *)
Record Principal := mkPrincipal {
  p_account : uuid;
  p_agent : option Agent
}.

Definition AgentFromCtx (p : Principal) : option Agent := p_agent p.

(** [taskResultRequest]; a body that does not decode is [None]. *)
Record taskResultRequest := mkResult {
  req_OutputPayload : string;
  req_OutputStatus : string;
  req_ActualCost : Z
}.

Inductive Body :=
| ErrorBody (msg : string)
| ConflictBody (msg : string) (status : string)
| ResultBody (task_id : uuid) (status : string)
| TaskBody (t : Task).

Record HttpResponse := mkResponse { code : Z; body : Body }.

Definition StatusOK : Z := 200.
Definition StatusBadRequest : Z := 400.
Definition StatusForbidden : Z := 403.
Definition StatusNotFound : Z := 404.
Definition StatusConflict : Z := 409.
Definition StatusInternalServerError : Z := 500.

(** What [tx.Rollback] leaves of a store in which statements of the
    transaction (on [accounts] and [credit_ledger]) and statements on the
    pool (on [tasks]) were interleaved since [Begin]. *)
Definition rollback (at_begin now : Store) : Store :=
  mkStore (accounts at_begin) (agents now) (tasks now) (credit_ledger at_begin).

Definition set_result (t : Task) (req : taskResultRequest) (os : string) : Task :=
  mkTask (ID t) (RequesterAgentID t) (WorkerAgentID t) (CapabilityRequired t)
         (InputPayload t) (req_OutputPayload req) os (Status t) (Budget t)
         (Some (req_ActualCost req)) (PlatformFee t) (Deadline t) (RetryCount t)
         (RoutingPreference t).

Definition set_completed (t : Task) (platformFee : Z) : Task :=
  mkTask (ID t) (RequesterAgentID t) (WorkerAgentID t) (CapabilityRequired t)
         (InputPayload t) (OutputPayload t) (OutputStatus t) TaskStatusCompleted (Budget t)
         (ActualCost t) (Some platformFee) (Deadline t) (RetryCount t)
         (RoutingPreference t).

(** The tail of [SubmitResult]: [TaskRepo.Update], [tx.Commit], 200.
    [commits] tells whether [tx.Commit] returns nil.  When it returns an
    error the statements of the transaction are undone, while the UPDATE of
    the task row, which ran on the pool, stays. *)
Definition finish_result (at_begin : Store) (task : Task) (commits : bool) (s : Store)
  : HttpResponse * Store :=
  match TaskRepo_Update task s with
  | (inl _, s) => (mkResponse StatusInternalServerError (ErrorBody "internal error"),
                   rollback at_begin s)
  | (inr _, s) =>
      if commits then (mkResponse StatusOK (ResultBody (ID task) (Status task)), s)
      else (mkResponse StatusInternalServerError (ErrorBody "internal error"),
            rollback at_begin s)
  end.

(** [SubmitResult], POST /v1/tasks/{id}/result.  [taskID] is what
    [extractTaskID] parsed from the path, and [commits] tells whether
    [tx.Commit] returns nil; [Pool.Begin] returns a transaction. *)
Definition SubmitResult (p : Principal) (taskID : option uuid)
           (body : option taskResultRequest) (commits : bool) (s : Store)
  : HttpResponse * Store :=
  match taskID with
  | None => (mkResponse StatusBadRequest (ErrorBody "invalid task id"), s)
  | Some taskID =>
  match TaskRepo_GetByID taskID s with
  | (inl _, s) => (mkResponse StatusNotFound (ErrorBody "task not found"), s)
  | (inr task, s) =>
  if negb (String.eqb (Status task) TaskStatusInProgress)
     && negb (String.eqb (Status task) TaskStatusDispatched)
  then (mkResponse StatusConflict
          (ConflictBody "task is not in a dispatchable state" (Status task)), s)
  else
  let callingAgent := AgentFromCtx p in
  if match callingAgent, WorkerAgentID task with
     | Some ca, Some wid => negb (ag_ID ca =? wid)%N
     | _, _ => true
     end
  then (mkResponse StatusForbidden (ErrorBody "caller is not the assigned worker"), s)
  else
  match body with
  | None => (mkResponse StatusBadRequest (ErrorBody "invalid JSON"), s)
  | Some req =>
  let outputStatus := if String.eqb (req_OutputStatus req) ""
                      then TaskOutputStatusSuccess else req_OutputStatus req in
  let task := set_result task req outputStatus in
  let at_begin := s in
  match resolveAccountID (RequesterAgentID task) s with
  | (inl _, s) => (mkResponse StatusInternalServerError (ErrorBody "internal error"),
                   rollback at_begin s)
  | (inr requesterAccount, s) =>
  if String.eqb outputStatus TaskOutputStatusSuccess
     || String.eqb outputStatus TaskOutputStatusPartial then
    match WorkerAgentID task with
    | None => (mkResponse StatusInternalServerError (ErrorBody "no worker assigned"),
               rollback at_begin s)
    | Some workerAgentID =>
    match resolveAccountID workerAgentID s with
    | (inl _, s) => (mkResponse StatusInternalServerError (ErrorBody "internal error"),
                     rollback at_begin s)
    | (inr workerAccount, s) =>
    let actualCost := req_ActualCost req in
    let actualCost := if actualCost <=? 0 then Budget task else actualCost in
    let platformFee := GoInt.div (GoInt.mul actualCost 10) 100 in
    let task := set_completed task platformFee in
    match SettleTask (ID task) requesterAccount workerAccount (Budget task) actualCost s with
    | (inl _, s) => (mkResponse StatusInternalServerError (ErrorBody "settlement failed"),
                     rollback at_begin s)
    | (inr _, s) => finish_result at_begin task commits s
    end
    end
    end
  else if String.eqb outputStatus TaskOutputStatusError then
    let task := set_status task TaskStatusFailed in
    match RefundFailed (ID task) requesterAccount (Budget task) s with
    | (inl _, s) => (mkResponse StatusInternalServerError (ErrorBody "refund failed"),
                     rollback at_begin s)
    | (inr _, s) => finish_result at_begin task commits s
    end
  else (mkResponse StatusBadRequest (ErrorBody "invalid output_status"),
        rollback at_begin s)
  end
  end
  end
  end.

(** [GetTask], GET /v1/tasks/{id}. *)
Definition GetTask (p : Principal) (taskID : option uuid) (s : Store)
  : HttpResponse * Store :=
  match taskID with
  | None => (mkResponse StatusBadRequest (ErrorBody "invalid task id"), s)
  | Some taskID =>
      match TaskRepo_GetByID taskID s with
      | (inl _, s) => (mkResponse StatusNotFound (ErrorBody "task not found"), s)
      | (inr task, s) => (mkResponse StatusOK (TaskBody task), s)
      end
  end.

(** ** Middleware ([middleware/apikey_auth.go], [middleware/budget_check.go]) *)

(** [models.Account] as the request context carries it: the id of the row
    and its two spending limits (NULL is [None]). *)
Record AccountCtx := mkAccountCtx {
  acc_ID : uuid;
  GlobalMaxPerTask : option Z;
  GlobalMaxPerDay : option Z
}.

(** The two values a request context may hold. *)
Record Ctx := mkCtx {
  ctx_account : option AccountCtx;
  ctx_agent : option Agent
}.

Definition AccountFromCtx (c : Ctx) : option AccountCtx := ctx_account c.

Definition StatusAccepted : Z := 202.
Definition StatusUnauthorized : Z := 401.
Definition StatusPaymentRequired : Z := 402.
Definition StatusUnprocessableEntity : Z := 422.

(** What a middleware does with a request: answer it, or hand it to the
    next handler with a value for the context. *)
Inductive Gate (A : Type) :=
| Reject (status : Z) (why : string)
| Next (a : A).
Arguments Reject {A}.
Arguments Next {A}.

(** A row of [api_keys]. *)
Record APIKey := mkAPIKey {
  key_AccountID : uuid;
  KeyHash : string;
  IsActive : bool
}.

(** [AgentRepo.ListByAccountID]: the agents of an account that is not a
    system account, most recently created first. *)
Definition ListByAccountID (accountID : uuid) (s : Store) : list Agent :=
  List.filter (fun a => match accounts s !! ag_AccountID a with
                        | Some ac => negb (IsSystemAccount ac)
                        | None => false
                        end
                        && (ag_AccountID a =? accountID)%N) (agents s).

Section APIKeyAuth.

(** [hashKey]: the hexadecimal SHA-256 digest of the token. *)
Variable hashKey : string -> string.
(** The table [api_keys], in the order in which a query returns its rows,
    and the columns [global_max_per_task] and [global_max_per_day] of
    [accounts]. *)
Variable api_keys : list APIKey.
Variable limits : uuid -> option Z * option Z.

(** [APIKeyRepo.FindByKeyHash]: the first active key with the hash, joined
    with its account. *)
Definition FindByKeyHash (keyHash : string) (s : Store) : option AccountCtx :=
  match List.find (fun k => String.eqb (KeyHash k) keyHash && IsActive k
                            && bool_decide (is_Some (accounts s !! key_AccountID k)))
                  api_keys with
  | Some k => Some (mkAccountCtx (key_AccountID k) (limits (key_AccountID k)).1
                                 (limits (key_AccountID k)).2)
  | None => None
  end.

(** [APIKeyAuth]; [raw] is what [extractBearer] found in the Authorization
    header (empty when the header is missing or malformed). *)
Definition APIKeyAuth (raw : string) (s : Store) : Gate Ctx :=
  if String.eqb raw "" then
    Reject StatusUnauthorized "missing or malformed Authorization header"
  else
    match FindByKeyHash (hashKey raw) s with
    | None => Reject StatusUnauthorized "invalid api key"
    | Some acc => Next (mkCtx (Some acc) (head (ListByAccountID (acc_ID acc) s)))
    end.

End APIKeyAuth.

(** [AllowedCapabilities] *)
Definition AllowedCapabilities (capability : string) : bool :=
  String.eqb capability "research" || String.eqb capability "summarize"
  || String.eqb capability "data_extraction".

(** [parsedBudget]: what [BudgetCheck] reads of the body. *)
Record parsedBudget := mkParsedBudget {
  pb_Budget : Z;
  pb_CapabilityRequired : string
}.

(** [defaultDailySpend]: the sum of the escrow_lock amounts of the account
    among the ledger rows created today.  The ledger is in the order of
    creation; [midnight] is the number of its rows created before today. *)
Definition defaultDailySpend (midnight : nat) (accountID : uuid) (s : Store) : Z :=
  fold_right (fun e acc =>
                if (AccountID e =? accountID)%N
                   && String.eqb (EntryType e) CreditEntryEscrowLock
                then Amount e + acc else acc)
             0 (drop midnight (credit_ledger s)).

Section BudgetCheck.

(** [dailySpendFn], a variable of the package; [None] when it returns an
    error. *)
Variable dailySpendFn : uuid -> Store -> option Z.

(** [BudgetCheck]; the body has been read, and [peek] is the body
    unmarshalled into [parsedBudget] ([None] when it does not unmarshal).
    The messages of the two limit errors are given without the numbers
    that the code formats into them, and that of the capability error
    without the quoted capability. *)
Definition BudgetCheck (c : Ctx) (peek : option parsedBudget) (s : Store) : Gate parsedBudget :=
  match AccountFromCtx c with
  | None => Reject StatusUnauthorized "unauthorized"
  | Some acc =>
  match peek with
  | None => Reject StatusBadRequest "invalid JSON body"
  | Some peek =>
  if pb_Budget peek <=? 0 then Reject StatusBadRequest "budget must be > 0" else
  if negb (String.eqb (pb_CapabilityRequired peek) "")
     && negb (AllowedCapabilities (pb_CapabilityRequired peek))
  then Reject StatusForbidden "capability is not allowed" else
  if match GlobalMaxPerTask acc with
     | Some m => pb_Budget peek >? m
     | None => false
     end
  then Reject StatusForbidden "budget exceeds per-task limit" else
  match GlobalMaxPerDay acc with
  | None => Next peek
  | Some m =>
      match dailySpendFn (acc_ID acc) s with
      | None => Reject StatusInternalServerError "failed to check daily spend"
      | Some spent =>
          if GoInt.add spent (pb_Budget peek) >? m
          then Reject StatusForbidden "daily spend + budget exceeds daily limit"
          else Next peek
      end
  end
  end
  end.

End BudgetCheck.

(** ** [TaskHandler.CreateTask] *)

(** What [Validator.ValidateInput] says of the input payload. *)
Inductive Verdict :=
| Conforms
| Violates (msg : string)      (* an error that is [ErrValidation] *)
| CannotValidate.              (* unknown capability, or invalid JSON *)

(** [createTaskRequest], with [uuid.Parse] of the requester agent id done
    ([None] when it fails) and with the verdict of the validator on the
    payload. *)
Record createTaskRequest := mkCreateTask {
  ct_RequesterAgentID : option uuid;
  ct_CapabilityRequired : string;
  ct_InputPayload : option string;
  ct_Verdict : Verdict;
  ct_Budget : Z;
  ct_RoutingPreference : string
}.

(** [TaskRepo.Create], an INSERT: [None] when it fails, on an id that is
    taken or a value that does not fit its column. *)
Definition TaskRepo_Create (t : Task) (s : Store) : option Store :=
  if task_encodes t then
    match tasks s !! ID t with
    | Some _ => None
    | None => Some (set_tasks (insert (ID t) (task_row t)) s)
    end
  else None.

(** [CreateTask], POST /v1/tasks.  [newID] is the id that [uuid.New()]
    draws, and [commits] tells whether [tx.Commit] returns nil; [Pool.Begin]
    returns a transaction.  [LockCredits] runs in the transaction and
    [TaskRepo.Create] on the pool: when [Commit] returns an error the lock
    is undone and the INSERT stays.  The handler answers 202 before the
    dispatch that it starts. *)
Definition CreateTask (c : Ctx) (newID : uuid) (body : option createTaskRequest)
           (commits : bool) (s : Store) : HttpResponse * Store :=
  match AccountFromCtx c with
  | None => (mkResponse StatusUnauthorized (ErrorBody "unauthorized"), s)
  | Some acc =>
  match body with
  | None => (mkResponse StatusBadRequest (ErrorBody "invalid JSON"), s)
  | Some req =>
  match ct_RequesterAgentID req with
  | None => (mkResponse StatusBadRequest (ErrorBody "invalid requester_agent_id"), s)
  | Some requesterAgentID =>
  if String.eqb (ct_CapabilityRequired req) "" then
    (mkResponse StatusBadRequest (ErrorBody "capability_required is required"), s)
  else if ct_Budget req <=? 0 then
    (mkResponse StatusBadRequest (ErrorBody "budget must be > 0"), s)
  else
  match ct_Verdict req with
  | Violates msg => (mkResponse StatusUnprocessableEntity (ErrorBody msg), s)
  | CannotValidate => (mkResponse StatusBadRequest (ErrorBody "input validation failed"), s)
  | Conforms =>
  let task := mkTask newID requesterAgentID None (ct_CapabilityRequired req)
                     (ct_InputPayload req) "" "" TaskStatusCreated (ct_Budget req)
                     None None None 0 (ct_RoutingPreference req) in
  let at_begin := s in
  match LockCredits (acc_ID acc) (ID task) (Budget task) s with
  | (inl ErrInsufficientFunds, s) =>
      (mkResponse StatusPaymentRequired (ErrorBody "insufficient funds"), rollback at_begin s)
  | (inl _, s) =>
      (mkResponse StatusInternalServerError (ErrorBody "failed to lock credits"),
       rollback at_begin s)
  | (inr _, s) =>
      let task := set_status task TaskStatusMatching in
      match TaskRepo_Create task s with
      | None => (mkResponse StatusInternalServerError (ErrorBody "failed to create task"),
                 rollback at_begin s)
      | Some s =>
          if commits
          then (mkResponse StatusAccepted (ResultBody (ID task) (Status task)), s)
          else (mkResponse StatusInternalServerError (ErrorBody "internal error"),
                rollback at_begin s)
      end
  end
  end
  end
  end
  end.

(** The route POST /v1/tasks: [auth(budgetAuth(CreateTask))].  The body is
    read twice, by [BudgetCheck] and by the handler. *)
Definition post_tasks (hashKey : string -> string) (api_keys : list APIKey)
           (limits : uuid -> option Z * option Z)
           (dailySpendFn : uuid -> Store -> option Z)
           (raw : string) (newID : uuid)
           (peek : option parsedBudget) (body : option createTaskRequest)
           (commits : bool) (s : Store) : HttpResponse * Store :=
  match APIKeyAuth hashKey api_keys limits raw s with
  | Reject status why => (mkResponse status (ErrorBody why), s)
  | Next c =>
      match BudgetCheck dailySpendFn c peek s with
      | Reject status why => (mkResponse status (ErrorBody why), s)
      | Next _ => CreateTask c newID body commits s
      end
  end.

(** The context as [SubmitResult] and [GetTask] take it; they read the
    agent only. *)
Definition principal_of (c : Ctx) : Principal :=
  mkPrincipal (match ctx_account c with Some acc => acc_ID acc | None => uuid_Nil end)
              (ctx_agent c).

(** The route POST /v1/tasks/{id}/result: [auth(SubmitResult)]. *)
Definition post_result (hashKey : string -> string) (api_keys : list APIKey)
           (limits : uuid -> option Z * option Z)
           (raw : string) (taskID : option uuid) (body : option taskResultRequest)
           (commits : bool) (s : Store) : HttpResponse * Store :=
  match APIKeyAuth hashKey api_keys limits raw s with
  | Reject status why => (mkResponse status (ErrorBody why), s)
  | Next c => SubmitResult (principal_of c) taskID body commits s
  end.

(** ** Bookkeeping used by the statements *)

(** The sum of all account balances. *)
Definition total_credits (s : Store) : Z :=
  map_fold (fun _ a acc => CreditBalance a + acc) 0 (accounts s).

(** The balance of one account (0 when there is no such account). *)
Definition balance (s : Store) (id : uuid) : Z :=
  match accounts s !! id with Some a => CreditBalance a | None => 0 end.

(** The credits that a list of ledger entries adds to one account. *)
Definition credited (entries : list CreditLedger) (id : uuid) : Z :=
  fold_right (fun e acc => if (AccountID e =? id)%N then Amount e + acc else acc) 0 entries.






(** The ledger entries of the escrow operations. *)
Definition lock_entry (accountID taskID : uuid) (amount newBalance : Z) : CreditLedger :=
  {| AccountID := accountID; TaskID := Some taskID;
     EntryType := CreditEntryEscrowLock; Amount := amount;
     BalanceAfter := Some newBalance |}.

Definition earning_entry (workerID taskID : uuid) (amount newBalance : Z) : CreditLedger :=
  {| AccountID := workerID; TaskID := Some taskID;
     EntryType := CreditEntryTaskEarning; Amount := amount;
     BalanceAfter := Some newBalance |}.

Definition fee_entry (taskID : uuid) (amount newBalance : Z) : CreditLedger :=
  {| AccountID := SystemPlatformAccountID; TaskID := Some taskID;
     EntryType := CreditEntryPlatformFee; Amount := amount;
     BalanceAfter := Some newBalance |}.

Definition release_entry (requesterID taskID : uuid) (amount newBalance : Z) : CreditLedger :=
  {| AccountID := requesterID; TaskID := Some taskID;
     EntryType := CreditEntryEscrowRelease; Amount := amount;
     BalanceAfter := Some newBalance |}.

Definition refund_entry (requesterID taskID : uuid) (amount newBalance : Z) : CreditLedger :=
  {| AccountID := requesterID; TaskID := Some taskID;
     EntryType := CreditEntryRefund; Amount := amount;
     BalanceAfter := Some newBalance |}.

(** What a settlement of cost [C] against budget [B] writes: the worker's
    earning, the platform's fee and, when something is left, the release. *)
Definition settle_entries (taskID requesterID workerID : uuid) (B C : Z)
           (newWorker newPlatform newReq : Z) : list CreditLedger :=
  [earning_entry workerID taskID (C - C * 10 / 100) newWorker;
   fee_entry taskID (C * 10 / 100) newPlatform]
  ++ (if B - C >? 0 then [release_entry requesterID taskID (B - C) newReq] else []).

(** The accounts a settlement touches can take the whole budget. *)
Definition room_for (s : Store) (B : Z) (id : uuid) : Prop :=
  is_Some (accounts s !! id)
  /\ -2147483648 <= balance s id /\ balance s id + B <= 2147483647.

(** The worker pool for a capability: agents of the store with role worker
    or both, online, owned by an account that exists and is not a system
    account, whose [capabilities_offered] is NULL or has the capability
    among its keys. *)
Definition in_pool (s : Store) (capability : string) (a : Agent) : Prop :=
  a ∈ agents s
  /\ (exists ac, accounts s !! ag_AccountID a = Some ac /\ IsSystemAccount ac = false)
  /\ (Role a = AgentRoleWorker \/ Role a = AgentRoleBoth)
  /\ Availability a = AgentAvailabilityOnline
  /\ (CapabilitiesOffered a = None
      \/ exists caps price, CapabilitiesOffered a = Some caps /\ (capability, price) ∈ caps).

(** The states in which [SubmitResult] takes a callback. *)
Definition dispatchable (t : Task) : bool :=
  String.eqb (Status t) TaskStatusInProgress || String.eqb (Status t) TaskStatusDispatched.

(** The caller of a callback is the agent the task was assigned to. *)
Definition caller_is_worker (p : Principal) (t : Task) : bool :=
  match AgentFromCtx p, WorkerAgentID t with
  | Some ca, Some wid => (ag_ID ca =? wid)%N
  | _, _ => false
  end.

(** The cost a success callback is settled at. *)
Definition effective_cost (actual_cost budget : Z) : Z :=
  if actual_cost >? 0 then actual_cost else budget.

(** What the ledger holds for a task as cost charged: earnings plus fees. *)
Definition settled_cost (s : Store) (taskID : uuid) : Z :=
  fold_right (fun e acc =>
                if match TaskID e with Some t => (t =? taskID)%N | None => false end
                   && (String.eqb (EntryType e) CreditEntryTaskEarning
                       || String.eqb (EntryType e) CreditEntryPlatformFee)
                then Amount e + acc else acc) 0 (credit_ledger s).

(** Outcomes of a dispatch run, relative to the store [s0] it started from. *)

(** The task is failed and its budget is back on the requester's account
    [racc], with the refund entry at the end of the ledger. *)
Definition failed_and_refunded (s0 : Store) (task : Task) (racc : uuid) (w' : World) : Prop :=
  (exists row, tasks (store w') !! ID task = Some row
               /\ Status row = TaskStatusFailed
               /\ OutputStatus row = TaskOutputStatusError)
  /\ balance (store w') racc = balance s0 racc + Budget task
  /\ credit_ledger (store w')
     = credit_ledger s0
       ++ [refund_entry racc (ID task) (Budget task) (balance s0 racc + Budget task)].

(** Two task values that differ at most in status, output status, worker,
    deadline, retry count and routing preference. *)
Definition same_core (t t' : Task) : Prop :=
  ID t' = ID t /\ RequesterAgentID t' = RequesterAgentID t
  /\ CapabilityRequired t' = CapabilityRequired t /\ InputPayload t' = InputPayload t
  /\ Budget t' = Budget t /\ ActualCost t' = ActualCost t /\ PlatformFee t' = PlatformFee t.

(** The task is in progress with a worker, a deadline and one more watcher;
    accounts, agents and ledger are as they were; and of the [n] POSTs the
    run could make, those not yet made are enough for the retries the row
    still allows, of which there are at most [2 - k]. *)
Definition handed_to_worker (s0 : Store) (task : Task) (n : nat) (k : Z) (w w' : World) : Prop :=
  (exists row wid dl,
      tasks (store w') !! ID task = Some row
      /\ same_core task row
      /\ Status row = TaskStatusInProgress
      /\ WorkerAgentID row = Some wid /\ Deadline row = Some dl
      /\ watchers w' = watchers w ++ [mkWatcher (ID task) wid dl]
      /\ 0 <= RetryCount row <= 2 /\ k <= RetryCount row
      /\ (length (posts w') + (2 - Z.to_nat (RetryCount row)) <= length (posts w) + n)%nat)
  /\ accounts (store w') = accounts s0
  /\ agents (store w') = agents s0
  /\ credit_ledger (store w') = credit_ledger s0.

(** No attempt of the script is answered with status 200. *)
Definition all_refused (script : list Attempt) : Prop :=
  Forall (fun a => at_result a <> Response 200) script.

(** What a task needs for the dispatcher's statements to succeed: a known
    capability, INT-sized fields, and a requester agent [ra] whose account
    can take the budget back. *)
Definition dispatch_ready (s0 : Store) (task : Task) (ra : Agent) : Prop :=
  (exists dur, GetDeadline (CapabilityRequired task) (InputPayload task) = inr dur)
  /\ fits_int4 (ActualCost task) = true /\ fits_int4 (PlatformFee task) = true
  /\ 1 <= Budget task <= 2147483647
  /\ agent_row s0 (RequesterAgentID task) = Some ra
  /\ room_for s0 (Budget task) (ag_AccountID ra).

(** The part of the store a dispatch run leaves alone until it refunds. *)
Definition same_books (s0 : Store) (task : Task) (w : World) : Prop :=
  accounts (store w) = accounts s0 /\ agents (store w) = agents s0
  /\ credit_ledger (store w) = credit_ledger s0
  /\ is_Some (tasks (store w) !! ID task).

(** A dispatch step from world [w] returned without error after at most
    [n] POSTs, with the task handed to a worker or failed and refunded, and
    failed and refunded when [refused] holds. *)
Definition run_ok (s0 : Store) (task : Task) (racc : uuid) (n : nat) (k : Z) (refused : Prop)
           (w : World) (res : option ((error + unit) * World)) : Prop :=
  exists w',
    res = Some (inr tt, w')
    /\ (length (posts w') <= length (posts w) + n)%nat
    /\ (handed_to_worker s0 task n k w w'
        \/ (failed_and_refunded s0 task racc w' /\ watchers w' = watchers w))
    /\ (refused -> failed_and_refunded s0 task racc w' /\ watchers w' = watchers w).

(** Where a task stands after [k] deadlines, relative to the world [w0] in
    which it was created: at most 3 POSTs so far, and either handed to a
    worker with retry count at least [k], or failed and refunded. *)
Definition life_state (s0 : Store) (task : Task) (racc : uuid) (k : Z) (w0 w : World) : Prop :=
  (length (posts w) <= length (posts w0) + 3)%nat
  /\ (handed_to_worker s0 task 3 k w0 w
      \/ (failed_and_refunded s0 task racc w /\ watchers w = watchers w0)).

(** A [less] that compares the elements at two positions of the slice by a
    key, as the closures given to [sort.Slice] by the matchmaker do, and
    the order it sorts into. *)
Definition less_key {A} (key : A -> Z) (cur : list A) (i j : nat) : bool :=
  match cur !! i, cur !! j with
  | Some a, Some b => key a <? key b
  | _, _ => false
  end.

Definition le_key {A} (key : A -> Z) : relation A := fun a b => key a <= key b.

(** A store computation that writes neither [tasks] nor [agents], whether
    it fails or not. *)
Definition keeps_tasks {A} (m : M A) : Prop :=
  forall s, tasks (m s).2 = tasks s /\ agents (m s).2 = agents s.

(** The two readings of one request body agree on the fields they share. *)
Definition same_body (peek : option parsedBudget) (body : option createTaskRequest) : Prop :=
  forall pb req, peek = Some pb -> body = Some req ->
    pb_Budget pb = ct_Budget req /\ pb_CapabilityRequired pb = ct_CapabilityRequired req.

(** A store computation that, whether it fails or not, leaves the ledger
    as it was or longer by entries that are not escrow locks. *)
Definition adds_no_lock {A} (m : M A) : Prop :=
  forall s, exists l,
    credit_ledger (m s).2 = credit_ledger s ++ l
    /\ Forall (fun e => EntryType e <> CreditEntryEscrowLock) l.

(** The task that [CreateTask] stores for a request. *)
Definition created_task (newID requesterAgentID : uuid) (req : createTaskRequest) : Task :=
  mkTask newID requesterAgentID None (ct_CapabilityRequired req) (ct_InputPayload req)
         "" "" TaskStatusMatching (ct_Budget req) None None None 0 (ct_RoutingPreference req).

(** Each POST of the list goes to another agent than the one before it,
    the first to another agent than [prev]. *)
Fixpoint changes_worker (prev : uuid) (ps : list Post) : Prop :=
  match ps with
  | [] => True
  | p :: rest => post_worker p <> prev /\ changes_worker (post_worker p) rest
  end.

(** An agent that the matchmaker keeps for a task: in the worker pool of
    the capability, not the excluded agent, and priced within the budget. *)
Definition eligible (s : Store) (task : Task) (excludeID : uuid) (a : Agent) : bool :=
  available_worker s (CapabilityRequired task) a
  && negb (ag_ID a =? excludeID)%N
  && (getPricingPerTask (CapabilitiesOffered a) (CapabilityRequired task) <=? Budget task).

(** The price and the response time the matchmaker compares agents by. *)
Definition price_for (task : Task) (a : Agent) : Z :=
  getPricingPerTask (CapabilitiesOffered a) (CapabilityRequired task).

Definition response_ms (a : Agent) : Z :=
  match AvgResponseTimeMs a with Some m => m | None => 0 end.

(** ** Sample data *)

(** A small marketplace: requester account 10 with agent 100, worker
    accounts 20 and 30 with agents 200 and 300 (the latter with no
    capabilities recorded), the platform account 1 with agent 400. *)
Definition agent100 : Agent :=
  mkAgent 100 10 AgentRoleRequester "http://requester.example" None AgentAvailabilityOnline None None.
Definition agent200 : Agent :=
  mkAgent 200 20 AgentRoleWorker "http://w200.example" (Some [("research", 5)])
          AgentAvailabilityOnline (Some (9 # 10)) (Some 120).
Definition agent300 : Agent :=
  mkAgent 300 30 AgentRoleBoth "http://w300.example" None AgentAvailabilityOnline None (Some 80).
Definition agent400 : Agent :=
  mkAgent 400 1 AgentRoleWorker "http://platform.example" (Some [("research", 1)])
          AgentAvailabilityOnline None (Some 10).

Definition task7 (status : string) : Task :=
  mkTask 7 100 (Some 200%N) CapabilityResearch (Some "standard") "" "" status 100
         None None (Some 1000) 0 "".

Definition market (status : string) : Store :=
  mkStore (<[10%N := mkAccount 900 false]> (<[20%N := mkAccount 200 false]>
            (<[30%N := mkAccount 50 false]> (<[1%N := mkAccount 0 true]> ∅))))
          [agent400; agent300; agent200; agent100]
          (<[7%N := task7 status]> ∅)
          [lock_entry 10 7 100 900].

Definition sumtask : Task :=
  mkTask 8 100 None CapabilitySummarize (Some "") "" "" TaskStatusMatching 10
         None None None 0 "".

Definition p200 : Principal := mkPrincipal 20 (Some agent200).
Definition p300 : Principal := mkPrincipal 30 (Some agent300).

Definition any_url (_ : string) : bool := true.

Definition world0 (s : Store) : World := mkWorld s [] [].

(** Three workers in a row answer 204 No Content, and three answer 500. *)
Definition script_204 : list Attempt :=
  [mkAttempt 10 (Response 204); mkAttempt 20 (Response 204); mkAttempt 30 (Response 204)].
Definition script_500 : list Attempt :=
  [mkAttempt 10 (Response 500); mkAttempt 20 TransportError; mkAttempt 30 (Response 500)].

Definition demo_store : Store :=
  mkStore (<[10%N := mkAccount 1000 false]> (<[20%N := mkAccount 200 false]>
            (<[1%N := mkAccount 0 true]> ∅))) [] ∅ [].

(** A research task of budget 100 that asks for a routing preference. *)
Definition research_task (pref : string) : Task :=
  mkTask 9 100 None CapabilityResearch (Some "quick") "" "" TaskStatusMatching 100
         None None None 0 pref.

(** API keys for the accounts of the marketplace: one each for accounts
    10 and 20 and for the platform account, and a revoked one for account
    30.  The digest is a stand-in. *)
Definition demo_hash (raw : string) : string := String.append "digest-of-" raw.

Definition demo_keys : list APIKey :=
  [mkAPIKey 10 (demo_hash "key-10") true; mkAPIKey 20 (demo_hash "key-20") true;
   mkAPIKey 1 (demo_hash "key-platform") true; mkAPIKey 30 (demo_hash "key-30") false].

Definition demo_limits (id : uuid) : option Z * option Z :=
  if (id =? 10)%N then (Some 500, Some 1000) else (None, None).

Definition no_spend (_ : uuid) (_ : Store) : option Z := Some 0.

(** A worker whose endpoint_url has no scheme, and a marketplace in which
    it is the only worker.  [url.Parse], which [http.NewRequestWithContext]
    calls, rejects a URL that begins with a colon ("missing protocol
    scheme"); [has_scheme] is [url_parses] for the URLs of this section. *)
Definition agent250 : Agent :=
  mkAgent 250 20 AgentRoleWorker ":9000/run" (Some [("research", 5)])
          AgentAvailabilityOnline (Some (9 # 10)) (Some 120).

Definition has_scheme (url : string) : bool := negb (String.prefix ":" url).

Definition lone_worker_market : Store :=
  mkStore (accounts (market TaskStatusMatching)) [agent250; agent100]
          (tasks (market TaskStatusMatching)) (credit_ledger (market TaskStatusMatching)).

(** * Properties *)

(** ** Integers *)

Lemma wrap64_small z : - 2 ^ 63 <= z < 2 ^ 63 -> wrap64 z = z.
Proof.
  intros Hz. unfold wrap64.
  rewrite Z.mod_small; lia.
Qed.

Lemma in_int4_spec z : in_int4 z = true <-> -2147483648 <= z <= 2147483647.
Proof. unfold in_int4. rewrite andb_true_iff, !Z.leb_le. tauto. Qed.

Lemma in_int4_false z : in_int4 z = false <-> ~ (-2147483648 <= z <= 2147483647).
Proof. rewrite <- in_int4_spec. destruct (in_int4 z); split; congruence. Qed.

(** The fee of a cost in the INT range: Go computes the floor of a tenth. *)
Lemma platform_fee_small c :
  0 <= c <= 2147483647 -> GoInt.div (GoInt.mul c 10) 100 = c * 10 / 100.
Proof.
  intros Hc. unfold GoInt.div, GoInt.mul.
  rewrite (wrap64_small (c * 10)) by lia.
  rewrite Z.quot_div_nonneg by lia.
  apply wrap64_small.
  assert (0 <= c * 10 / 100) by (apply Z.div_pos; lia).
  assert (c * 10 / 100 <= c * 10) by (apply Z.div_le_upper_bound; lia).
  lia.
Qed.

Lemma fee_bounds c : 0 <= c -> 0 <= c * 10 / 100 <= c.
Proof.
  intros Hc. split.
  - apply Z.div_pos; lia.
  - apply Z.div_le_upper_bound; lia.
Qed.

(** ** The accounts table *)

Lemma total_credits_update s id a nb sys :
  accounts s !! id = Some a ->
  total_credits (set_accounts (insert id (mkAccount nb sys)) s)
  = total_credits s - CreditBalance a + nb.
Proof.
  intros Hl. unfold total_credits, set_accounts. simpl.
  rewrite <- (insert_delete_eq (accounts s)).
  rewrite map_fold_insert_L.
  - rewrite (map_fold_delete_L _ _ id a (accounts s)); [simpl; lia | | exact Hl].
    intros; lia.
  - intros; lia.
  - apply lookup_delete_eq.
Qed.

Lemma balance_update s id id' nb sys :
  balance (set_accounts (insert id (mkAccount nb sys)) s) id'
  = if (id =? id')%N then nb else balance s id'.
Proof.
  unfold balance, set_accounts. simpl.
  destruct (N.eqb_spec id id') as [->|Hne].
  - by rewrite lookup_insert_eq.
  - by rewrite lookup_insert_ne.
Qed.

(** ** [sort.Slice] permutes *)

Lemma swap_Permutation {A} (l : list A) i j : Sort.swap l i j ≡ₚ l.
Proof.
  unfold Sort.swap.
  destruct (l !! i) as [x|] eqn:Hi; [|done].
  destruct (l !! j) as [y|] eqn:Hj; [|done].
  by apply Permutation_insert_swap.
Qed.

Lemma sift_Permutation {A} (less : list A -> nat -> nat -> bool) j l :
  Sort.sift less j l ≡ₚ l.
Proof.
  revert l. induction j as [|j IH]; intros l; simpl; [done|].
  destruct (less l (S j) j); [|done].
  rewrite IH. apply swap_Permutation.
Qed.

Lemma Slice_Permutation {A} (less : list A -> nat -> nat -> bool) l :
  Sort.Slice less l ≡ₚ l.
Proof.
  unfold Sort.Slice.
  generalize (seq 1 (length l - 1)) as idx.
  intros idx. revert l. induction idx as [|i idx IH]; intros l; simpl; [done|].
  rewrite IH. apply sift_Permutation.
Qed.

Lemma Slice_elem_of {A} (less : list A -> nat -> nat -> bool) l x :
  x ∈ Sort.Slice less l <-> x ∈ l.
Proof. by rewrite Slice_Permutation. Qed.

(** ** Repository statements *)

Lemma GetByIDForUpdate_store id s : (GetByIDForUpdate id s).2 = s.
Proof. unfold GetByIDForUpdate. by destruct (accounts s !! id). Qed.

Lemma GetByIDForUpdate_Some id s a :
  accounts s !! id = Some a -> GetByIDForUpdate id s = (inr a, s).
Proof. unfold GetByIDForUpdate. by intros ->. Qed.

Lemma GetByIDForUpdate_inr id s a s' :
  GetByIDForUpdate id s = (inr a, s') -> accounts s !! id = Some a /\ s' = s.
Proof.
  unfold GetByIDForUpdate. destruct (accounts s !! id); intros H; by simplify_eq.
Qed.

Lemma for_each_lock_store ids s : (for_each GetByIDForUpdate ids s).2 = s.
Proof.
  revert s. induction ids as [|id ids IH]; intros s; simpl; [done|].
  unfold bind. pose proof (GetByIDForUpdate_store id s) as Hs.
  destruct (GetByIDForUpdate id s) as [[e|a] s1]; simpl in *; subst; [done|].
  apply IH.
Qed.

Lemma for_each_lock_ok ids s :
  (forall id, id ∈ ids -> is_Some (accounts s !! id)) ->
  for_each GetByIDForUpdate ids s = (inr tt, s).
Proof.
  revert s. induction ids as [|id ids IH]; intros s Hall; simpl; [done|].
  unfold bind. destruct (Hall id) as [a Ha]; [by left|].
  rewrite (GetByIDForUpdate_Some _ _ _ Ha). apply IH.
  intros id' Hin. apply Hall. by right.
Qed.

Lemma AddCredits_ok id amount s a :
  accounts s !! id = Some a ->
  in_int4 amount = true ->
  in_int4 (CreditBalance a + amount) = true ->
  AddCredits id amount s
  = (inr (CreditBalance a + amount),
     set_accounts (insert id (mkAccount (CreditBalance a + amount) (IsSystemAccount a))) s).
Proof. unfold AddCredits. by intros -> -> ->. Qed.

Lemma AddCredits_inr id amount s nb s' :
  AddCredits id amount s = (inr nb, s') ->
  exists a, accounts s !! id = Some a /\ nb = CreditBalance a + amount
            /\ in_int4 amount = true /\ in_int4 nb = true
            /\ s' = set_accounts (insert id (mkAccount nb (IsSystemAccount a))) s.
Proof.
  unfold AddCredits.
  destruct (in_int4 amount) eqn:Ha; simpl; [|discriminate].
  destruct (accounts s !! id) as [a|]; [|discriminate].
  destruct (in_int4 (CreditBalance a + amount)) eqn:Hb; [|discriminate].
  intros H; simplify_eq. by exists a.
Qed.

Lemma AddCredits_inl id amount s e s' :
  AddCredits id amount s = (inl e, s') -> s' = s.
Proof.
  unfold AddCredits.
  destruct (in_int4 amount); simpl; [|by intros; simplify_eq].
  destruct (accounts s !! id) as [a|]; [|by intros; simplify_eq].
  destruct (in_int4 (CreditBalance a + amount)); by intros; simplify_eq.
Qed.

Lemma DeductCredits_inr id amount s nb s' :
  DeductCredits id amount s = (inr nb, s') ->
  exists a, accounts s !! id = Some a /\ nb = CreditBalance a - amount
            /\ amount <= CreditBalance a
            /\ in_int4 amount = true /\ in_int4 nb = true
            /\ s' = set_accounts (insert id (mkAccount nb (IsSystemAccount a))) s.
Proof.
  unfold DeductCredits.
  destruct (in_int4 amount) eqn:Ha; simpl; [|discriminate].
  destruct (accounts s !! id) as [a|]; [|discriminate].
  destruct (CreditBalance a >=? amount) eqn:Hge; [|discriminate].
  destruct (in_int4 (CreditBalance a - amount)) eqn:Hb; [|discriminate].
  intros H; simplify_eq. exists a. repeat split; try done. lia.
Qed.

Lemma DeductCredits_inl id amount s e s' :
  DeductCredits id amount s = (inl e, s') -> s' = s.
Proof.
  unfold DeductCredits.
  destruct (in_int4 amount); simpl; [|by intros; simplify_eq].
  destruct (accounts s !! id) as [a|]; [|by intros; simplify_eq].
  destruct (CreditBalance a >=? amount); [|by intros; simplify_eq].
  destruct (in_int4 (CreditBalance a - amount)); by intros; simplify_eq.
Qed.

Lemma CreateTx_ok c s :
  in_int4 (Amount c) = true -> fits_int4 (BalanceAfter c) = true ->
  CreateTx c s = (inr tt, set_credit_ledger (fun l => l ++ [c]) s).
Proof. unfold CreateTx. by intros -> ->. Qed.

Lemma CreateTx_inr c s u s' :
  CreateTx c s = (inr u, s') -> s' = set_credit_ledger (fun l => l ++ [c]) s.
Proof.
  unfold CreateTx. destruct (_ && _); intros H; by simplify_eq.
Qed.

Lemma total_credits_ledger f s : total_credits (set_credit_ledger f s) = total_credits s.
Proof. done. Qed.

Lemma balance_ledger f s id : balance (set_credit_ledger f s) id = balance s id.
Proof. done. Qed.

(** What one statement does to the bookkeeping. *)

Lemma AddCredits_effect id amount s nb s' :
  AddCredits id amount s = (inr nb, s') ->
  total_credits s' = total_credits s + amount
  /\ (forall id', balance s' id' = balance s id' + if (id =? id')%N then amount else 0)
  /\ nb = balance s id + amount
  /\ in_int4 amount = true /\ in_int4 nb = true
  /\ credit_ledger s' = credit_ledger s /\ tasks s' = tasks s /\ agents s' = agents s
  /\ (forall id', is_Some (accounts s' !! id') <-> is_Some (accounts s !! id')).
Proof.
  intros (a & Ha & -> & Hamt & Hnb & ->)%AddCredits_inr.
  repeat split; try done.
  - rewrite (total_credits_update _ _ a) by done. lia.
  - intros id'. rewrite balance_update.
    destruct (N.eqb_spec id id') as [<-|Hne]; [|lia].
    unfold balance. by rewrite Ha.
  - unfold balance. by rewrite Ha.
  - simpl. intros H. destruct (decide (id = id')) as [<-|Hne]; [by rewrite Ha|].
    by rewrite lookup_insert_ne in H.
  - simpl. intros H. destruct (decide (id = id')) as [<-|Hne].
    + by rewrite lookup_insert_eq.
    + by rewrite lookup_insert_ne.
Qed.

Lemma CreateTx_effect c s u s' :
  CreateTx c s = (inr u, s') ->
  accounts s' = accounts s /\ credit_ledger s' = credit_ledger s ++ [c]
  /\ tasks s' = tasks s /\ agents s' = agents s.
Proof. by intros ->%CreateTx_inr. Qed.

Lemma total_credits_accounts s s' : accounts s' = accounts s -> total_credits s' = total_credits s.
Proof. unfold total_credits. by intros ->. Qed.

Lemma balance_accounts s s' id : accounts s' = accounts s -> balance s' id = balance s id.
Proof. unfold balance. by intros ->. Qed.

(** ** [LockCredits] *)

(** Every way [LockCredits] can go. *)
Lemma LockCredits_cases accountID taskID amount s :
  LockCredits accountID taskID amount s =
  match accounts s !! accountID with
  | None => (inl ErrNoRows, s)
  | Some acc =>
      if CreditBalance acc <? amount then (inl ErrInsufficientFunds, s)
      else if in_int4 amount && in_int4 (CreditBalance acc - amount) then
        (inr tt,
         set_credit_ledger
           (fun l => l ++ [lock_entry accountID taskID amount (CreditBalance acc - amount)])
           (set_accounts (insert accountID (mkAccount (CreditBalance acc - amount)
                                                      (IsSystemAccount acc))) s))
      else (inl ErrIntegerOutOfRange, s)
  end.
Proof.
  unfold LockCredits, bind, GetByIDForUpdate.
  destruct (accounts s !! accountID) as [acc|] eqn:Hacc; [|done].
  destruct (CreditBalance acc <? amount) eqn:Hlt; [done|].
  apply Z.ltb_ge in Hlt.
  unfold DeductCredits. rewrite Hacc.
  destruct (in_int4 amount) eqn:Ha; simpl; [|done].
  assert ((CreditBalance acc >=? amount) = true) as -> by lia.
  destruct (in_int4 (CreditBalance acc - amount)) eqn:Hb; [|done].
  unfold CreateTx. simpl. by rewrite Ha, Hb.
Qed.

(** ** [SettleTask] *)

Lemma settle_amounts B C :
  0 <= C <= B -> B <= 2147483647 ->
  GoInt.div (GoInt.mul C 10) 100 = C * 10 / 100
  /\ GoInt.sub C (C * 10 / 100) = C - C * 10 / 100
  /\ GoInt.sub B C = B - C.
Proof.
  intros HC HB. pose proof (fee_bounds C ltac:(lia)) as Hfee.
  repeat split.
  - apply platform_fee_small. lia.
  - apply wrap64_small. lia.
  - apply wrap64_small. lia.
Qed.

Ltac bind_inr H a s1 E :=
  match type of H with
  | bind ?m ?k ?s = (inr _, _) =>
      unfold bind at 1 in H;
      destruct (m s) as [[?|a] s1] eqn:E; [discriminate H|]
  end.

Lemma sort_ids_elem_of ids id : id ∈ sort_ids ids <-> id ∈ ids.
Proof. unfold sort_ids. apply Slice_elem_of. Qed.

Lemma SettleTask_inr taskID requesterID workerID B C s u s' :
  0 <= C <= B -> B <= 2147483647 ->
  SettleTask taskID requesterID workerID B C s = (inr u, s') ->
  exists nw np nr,
    credit_ledger s' = credit_ledger s ++ settle_entries taskID requesterID workerID B C nw np nr
    /\ total_credits s' = total_credits s + B
    /\ (forall id, balance s' id
                   = balance s id
                     + credited (settle_entries taskID requesterID workerID B C nw np nr) id)
    /\ nw = balance s workerID + (C - C * 10 / 100)
    /\ tasks s' = tasks s /\ agents s' = agents s.
Proof.
  intros HC HB H. unfold SettleTask in H.
  destruct (settle_amounts B C HC HB) as (-> & -> & ->) in H.
  bind_inr H u0 s0 E0.
  pose proof (for_each_lock_store (sort_ids [requesterID; workerID; SystemPlatformAccountID]) s) as Hs0.
  rewrite E0 in Hs0. simpl in Hs0. subst s0.
  bind_inr H nw s1 E1. apply AddCredits_effect in E1 as (Ht1 & Hb1 & Hnw & _ & _ & Hl1 & Hk1 & Hg1 & _).
  bind_inr H u2 s2 E2. apply CreateTx_effect in E2 as (Ha2 & Hl2 & Hk2 & Hg2).
  bind_inr H np s3 E3. apply AddCredits_effect in E3 as (Ht3 & Hb3 & Hnp & _ & _ & Hl3 & Hk3 & Hg3 & _).
  bind_inr H u4 s4 E4. apply CreateTx_effect in E4 as (Ha4 & Hl4 & Hk4 & Hg4).
  unfold settle_entries.
  destruct (B - C >? 0) eqn:Hrem.
  - assert ((if B - C <? 0 then 0 else B - C) = B - C) as Hr by (destruct (B - C <? 0) eqn:?; lia).
    rewrite Hr, Hrem in H.
    bind_inr H nr s5 E5. apply AddCredits_effect in E5 as (Ht5 & Hb5 & Hnr & _ & _ & Hl5 & Hk5 & Hg5 & _).
    apply CreateTx_effect in H as (Ha6 & Hl6 & Hk6 & Hg6).
    exists nw, np, nr. repeat split.
    + rewrite Hl6, Hl5, Hl4, Hl3, Hl2, Hl1. by rewrite <- !app_assoc.
    + rewrite (total_credits_accounts _ _ Ha6), Ht5, (total_credits_accounts _ _ Ha4), Ht3,
        (total_credits_accounts _ _ Ha2), Ht1. lia.
    + intros id. rewrite (balance_accounts _ _ _ Ha6), Hb5, (balance_accounts _ _ _ Ha4), Hb3,
        (balance_accounts _ _ _ Ha2), Hb1.
      unfold credited, earning_entry, fee_entry, release_entry.
      cbn [fold_right app AccountID Amount].
      destruct (workerID =? id)%N, (SystemPlatformAccountID =? id)%N, (requesterID =? id)%N; lia.
    + done.
    + congruence.
    + congruence.
  - assert (B - C = 0) as Hz by lia.
    rewrite Hz in H. simpl in H. unfold ret in H.
    assert (s' = s4) as -> by congruence.
    exists nw, np, 0. repeat split.
    + rewrite Hl4, Hl3, Hl2, Hl1. by rewrite <- !app_assoc.
    + rewrite (total_credits_accounts _ _ Ha4), Ht3, (total_credits_accounts _ _ Ha2), Ht1. lia.
    + intros id. rewrite (balance_accounts _ _ _ Ha4), Hb3, (balance_accounts _ _ _ Ha2), Hb1.
      unfold credited, earning_entry, fee_entry.
      cbn [fold_right app AccountID Amount].
      destruct (workerID =? id)%N, (SystemPlatformAccountID =? id)%N; lia.
    + done.
    + congruence.
    + congruence.
Qed.

Lemma AddCredits_succeeds id amount s :
  is_Some (accounts s !! id) ->
  -2147483648 <= amount <= 2147483647 ->
  -2147483648 <= balance s id + amount <= 2147483647 ->
  exists nb s', AddCredits id amount s = (inr nb, s').
Proof.
  intros [a Ha] Hamt Hnb. unfold balance in Hnb. rewrite Ha in Hnb.
  eexists _, _. apply AddCredits_ok; [done|by apply in_int4_spec..].
Qed.

Lemma CreateTx_succeeds c s nb :
  BalanceAfter c = Some nb ->
  in_int4 (Amount c) = true -> in_int4 nb = true ->
  CreateTx c s = (inr tt, set_credit_ledger (fun l => l ++ [c]) s).
Proof. intros Hb Ha Hn. apply CreateTx_ok; [done|]. by rewrite Hb. Qed.

Lemma SettleTask_succeeds taskID requesterID workerID B C s :
  0 <= C <= B -> B <= 2147483647 ->
  room_for s B requesterID -> room_for s B workerID ->
  room_for s B SystemPlatformAccountID ->
  exists s', SettleTask taskID requesterID workerID B C s = (inr tt, s').
Proof.
  intros HC HB (Hr & Hr1 & Hr2) (Hw & Hw1 & Hw2) (Hp & Hp1 & Hp2).
  pose proof (fee_bounds C ltac:(lia)) as Hfee.
  unfold SettleTask.
  destruct (settle_amounts B C HC HB) as (-> & -> & ->).
  unfold bind at 1. rewrite for_each_lock_ok; cycle 1.
  { intros id Hin. apply (proj1 (sort_ids_elem_of _ _)) in Hin.
    rewrite !elem_of_cons, elem_of_nil in Hin.
    destruct Hin as [->|[->|[->|[]]]]; done. }
  destruct (AddCredits_succeeds workerID (C - C * 10 / 100) s) as (nw & s1 & E1); [done|lia|lia|].
  unfold bind at 1. rewrite E1.
  pose proof E1 as (Ht1 & Hb1 & Hnw & Hi1 & Hj1 & Hl1 & Hk1 & Hg1 & Hd1)%AddCredits_effect.
  unfold bind at 1. erewrite CreateTx_succeeds by done.
  set (s2 := set_credit_ledger _ s1).
  assert (forall id, balance s2 id = balance s1 id) as Hb2 by done.
  assert (forall id, is_Some (accounts s2 !! id) <-> is_Some (accounts s !! id)) as Hd2
      by (intros id; apply Hd1).
  destruct (AddCredits_succeeds SystemPlatformAccountID (C * 10 / 100) s2) as (np & s3 & E3).
  { by apply Hd2. }
  { lia. }
  { rewrite Hb2, Hb1. destruct (workerID =? SystemPlatformAccountID)%N; lia. }
  unfold bind at 1. rewrite E3.
  pose proof E3 as (Ht3 & Hb3 & Hnp & Hi3 & Hj3 & Hl3 & Hk3 & Hg3 & Hd3)%AddCredits_effect.
  unfold bind at 1. erewrite CreateTx_succeeds by done.
  set (s4 := set_credit_ledger _ s3).
  assert (forall id, balance s4 id = balance s3 id) as Hb4 by done.
  assert ((if B - C <? 0 then 0 else B - C) = B - C) as -> by (destruct (B - C <? 0) eqn:?; lia).
  destruct (B - C >? 0) eqn:Hrem; [|by eexists].
  destruct (AddCredits_succeeds requesterID (B - C) s4) as (nr & s5 & E5).
  { apply Hd3, Hd2, Hr. }
  { lia. }
  { rewrite Hb4, Hb3, Hb2, Hb1.
    destruct (workerID =? requesterID)%N, (SystemPlatformAccountID =? requesterID)%N; lia. }
  unfold bind at 1. rewrite E5.
  pose proof E5 as (Ht5 & Hb5 & Hnr & Hi5 & Hj5 & Hl5 & Hk5 & Hg5 & Hd5)%AddCredits_effect.
  erewrite CreateTx_succeeds by done. by eexists.
Qed.

(** C2 (settlement split).  For a settlement of cost [C] against budget [B]
    with [1 <= C <= B] (budgets are values of an INT column): whenever
    [SettleTask] returns without error it has written a task_earning entry
    of [C - floor(C*10/100)] for the worker, a platform_fee entry of
    [floor(C*10/100)] for the platform account and, unless [B - C = 0], an
    escrow_release entry of [B - C] for the requester, and every balance
    has grown by exactly the entries written for its account: with three
    different accounts, the worker's by [C - floor(C*10/100)], the
    platform's by [floor(C*10/100)] and the requester's by [B - C].  And it
    does return without error when the three accounts exist and can take
    the credits. *)
Theorem settlement_split taskID requesterID workerID B C s :
  1 <= C <= B -> B <= 2147483647 ->
  (forall s',
      SettleTask taskID requesterID workerID B C s = (inr tt, s') ->
      exists nw np nr,
        credit_ledger s'
        = credit_ledger s ++ settle_entries taskID requesterID workerID B C nw np nr
        /\ (forall id, balance s' id
                       = balance s id
                         + credited (settle_entries taskID requesterID workerID B C nw np nr) id)
        /\ (workerID <> SystemPlatformAccountID -> workerID <> requesterID ->
            requesterID <> SystemPlatformAccountID ->
            balance s' workerID = balance s workerID + (C - C * 10 / 100)
            /\ balance s' SystemPlatformAccountID
               = balance s SystemPlatformAccountID + C * 10 / 100
            /\ balance s' requesterID = balance s requesterID + (B - C)))
  /\ (room_for s B requesterID -> room_for s B workerID ->
      room_for s B SystemPlatformAccountID ->
      exists s', SettleTask taskID requesterID workerID B C s = (inr tt, s')).
Proof.
  intros HC HB. split.
  2:{ intros Hr Hw Hp. apply SettleTask_succeeds; try done. lia. }
  intros s' Hs'.
  assert (0 <= C <= B) as HC' by lia.
  destruct (SettleTask_inr _ _ _ _ _ _ _ _ HC' HB Hs')
    as (nw & np & nr & Hl & _ & Hb & _ & _ & _).
  exists nw, np, nr. split; [done|]. split; [done|].
  intros Hwp Hwr Hrp. rewrite !Hb.
  unfold settle_entries, credited, earning_entry, fee_entry, release_entry.
  destruct (B - C >? 0) eqn:Hz; cbn [fold_right app AccountID Amount];
    rewrite ?N.eqb_refl;
    repeat match goal with
           | |- context [(?a =? ?b)%N] => destruct (N.eqb_spec a b); try congruence
           end; lia.
Qed.

(** An account of a concrete store exists and has room. *)
Ltac solve_room := split; [by eexists|]; vm_compute; split; discriminate.

Lemma settlement_split_witness :
  exists s', SettleTask 7%N 10%N 20%N 100 80 demo_store = (inr tt, s').
Proof.
  apply (proj2 (settlement_split 7%N 10%N 20%N 100 80 demo_store ltac:(lia) ltac:(lia))).
  - solve_room.
  - solve_room.
  - solve_room.
Defined.

(** C4 (no negative balances).  [LockCredits] keeps every balance at or above
    zero; a successful lock leaves the account at its old balance minus the
    amount, which is not negative; on an account whose balance is below the
    amount it returns [ErrInsufficientFunds]; and whenever it returns an
    error the store is the one it started from: nothing deducted, no ledger
    entry. *)
Theorem lock_never_negative accountID taskID amount s r s' :
  (forall id acc, accounts s !! id = Some acc -> 0 <= CreditBalance acc) ->
  LockCredits accountID taskID amount s = (r, s') ->
  (forall id acc, accounts s' !! id = Some acc -> 0 <= CreditBalance acc)
  /\ (r = inr tt ->
      0 <= balance s' accountID
      /\ balance s' accountID = balance s accountID - amount
      /\ credit_ledger s'
         = credit_ledger s ++ [lock_entry accountID taskID amount (balance s' accountID)])
  /\ (forall acc, accounts s !! accountID = Some acc -> CreditBalance acc < amount ->
      r = inl ErrInsufficientFunds)
  /\ (forall e, r = inl e -> s' = s).
Proof.
  intros Hinv H. rewrite LockCredits_cases in H.
  destruct (accounts s !! accountID) as [acc|] eqn:Hacc.
  2:{ simplify_eq. repeat split; try done; by intros; simplify_eq. }
  destruct (CreditBalance acc <? amount) eqn:Hlt.
  { simplify_eq. repeat split; try done; by intros; simplify_eq. }
  apply Z.ltb_ge in Hlt.
  destruct (in_int4 amount && in_int4 (CreditBalance acc - amount)) eqn:Hrange.
  2:{ simplify_eq. repeat split; try done; intros; simplify_eq; lia. }
  simplify_eq. split; [|split; [intros _; split; [|split]|split]]; try done.
  - simpl. intros id a Hl.
    destruct (decide (accountID = id)) as [<-|Hne].
    + rewrite lookup_insert_eq in Hl. simplify_eq. simpl. lia.
    + rewrite lookup_insert_ne in Hl by done. by eapply Hinv.
  - unfold balance. simpl. rewrite lookup_insert_eq. simpl. lia.
  - unfold balance. simpl. rewrite lookup_insert_eq, Hacc. done.
  - unfold balance. simpl. by rewrite lookup_insert_eq.
  - intros a ? ?. simplify_eq. lia.
Qed.

Ltac solve_nonneg :=
  let id := fresh "id" in let acc := fresh "acc" in
  intros id acc; unfold demo_store; simpl;
  rewrite !lookup_insert_Some, lookup_empty;
  intros [[_ <-]|[_ [[_ <-]|[_ [[_ <-]|[_ ?]]]]]]; simpl; try lia; done.

Lemma lock_never_negative_witness :
  LockCredits 10%N 7%N 9999 demo_store = (inl ErrInsufficientFunds, demo_store)
  /\ (forall id acc, accounts demo_store !! id = Some acc -> 0 <= CreditBalance acc)
  /\ (@inl error unit ErrInsufficientFunds = inr tt ->
      0 <= balance demo_store 10%N
      /\ balance demo_store 10%N = balance demo_store 10%N - 9999
      /\ credit_ledger demo_store
         = credit_ledger demo_store ++ [lock_entry 10%N 7%N 9999 (balance demo_store 10%N)])
  /\ (forall acc, accounts demo_store !! 10%N = Some acc -> CreditBalance acc < 9999 ->
      @inl error unit ErrInsufficientFunds = inl ErrInsufficientFunds)
  /\ (forall e, @inl error unit ErrInsufficientFunds = inl e -> demo_store = demo_store).
Proof.
  split; [vm_compute; reflexivity|].
  apply (lock_never_negative 10%N 7%N 9999 demo_store (inl ErrInsufficientFunds) demo_store).
  - solve_nonneg.
  - vm_compute; reflexivity.
Defined.

(** ** [SettleError] and whole operations *)

Lemma SettleError_inr taskID requesterID budget s u s' :
  SettleError taskID requesterID budget s = (inr u, s') ->
  (budget <= 0 /\ s' = s)
  \/ (0 < budget
      /\ total_credits s' = total_credits s + budget
      /\ (forall id, balance s' id
                     = balance s id + if (requesterID =? id)%N then budget else 0)
      /\ credit_ledger s'
         = credit_ledger s
           ++ [refund_entry requesterID taskID budget (balance s requesterID + budget)]
      /\ tasks s' = tasks s /\ agents s' = agents s).
Proof.
  unfold SettleError. destruct (budget <=? 0) eqn:Hb.
  { intros H. left. unfold ret in H. split; [lia|congruence]. }
  intros H. right.
  bind_inr H a0 s0 E0. apply GetByIDForUpdate_inr in E0 as [_ ->].
  bind_inr H nb s1 E1.
  apply AddCredits_effect in E1 as (Ht1 & Hb1 & Hnb & _ & _ & Hl1 & Hk1 & Hg1 & _).
  apply CreateTx_effect in H as (Ha2 & Hl2 & Hk2 & Hg2).
  repeat split.
  - lia.
  - by rewrite (total_credits_accounts _ _ Ha2).
  - intros id. by rewrite (balance_accounts _ _ _ Ha2).
  - rewrite Hl2, Hl1. by subst nb.
  - congruence.
  - congruence.
Qed.

Lemma SettleError_succeeds taskID requesterID budget s :
  0 < budget <= 2147483647 ->
  is_Some (accounts s !! requesterID) ->
  -2147483648 <= balance s requesterID -> balance s requesterID + budget <= 2147483647 ->
  exists s', SettleError taskID requesterID budget s = (inr tt, s').
Proof.
  intros Hb [a Ha] Hlo Hhi. unfold SettleError.
  assert ((budget <=? 0) = false) as -> by lia.
  unfold bind at 1. rewrite (GetByIDForUpdate_Some _ _ _ Ha).
  destruct (AddCredits_succeeds requesterID budget s) as (nb & s1 & E1); [done|lia|lia|].
  unfold bind at 1. rewrite E1.
  pose proof E1 as (_ & _ & _ & Hi & Hj & _)%AddCredits_effect.
  erewrite CreateTx_succeeds by done. by eexists.
Qed.







(** ** The matchmaker *)

Lemma jsonb_has_key_spec caps k :
  jsonb_has_key caps k = true <-> exists price, (k, price) ∈ caps.
Proof.
  unfold jsonb_has_key. rewrite existsb_exists. split.
  - intros [[k' price] [Hin Heq]]. simpl in Heq. apply String.eqb_eq in Heq as ->.
    exists price. by apply list_elem_of_In.
  - intros [price Hin]. exists (k, price). split; [by apply list_elem_of_In|].
    simpl. apply String.eqb_refl.
Qed.

Lemma available_worker_in_pool s capability a :
  a ∈ agents s -> available_worker s capability a = true -> in_pool s capability a.
Proof.
  intros Hin. unfold available_worker.
  destruct (accounts s !! ag_AccountID a) as [ac|] eqn:Hac; [|discriminate].
  rewrite !andb_true_iff, orb_true_iff, negb_true_iff, !String.eqb_eq.
  intros [[[Hsys Hrole] Hav] Hcaps].
  split; [done|]. split; [by exists ac|]. split; [done|]. split; [done|].
  destruct (CapabilitiesOffered a) as [caps|]; [|by left].
  right. apply jsonb_has_key_spec in Hcaps as [price Hp]. by exists caps, price.
Qed.

Lemma FindAvailableWorkers_pool capability s :
  exists workers,
    FindAvailableWorkers capability s = (inr workers, s)
    /\ forall a, a ∈ workers -> in_pool s capability a.
Proof.
  eexists. split; [reflexivity|].
  intros a Ha. apply list_elem_of_In, filter_In in Ha as [Hin Hok].
  apply available_worker_in_pool; [by apply list_elem_of_In|done].
Qed.

Lemma buildCandidates_elem_of workers task excludeID c :
  c ∈ buildCandidates workers task excludeID ->
  agent c ∈ workers /\ ag_ID (agent c) <> excludeID
  /\ getPricingPerTask (CapabilitiesOffered (agent c)) (CapabilityRequired task)
     <= Budget task.
Proof.
  induction workers as [|ag rest IH]; simpl; [by intros ?%elem_of_nil|].
  destruct (N.eqb_spec (ag_ID ag) excludeID) as [Heq|Hne].
  { intros Hc. destruct (IH Hc) as (? & ? & ?). repeat split; try done. by right. }
  destruct (getPricingPerTask (CapabilitiesOffered ag) (CapabilityRequired task) >? Budget task)
    eqn:Hprice.
  { intros Hc. destruct (IH Hc) as (? & ? & ?). repeat split; try done. by right. }
  rewrite elem_of_cons. intros [->|Hc].
  - simpl. repeat split; [by left|done|lia].
  - destruct (IH Hc) as (? & ? & ?). repeat split; try done. by right.
Qed.

Lemma scoreAndSort_Permutation candidates task :
  scoreAndSort candidates task ≡ₚ candidates.
Proof.
  unfold scoreAndSort.
  destruct (String.eqb _ RoutingFastest); [apply Slice_Permutation|].
  destruct (String.eqb _ RoutingCheapest); apply Slice_Permutation.
Qed.

Lemma scoreAndSort_elem_of candidates task c :
  c ∈ scoreAndSort candidates task <-> c ∈ candidates.
Proof. by rewrite scoreAndSort_Permutation. Qed.

Lemma head_elem_of {A} (l : list A) x : head l = Some x -> x ∈ l.
Proof. destruct l; intros H; simplify_eq/=. by left. Qed.

Lemma firstn_elem_of {A} n (l : list A) x : x ∈ firstn n l -> x ∈ l.
Proof.
  revert l. induction n as [|n IH]; intros [|y l]; simpl; try by intros ?%elem_of_nil.
  rewrite !elem_of_cons. intros [->|H]; [by left|right; by apply IH].
Qed.

(** C8 (candidate pool), as the code has it.  Whatever [FindBestWorker] or
    [FindFallbacks] returns is in the pool: an agent of the store with role
    worker or both, online, whose owning account is not a system account,
    and whose capabilities_offered either is NULL or contains the requested
    capability; its price is within the budget, and a fallback is never the
    excluded agent. *)
Theorem matcher_selects_from_pool task s :
  (forall a s', FindBestWorker task s = (inr (Some a), s') ->
                in_pool s (CapabilityRequired task) a
                /\ getPricingPerTask (CapabilitiesOffered a) (CapabilityRequired task)
                   <= Budget task)
  /\ (forall excludeAgentID l s' a,
        FindFallbacks task excludeAgentID s = (inr l, s') -> a ∈ l ->
        in_pool s (CapabilityRequired task) a
        /\ ag_ID a <> excludeAgentID
        /\ getPricingPerTask (CapabilitiesOffered a) (CapabilityRequired task)
           <= Budget task).
Proof.
  destruct (FindAvailableWorkers_pool (CapabilityRequired task) s) as (workers & Hw & Hpool).
  split.
  - intros a s' H. unfold FindBestWorker, bind in H. rewrite Hw in H.
    destruct (buildCandidates workers task uuid_Nil) as [|c0 cs] eqn:Hcs;
      unfold ret in H; [congruence|].
    rewrite <- Hcs in *.
    destruct (head (scoreAndSort (buildCandidates workers task uuid_Nil) task)) as [c|] eqn:Hhd;
      simpl in H; [|congruence].
    assert (a = agent c) as -> by congruence.
    apply head_elem_of, scoreAndSort_elem_of in Hhd.
    apply buildCandidates_elem_of in Hhd as (Hin & _ & Hle).
    split; [by apply Hpool|done].
  - intros ex l s' a H Ha. unfold FindFallbacks, bind in H. rewrite Hw in H.
    destruct (buildCandidates workers task ex) as [|c0 cs] eqn:Hcs; unfold ret in H.
    { assert (l = []) as -> by congruence. by apply elem_of_nil in Ha. }
    rewrite <- Hcs in *.
    assert (l = List.map agent (firstn 2 (scoreAndSort (buildCandidates workers task ex) task)))
      as -> by congruence.
    apply list_elem_of_In, in_map_iff in Ha as (c & <- & Hc).
    apply list_elem_of_In, firstn_elem_of, scoreAndSort_elem_of in Hc.
    apply buildCandidates_elem_of in Hc as (Hin & Hne & Hle).
    split; [by apply Hpool|done].
Qed.

Lemma matcher_selects_from_pool_witness :
  in_pool (market TaskStatusMatching) CapabilitySummarize agent300
  /\ getPricingPerTask (CapabilitiesOffered agent300) CapabilitySummarize <= 10.
Proof.
  apply (proj1 (matcher_selects_from_pool sumtask (market TaskStatusMatching))
               agent300 (market TaskStatusMatching)).
  vm_compute. reflexivity.
Defined.

(** C8 as stated fails: an agent whose capabilities_offered is NULL is
    returned for a capability that its (absent) mapping does not contain. *)
Lemma null_capabilities_selected :
  FindBestWorker sumtask (market TaskStatusMatching)
  = (inr (Some agent300), market TaskStatusMatching)
  /\ CapabilitiesOffered agent300 = None
  /\ ~ (exists caps price, CapabilitiesOffered agent300 = Some caps
                           /\ (CapabilityRequired sumtask, price) ∈ caps).
Proof.
  split; [vm_compute; reflexivity|]. split; [reflexivity|].
  intros (caps & price & H & _). discriminate H.
Qed.

(** ** The task API *)

Lemma TaskRepo_GetByID_Some id s t :
  tasks s !! id = Some t -> TaskRepo_GetByID id s = (inr t, s).
Proof. unfold TaskRepo_GetByID. by intros ->. Qed.

Lemma TaskRepo_GetByID_None id s :
  tasks s !! id = None -> TaskRepo_GetByID id s = (inl ErrNoRows, s).
Proof. unfold TaskRepo_GetByID. by intros ->. Qed.

(** [GetTask] does not look at the principal: every authenticated caller
    gets the same answer, and that answer is the task row whenever a task
    with the id exists (404 otherwise); the store is not touched. *)
Lemma get_task_ignores_principal p p' taskID s :
  GetTask p taskID s = GetTask p' taskID s
  /\ (forall id t, taskID = Some id -> tasks s !! id = Some t ->
      GetTask p taskID s = (mkResponse StatusOK (TaskBody t), s))
  /\ (forall id, taskID = Some id -> tasks s !! id = None ->
      GetTask p taskID s = (mkResponse StatusNotFound (ErrorBody "task not found"), s)).
Proof.
  split; [done|]. split.
  - intros id t -> Ht. unfold GetTask. by rewrite (TaskRepo_GetByID_Some _ _ _ Ht).
  - intros id -> Ht. unfold GetTask. by rewrite (TaskRepo_GetByID_None _ _ Ht).
Qed.

(** C9 (task reads), the code at the failing input.  The principal of
    account 30, which owns neither the requester agent (agent 100 of
    account 10) nor the worker of task 7, asks for task 7 and is answered
    200 with the task row: [GetTask] and [TaskRepo.GetByID] select by id
    alone, where the claim has the row go to the owning account only. *)
Lemma foreign_account_reads_task :
  agent_row (market TaskStatusInProgress) (RequesterAgentID (task7 TaskStatusInProgress))
  = Some agent100
  /\ ag_AccountID agent100 <> p_account p300
  /\ caller_is_worker p300 (task7 TaskStatusInProgress) = false
  /\ (GetTask p300 (Some 7%N) (market TaskStatusInProgress)).1
     = mkResponse StatusOK (TaskBody (task7 TaskStatusInProgress)).
Proof.
  split; [vm_compute; reflexivity|]. split; [vm_compute; discriminate|].
  split; vm_compute; reflexivity.
Qed.

(** C5 (callback authorization), as the code has it.  A callback whose
    caller is not the assigned worker of the task fails and changes neither
    the task nor the ledger (the store is the one before the call).  The
    status of the task is checked first: the answer is Forbidden when the
    task is in_progress or dispatched and Conflict in any other state. *)
Theorem callback_needs_assigned_worker p taskID body commits s task :
  tasks s !! taskID = Some task ->
  caller_is_worker p task = false ->
  exists resp,
    SubmitResult p (Some taskID) body commits s = (resp, s)
    /\ code resp = if dispatchable task then StatusForbidden else StatusConflict.
Proof.
  intros Ht Hcaller. unfold SubmitResult.
  rewrite (TaskRepo_GetByID_Some _ _ _ Ht).
  unfold dispatchable. rewrite <- negb_orb.
  destruct (String.eqb (Status task) TaskStatusInProgress
            || String.eqb (Status task) TaskStatusDispatched); simpl.
  2:{ eexists. split; reflexivity. }
  unfold caller_is_worker in Hcaller.
  destruct (AgentFromCtx p) as [ca|]; [|eexists; split; reflexivity].
  destruct (WorkerAgentID task) as [wid|]; [|eexists; split; reflexivity].
  rewrite Hcaller. simpl. eexists. split; reflexivity.
Qed.

Lemma callback_needs_assigned_worker_witness :
  exists resp,
    SubmitResult p300 (Some 7%N) (Some (mkResult "out" "success" 50)) true
                 (market TaskStatusInProgress)
    = (resp, market TaskStatusInProgress)
    /\ code resp = if dispatchable (task7 TaskStatusInProgress)
                   then StatusForbidden else StatusConflict.
Proof.
  apply (callback_needs_assigned_worker p300 7%N (Some (mkResult "out" "success" 50)) true
           (market TaskStatusInProgress) (task7 TaskStatusInProgress)).
  - vm_compute. reflexivity.
  - vm_compute. reflexivity.
Defined.

(** C5 as stated fails: on a task that is already completed, a caller that
    is not the assigned worker is answered Conflict, not Forbidden. *)
Lemma imposter_on_completed_task_gets_conflict :
  caller_is_worker p300 (task7 TaskStatusCompleted) = false
  /\ SubmitResult p300 (Some 7%N) (Some (mkResult "out" "success" 50)) true
                  (market TaskStatusCompleted)
     = (mkResponse StatusConflict
          (ConflictBody "task is not in a dispatchable state" TaskStatusCompleted),
        market TaskStatusCompleted)
  /\ StatusConflict <> StatusForbidden.
Proof.
  split; [vm_compute; reflexivity|]. split; [vm_compute; reflexivity|].
  vm_compute. discriminate.
Qed.

Lemma resolveAccountID_Some id s a :
  agent_row s id = Some a -> resolveAccountID id s = (inr (ag_AccountID a), s).
Proof. unfold resolveAccountID, bind, AgentRepo_GetByID. by intros ->. Qed.

Lemma TaskRepo_Update_Some t s old :
  task_encodes t = true -> tasks s !! ID t = Some old ->
  TaskRepo_Update t s = (inr tt, set_tasks (insert (ID t) (task_row t)) s).
Proof. unfold TaskRepo_Update. by intros -> ->. Qed.

Lemma effective_cost_bounds actual budget :
  1 <= budget -> actual <= budget ->
  1 <= effective_cost actual budget <= budget.
Proof. unfold effective_cost. destruct (actual >? 0) eqn:H; lia. Qed.

(** A success or partial callback from the assigned worker, whose reported
    cost is within the budget, on accounts that can take the credits: [s']
    is the store when [tx.Commit] is called. *)
Lemma SubmitResult_settles p id req commits s task ca ra wa :
  tasks s !! id = Some task -> ID task = id ->
  dispatchable task = true ->
  AgentFromCtx p = Some ca -> WorkerAgentID task = Some (ag_ID ca) ->
  (req_OutputStatus req = "" \/ req_OutputStatus req = TaskOutputStatusSuccess
   \/ req_OutputStatus req = TaskOutputStatusPartial) ->
  agent_row s (RequesterAgentID task) = Some ra ->
  agent_row s (ag_ID ca) = Some wa ->
  1 <= Budget task <= 2147483647 ->
  -2147483648 <= req_ActualCost req <= Budget task ->
  in_int4 (RetryCount task) = true ->
  room_for s (Budget task) (ag_AccountID ra) ->
  room_for s (Budget task) (ag_AccountID wa) ->
  room_for s (Budget task) SystemPlatformAccountID ->
  let e := effective_cost (req_ActualCost req) (Budget task) in
  let os := if String.eqb (req_OutputStatus req) "" then TaskOutputStatusSuccess
            else req_OutputStatus req in
  exists s' nw np nr,
    SubmitResult p (Some id) (Some req) commits s
    = (if commits then (mkResponse StatusOK (ResultBody id TaskStatusCompleted), s')
       else (mkResponse StatusInternalServerError (ErrorBody "internal error"),
             rollback s s'))
    /\ tasks s'
       = <[id := task_row (set_completed (set_result task req os) (e * 10 / 100))]> (tasks s)
    /\ credit_ledger s'
       = credit_ledger s
         ++ settle_entries id (ag_AccountID ra) (ag_AccountID wa) (Budget task) e nw np nr
    /\ (forall a, balance s' a
                  = balance s a
                    + credited (settle_entries id (ag_AccountID ra) (ag_AccountID wa)
                                               (Budget task) e nw np nr) a)
    /\ nw = balance s (ag_AccountID wa) + (e - e * 10 / 100)
    /\ 1 <= e <= Budget task.
Proof.
  intros Ht Hid Hdisp Hca Hwid Hos Hra Hwa HB Hcost Hretry Hr Hw Hp e os.
  pose proof (effective_cost_bounds _ _ (proj1 HB) (proj2 Hcost)) as He. fold e in He.
  unfold SubmitResult.
  rewrite (TaskRepo_GetByID_Some _ _ _ Ht).
  unfold dispatchable in Hdisp. rewrite <- negb_orb, Hdisp. cbn [negb].
  rewrite Hca, Hwid, N.eqb_refl. cbn [negb].
  fold os.
  assert ((String.eqb os TaskOutputStatusSuccess || String.eqb os TaskOutputStatusPartial) = true)
    as Hok.
  { unfold os. destruct Hos as [-> | [-> | ->]]; reflexivity. }
  cbn [RequesterAgentID set_result WorkerAgentID Budget ID].
  rewrite (resolveAccountID_Some _ _ _ Hra), Hok, Hwid.
  rewrite (resolveAccountID_Some _ _ _ Hwa).
  assert ((if req_ActualCost req <=? 0 then Budget task else req_ActualCost req) = e) as ->.
  { unfold e, effective_cost. destruct (req_ActualCost req <=? 0) eqn:H1;
      destruct (req_ActualCost req >? 0) eqn:H2; lia. }
  rewrite platform_fee_small by lia.
  change (ID (set_completed (set_result task req os) (e * 10 / 100))) with (ID task).
  change (Budget (set_completed (set_result task req os) (e * 10 / 100))) with (Budget task).
  rewrite Hid.
  assert (0 <= e <= Budget task) as He' by lia.
  destruct (SettleTask_succeeds id (ag_AccountID ra) (ag_AccountID wa) (Budget task) e s)
    as [s1 Hs1]; try done; [lia|].
  rewrite Hs1.
  destruct (SettleTask_inr _ _ _ _ _ _ _ _ He' (proj2 HB) Hs1)
    as (nw & np & nr & Hl & _ & Hb & Hnw & Hk & _).
  unfold finish_result.
  pose proof (fee_bounds e ltac:(lia)) as Hfee.
  erewrite TaskRepo_Update_Some; cycle 1.
  { unfold task_encodes. cbn [Budget ActualCost PlatformFee RetryCount set_completed set_result
                                fits_int4].
    rewrite Hretry, !andb_true_iff. repeat split; apply in_int4_spec; lia. }
  { cbn [ID set_completed set_result]. rewrite Hk, Hid. exact Ht. }
  cbn [ID Status set_completed set_result]. rewrite Hid.
  exists (set_tasks (insert id (task_row (set_completed (set_result task req os) (e * 10 / 100)))) s1),
         nw, np, nr.
  repeat split; try done; try lia.
  simpl. by rewrite Hk.
Qed.

(** C3 (effective cost), the code at the failing input.  The assigned
    worker of task 7 (budget 100, locked when the task was created) reports
    a cost of 150.  The callback is accepted and the task is completed
    with that cost recorded; the ledger pays out 150, 135 to the worker and
    15 to the platform, and returns nothing to the requester: the cost is
    not clamped at the budget, and the sum of all balances has grown by
    150 for the 100 that were locked. *)
Lemma over_budget_cost_is_settled :
  let before := market TaskStatusInProgress in
  let after := SubmitResult p200 (Some 7%N) (Some (mkResult "out" TaskOutputStatusSuccess 150))
                            true before in
  caller_is_worker p200 (task7 TaskStatusInProgress) = true
  /\ Budget (task7 TaskStatusInProgress) = 100
  /\ after.1 = mkResponse StatusOK (ResultBody 7%N TaskStatusCompleted)
  /\ settled_cost after.2 7%N = 150
  /\ (ActualCost <$> tasks after.2 !! 7%N) = Some (Some 150)
  /\ balance after.2 20%N = balance before 20%N + 135
  /\ balance after.2 1%N = balance before 1%N + 15
  /\ balance after.2 10%N = balance before 10%N
  /\ total_credits after.2 = total_credits before + 150
  /\ ~ settled_cost after.2 7%N <= Budget (task7 TaskStatusInProgress).
Proof.
  repeat split; try (vm_compute; reflexivity).
  vm_compute. intros H. by apply H.
Qed.

Lemma worker_is_credited taskID requesterID workerID B C nw np nr :
  1 <= C <= B ->
  1 <= C - C * 10 / 100
  /\ C - C * 10 / 100 <= credited (settle_entries taskID requesterID workerID B C nw np nr)
                                  workerID.
Proof.
  intros HC. pose proof (fee_bounds C ltac:(lia)) as Hfee.
  assert (C * 10 / 100 < C) as Hlt by (apply Z.div_lt_upper_bound; lia).
  split; [lia|].
  unfold settle_entries, credited. cbn [app fold_right AccountID Amount earning_entry fee_entry].
  rewrite N.eqb_refl.
  destruct (B - C >? 0); cbn [fold_right AccountID Amount release_entry];
    repeat case_match; lia.
Qed.

(** C10 (omitted output_status).  A callback whose output_status is empty
    is answered, and changes the store, exactly as the same callback with
    output_status success, whatever else it holds and however the commit
    ends.  When it comes from the assigned worker with a cost within the
    budget and the transaction commits, it is settled by [SettleTask]: the
    answer is 200 completed; the task row is completed with output_status
    success; the ledger has grown by the entries of the settlement; every
    balance has grown by what these entries credit to its account; and the
    worker is paid: the balance of the worker's account has grown by at
    least the earning, which is at least 1. *)
Theorem empty_output_status_is_success :
  (forall p taskID payload cost commits s,
      SubmitResult p taskID (Some (mkResult payload "" cost)) commits s
      = SubmitResult p taskID (Some (mkResult payload TaskOutputStatusSuccess cost)) commits s)
  /\ (forall p id payload cost s task ca ra wa,
        tasks s !! id = Some task -> ID task = id ->
        dispatchable task = true ->
        AgentFromCtx p = Some ca -> WorkerAgentID task = Some (ag_ID ca) ->
        agent_row s (RequesterAgentID task) = Some ra ->
        agent_row s (ag_ID ca) = Some wa ->
        1 <= Budget task <= 2147483647 ->
        -2147483648 <= cost <= Budget task ->
        in_int4 (RetryCount task) = true ->
        room_for s (Budget task) (ag_AccountID ra) ->
        room_for s (Budget task) (ag_AccountID wa) ->
        room_for s (Budget task) SystemPlatformAccountID ->
        let e := effective_cost cost (Budget task) in
        exists s' t' nw np nr,
          SubmitResult p (Some id) (Some (mkResult payload "" cost)) true s
          = (mkResponse StatusOK (ResultBody id TaskStatusCompleted), s')
          /\ tasks s' !! id = Some t'
          /\ Status t' = TaskStatusCompleted
          /\ OutputStatus t' = TaskOutputStatusSuccess
          /\ credit_ledger s'
             = credit_ledger s
               ++ settle_entries id (ag_AccountID ra) (ag_AccountID wa) (Budget task) e nw np nr
          /\ nw = balance s (ag_AccountID wa) + (e - e * 10 / 100)
          /\ (forall a, balance s' a
                        = balance s a
                          + credited (settle_entries id (ag_AccountID ra) (ag_AccountID wa)
                                                     (Budget task) e nw np nr) a)
          /\ 1 <= e - e * 10 / 100
          /\ balance s (ag_AccountID wa) + (e - e * 10 / 100) <= balance s' (ag_AccountID wa)).
Proof.
  split; [reflexivity|].
  intros p id payload cost s task ca ra wa Ht Hid Hdisp Hca Hwid Hra Hwa HB Hcost Hretry Hr Hw Hp e.
  destruct (SubmitResult_settles p id (mkResult payload "" cost) true s task ca ra wa)
    as (s' & nw & np & nr & Hres & Htasks & Hl & Hb & Hnw & He); try done; [by left|].
  destruct (worker_is_credited id (ag_AccountID ra) (ag_AccountID wa) (Budget task) e nw np nr He)
    as [Hearn Hpaid].
  eexists s', _, nw, np, nr.
  split; [exact Hres|]. split; [rewrite Htasks; apply lookup_insert_eq|].
  split; [done|]. split; [done|]. split; [exact Hl|]. split; [exact Hnw|].
  split; [exact Hb|]. split; [exact Hearn|].
  pose proof (Hb (ag_AccountID wa)) as Hbw. cbn [req_ActualCost] in Hbw. fold e in Hbw. lia.
Qed.

Lemma empty_output_status_is_success_witness :
  exists s',
    SubmitResult p200 (Some 7%N) (Some (mkResult "out" "" 80)) true (market TaskStatusInProgress)
    = (mkResponse StatusOK (ResultBody 7%N TaskStatusCompleted), s')
    /\ (Status <$> tasks s' !! 7%N) = Some TaskStatusCompleted
    /\ (OutputStatus <$> tasks s' !! 7%N) = Some TaskOutputStatusSuccess
    /\ balance (market TaskStatusInProgress) 20%N + 72 <= balance s' 20%N.
Proof.
  destruct (proj2 empty_output_status_is_success p200 7%N "out" 80 (market TaskStatusInProgress)
              (task7 TaskStatusInProgress) agent200 agent100 agent200)
    as (s' & t' & nw & np & nr & Hres & Ht' & Hst & Hos & _ & _ & _ & _ & Hpaid).
  - vm_compute; reflexivity.
  - reflexivity.
  - reflexivity.
  - reflexivity.
  - reflexivity.
  - vm_compute; reflexivity.
  - vm_compute; reflexivity.
  - simpl; lia.
  - simpl; lia.
  - reflexivity.
  - solve_room.
  - solve_room.
  - solve_room.
  - exists s'. split; [exact Hres|]. rewrite Ht'. simpl. rewrite Hst, Hos.
    split; [done|]. split; [done|]. exact Hpaid.
Defined.

(** ** The dispatcher *)

Lemma room_for_accounts s s' B id :
  accounts s' = accounts s -> room_for s B id -> room_for s' B id.
Proof.
  unfold room_for. intros Ha. rewrite (balance_accounts _ _ _ Ha). by rewrite Ha.
Qed.

Lemma agent_row_agents s s' id : agents s' = agents s -> agent_row s' id = agent_row s id.
Proof. unfold agent_row. by intros ->. Qed.

Section DispatcherFacts.

Variable url_parses : string -> bool.

Lemma refundAndFail_ok s0 task ra w :
  same_books s0 task w ->
  dispatch_ready s0 task ra ->
  in_int4 (RetryCount task) = true ->
  exists w',
    refundAndFail task w = (inr tt, w')
    /\ posts w' = posts w /\ watchers w' = watchers w
    /\ failed_and_refunded s0 task (ag_AccountID ra) w'.
Proof.
  intros (Hacc & Hag & Hled & [row Hrow]) (_ & Hac & Hpf & HB & Hra & Hroom) Hrc.
  unfold refundAndFail, on_pool.
  set (task' := set_output_status (set_status task TaskStatusFailed) TaskOutputStatusError).
  unfold bind at 1.
  erewrite (TaskRepo_Update_Some task' (store w) row); cycle 1.
  { unfold task_encodes, task'. cbn [Budget ActualCost PlatformFee RetryCount set_output_status set_status].
    rewrite Hac, Hpf, Hrc, !andb_true_r. apply in_int4_spec; lia. }
  { exact Hrow. }
  set (s1 := set_tasks _ (store w)).
  unfold bind at 1.
  rewrite (resolveAccountID_Some (RequesterAgentID task') s1 ra)
    by (rewrite (agent_row_agents s0 s1); done).
  assert (accounts s1 = accounts s0) as Hacc1 by done.
  destruct Hroom as (Hsome & Hlo & Hhi).
  destruct (SettleError_succeeds (ID task') (ag_AccountID ra) (Budget task') s1) as [s2 Hs2].
  { cbn. lia. }
  { by rewrite Hacc1. }
  { by rewrite (balance_accounts _ _ _ Hacc1). }
  { rewrite (balance_accounts _ _ _ Hacc1). exact Hhi. }
  unfold in_tx, RefundFailed. rewrite Hs2.
  apply SettleError_inr in Hs2 as [[Hneg _]|(_ & _ & Hb & Hl & Hk & _)]; [cbn in Hneg; lia|].
  eexists. split; [reflexivity|]. split; [done|]. split; [done|].
  unfold failed_and_refunded. cbn [store with_store].
  split; [|split].
  - exists (task_row task'). rewrite Hk. split; [|done].
    apply lookup_insert_eq.
  - rewrite Hb, N.eqb_refl, (balance_accounts _ _ _ Hacc1). done.
  - rewrite Hl, (balance_accounts _ _ _ Hacc1). by rewrite <- Hled.
Qed.

Lemma dispatch_ready_core s0 t t' ra :
  same_core t t' -> dispatch_ready s0 t ra -> dispatch_ready s0 t' ra.
Proof.
  unfold dispatch_ready. intros (Hid & Hreq & Hcap & Hin & Hb & Hac & Hpf).
  by rewrite Hreq, Hcap, Hin, Hb, Hac, Hpf.
Qed.

Lemma same_books_core s0 t t' w :
  same_core t t' -> same_books s0 t w -> same_books s0 t' w.
Proof. unfold same_books. intros (Hid & _). by rewrite Hid. Qed.

Lemma failed_and_refunded_core s0 t t' racc w :
  same_core t t' -> failed_and_refunded s0 t' racc w -> failed_and_refunded s0 t racc w.
Proof. unfold failed_and_refunded. intros (Hid & _ & _ & _ & Hb & _). by rewrite Hid, Hb. Qed.

Lemma task_encodes_core t t' :
  same_core t t' -> in_int4 (RetryCount t') = true ->
  fits_int4 (ActualCost t) = true -> fits_int4 (PlatformFee t) = true ->
  -2147483648 <= Budget t <= 2147483647 ->
  task_encodes t' = true.
Proof.
  intros (_ & _ & _ & _ & Hb & Hac & Hpf) Hrc Ha Hp HB. unfold task_encodes.
  rewrite Hb, Hac, Hpf, Ha, Hp, Hrc, !andb_true_r. by apply in_int4_spec.
Qed.

Lemma FindFallbacks_from_agents task excludeAgentID s :
  exists l, FindFallbacks task excludeAgentID s = (inr l, s)
            /\ forall a, a ∈ l -> a ∈ agents s.
Proof.
  destruct (FindAvailableWorkers_pool (CapabilityRequired task) s) as (workers & Hw & Hpool).
  unfold FindFallbacks, bind. rewrite Hw.
  destruct (buildCandidates workers task excludeAgentID) as [|c0 cs] eqn:Hcs.
  { exists []. split; [done|]. by intros a ?%elem_of_nil. }
  rewrite <- Hcs. eexists. split; [reflexivity|].
  intros a Ha. apply list_elem_of_In, in_map_iff in Ha as (c & <- & Hc).
  apply list_elem_of_In, firstn_elem_of, scoreAndSort_elem_of in Hc.
  apply buildCandidates_elem_of in Hc as (Hin & _). by apply Hpool.
Qed.

Lemma FindBestWorker_from_agents task s :
  exists r, FindBestWorker task s = (inr r, s)
            /\ forall a, r = Some a -> a ∈ agents s.
Proof.
  destruct (FindAvailableWorkers_pool (CapabilityRequired task) s) as (workers & Hw & Hpool).
  unfold FindBestWorker, bind. rewrite Hw.
  destruct (buildCandidates workers task uuid_Nil) as [|c0 cs] eqn:Hcs.
  { exists None. split; [done|]. by intros a ?. }
  rewrite <- Hcs. eexists. split; [reflexivity|].
  intros a Ha. destruct (head _) as [c|] eqn:Hhd; simpl in Ha; [|done].
  assert (a = agent c) as -> by congruence.
  apply head_elem_of, scoreAndSort_elem_of in Hhd.
  apply buildCandidates_elem_of in Hhd as (Hin & _). by apply Hpool.
Qed.

Lemma dispatchToWorker_cons a script task worker w :
  dispatchToWorker url_parses (a :: script) task worker w
  = match GetDeadline (CapabilityRequired task) (InputPayload task) with
    | inl e => Some (inl e, w)
    | inr deadlineDur =>
        let deadline := at_now a + deadlineDur in
        let task := set_dispatched task (ag_ID worker) deadline in
        match on_pool (TaskRepo_Update task) w with
        | (inl e, w) => Some (inl e, w)
        | (inr _, w) =>
            if negb (url_parses (EndpointURL worker)) then Some (inl ErrBadURL, w) else
            let w := mkWorld (store w)
                             (posts w ++ [mkPost (EndpointURL worker) (ID task)
                                                 (ag_ID worker) deadline])
                             (watchers w) in
            match at_result a with
            | TransportError =>
                dispatchWithFallback url_parses script task (ag_ID worker) w
            | Response code =>
                if negb (code =? 200) then
                  dispatchWithFallback url_parses script task (ag_ID worker) w
                else
                  let task := set_status task TaskStatusInProgress in
                  match on_pool (TaskRepo_Update task) w with
                  | (inl e, w) => Some (inl e, w)
                  | (inr _, w) =>
                      Some (inr tt,
                            mkWorld (store w) (posts w)
                                    (watchers w ++ [mkWatcher (ID task) (ag_ID worker) deadline]))
                  end
            end
        end
    end.
Proof. reflexivity. Qed.

Lemma on_pool_Update_ok t w old :
  task_encodes t = true -> tasks (store w) !! ID t = Some old ->
  on_pool (TaskRepo_Update t) w
  = (inr tt, with_store w (set_tasks (insert (ID t) (task_row t)) (store w))).
Proof.
  intros He Hl. unfold on_pool. by rewrite (TaskRepo_Update_Some _ _ _ He Hl).
Qed.

Lemma same_books_update s0 task t w :
  ID t = ID task -> same_books s0 task w ->
  same_books s0 task (with_store w (set_tasks (insert (ID t) (task_row t)) (store w))).
Proof.
  intros Hid (Ha & Hg & Hl & Hs). repeat split; try done.
  simpl. rewrite Hid, lookup_insert_eq. by eexists.
Qed.

Lemma same_core_trans t1 t2 t3 : same_core t1 t2 -> same_core t2 t3 -> same_core t1 t3.
Proof.
  intros (? & ? & ? & ? & ? & ? & ?) (? & ? & ? & ? & ? & ? & ?). repeat split; congruence.
Qed.

Lemma handed_to_worker_core s0 t t' n n1 k k1 w1 w w' :
  same_core t t' -> watchers w1 = watchers w ->
  (length (posts w1) + n1 <= length (posts w) + n)%nat ->
  k <= k1 ->
  handed_to_worker s0 t' n1 k1 w1 w' -> handed_to_worker s0 t n k w w'.
Proof.
  intros Hc Hw Hlen Hk
    ((row & wid & dl & Hrow & Hcr & Hst & Hwid & Hdl & Hwat & Hrc & Hkr & Hp) & Hrest).
  split; [|done]. exists row, wid, dl.
  pose proof Hc as (Hid & _). rewrite <- Hid, <- Hw.
  split; [done|]. split; [by eapply same_core_trans|].
  repeat split; try done; lia.
Qed.

Lemma run_ok_shift s0 task task' racc n n1 k k1 (R R1 : Prop) w w1 res :
  same_core task task' -> watchers w1 = watchers w ->
  (length (posts w1) + n1 <= length (posts w) + n)%nat ->
  k <= k1 ->
  (R -> R1) ->
  run_ok s0 task' racc n1 k1 R1 w1 res -> run_ok s0 task racc n k R w res.
Proof.
  intros Hcore Hw Hlen Hk HR (w' & Hres & Hposts & Hout & Href).
  exists w'. split; [done|]. split; [lia|]. split.
  - destruct Hout as [Hh|[Hf Hwf]].
    + left. by eapply handed_to_worker_core.
    + right. split; [by eapply failed_and_refunded_core|congruence].
  - intros HR'. destruct (Href (HR HR')) as [Hf Hwf].
    split; [by eapply failed_and_refunded_core|congruence].
Qed.

Lemma refund_run_ok s0 task ra n k (R : Prop) w :
  same_books s0 task w -> dispatch_ready s0 task ra ->
  in_int4 (RetryCount task) = true ->
  run_ok s0 task (ag_AccountID ra) n k R w (Some (refundAndFail task w)).
Proof.
  intros Hb Hr Hrc.
  destruct (refundAndFail_ok s0 task ra w Hb Hr Hrc) as (w' & -> & Hp & Hw & Hf).
  exists w'. split; [done|]. split; [rewrite Hp; lia|]. split; [by right|done].
Qed.

Lemma same_core_refl t : same_core t t.
Proof. by repeat split. Qed.

Lemma fallback_run s0 ra dispatch task failedAgentID w n (R : Prop) :
  same_books s0 task w -> dispatch_ready s0 task ra ->
  0 <= RetryCount task <= 2 ->
  (RetryCount task < 2 ->
   forall task' worker' w',
     same_core task task' -> RetryCount task' = RetryCount task + 1 ->
     same_books s0 task' w' -> worker' ∈ agents s0 ->
     watchers w' = watchers w -> posts w' = posts w ->
     run_ok s0 task' (ag_AccountID ra) n (RetryCount task') R w' (dispatch task' worker' w')) ->
  run_ok s0 task (ag_AccountID ra) n (RetryCount task + 1) R w
         (dispatchWithFallback_with dispatch task failedAgentID w).
Proof.
  intros Hbooks Hready Hrc Hrec. unfold dispatchWithFallback_with.
  unfold GoInt.add. rewrite wrap64_small by lia.
  set (t1 := set_retry_count task (RetryCount task + 1)).
  assert (same_core task t1) as Hc1 by (by repeat split).
  change (RetryCount t1) with (RetryCount task + 1).
  destruct (RetryCount task + 1 >? maxRetries) eqn:Hgt.
  { eapply (run_ok_shift _ _ t1 _ n n _ (RetryCount task + 1) R R w w);
      [done|done|lia|lia|done|].
    apply refund_run_ok.
    - by eapply same_books_core.
    - by eapply dispatch_ready_core.
    - apply in_int4_spec. cbn. lia. }
  unfold maxRetries in Hgt.
  set (t2 := set_status t1 TaskStatusMatching).
  assert (same_core task t2) as Hc2 by (by repeat split).
  destruct Hbooks as (Ha & Hg & Hl & [row Hrow]).
  pose proof Hready as (Hdur & Hac & Hpf & HB & Hra & Hroom).
  rewrite (on_pool_Update_ok t2 w row); [| |exact Hrow].
  2:{ eapply task_encodes_core; [exact Hc2| |done|done|lia].
      apply in_int4_spec. cbn. lia. }
  set (w3 := with_store w _).
  assert (same_books s0 task w3) as Hb3.
  { apply (same_books_update s0 task t2 w); [done|]. repeat split; try done; by eexists. }
  destruct (FindFallbacks_from_agents t2 failedAgentID (store w3)) as (l & Hl3 & Hin).
  unfold on_pool at 1. rewrite Hl3.
  assert (with_store w3 (store w3) = w3) as -> by (by destruct w3).
  destruct l as [|fb l].
  - eapply (run_ok_shift _ _ t2 _ n n _ (RetryCount task + 1) R R w w3);
      [done|done|simpl; lia|lia|done|].
    apply refund_run_ok.
    + by eapply same_books_core.
    + by eapply dispatch_ready_core.
    + apply in_int4_spec. cbn. lia.
  - eapply (run_ok_shift _ _ t2 _ n n _ (RetryCount t2) R R w w3);
      [done|done|simpl; lia|cbn; lia|done|].
    apply Hrec.
    + lia.
    + by repeat split.
    + done.
    + by eapply same_books_core.
    + destruct Hb3 as (_ & Hg3 & _). rewrite <- Hg3. apply Hin. by left.
    + done.
    + done.
Qed.

Lemma dispatchToWorker_run s0 ra script :
  (forall a, a ∈ agents s0 -> url_parses (EndpointURL a) = true) ->
  forall task worker w,
    same_books s0 task w -> dispatch_ready s0 task ra ->
    0 <= RetryCount task <= 2 ->
    worker ∈ agents s0 ->
    (3 - Z.to_nat (RetryCount task) <= length script)%nat ->
    run_ok s0 task (ag_AccountID ra) (3 - Z.to_nat (RetryCount task)) (RetryCount task)
           (all_refused script) w
           (dispatchToWorker url_parses script task worker w).
Proof.
  intros Hurl. induction script as [|a script IH]; intros task worker w Hbooks Hready Hrc Hworker Hlen.
  { simpl in Hlen. lia. }
  rewrite dispatchToWorker_cons.
  pose proof Hready as ([dur Hdur] & Hac & Hpf & HB & Hra & Hroom).
  rewrite Hdur. cbn zeta.
  set (t1 := set_dispatched task (ag_ID worker) (at_now a + dur)).
  assert (same_core task t1) as Hc1 by (by repeat split).
  pose proof Hbooks as (Ha & Hg & Hl & [row Hrow]).
  rewrite (on_pool_Update_ok t1 w row); [| |exact Hrow].
  2:{ eapply task_encodes_core; [exact Hc1| |done|done|lia]. apply in_int4_spec. cbn. lia. }
  rewrite (Hurl worker Hworker). cbn [negb].
  set (w1 := with_store w _).
  set (w2 := mkWorld (store w1) _ (watchers w1)).
  assert (same_books s0 task w2) as Hb2 by (by apply (same_books_update s0 task t1 w)).
  assert (run_ok s0 task (ag_AccountID ra) (3 - Z.to_nat (RetryCount task)) (RetryCount task)
                 (all_refused (a :: script)) w
                 (dispatchWithFallback url_parses script t1 (ag_ID worker) w2)) as Hfallback.
  { eapply (run_ok_shift _ _ t1 _ _ (3 - Z.to_nat (RetryCount task) - 1)
                          _ (RetryCount t1 + 1) _ (all_refused script) w w2).
    - done.
    - done.
    - unfold w2. cbn [posts]. rewrite length_app. simpl. lia.
    - cbn. lia.
    - intros HR. by apply Forall_inv_tail in HR.
    - apply fallback_run.
      + by eapply same_books_core.
      + by eapply dispatch_ready_core.
      + done.
      + intros Hlt task' worker' w' Hc' Hrc' Hb' Hw' _ _.
        change (RetryCount t1) with (RetryCount task) in *.
        replace (3 - Z.to_nat (RetryCount task) - 1)%nat
          with (3 - Z.to_nat (RetryCount task'))%nat by lia.
        apply IH; try done.
        * eapply dispatch_ready_core; [|exact Hready]. exact Hc'.
        * lia.
        * simpl in Hlen. lia. }
  destruct (at_result a) as [|code] eqn:Hres; [exact Hfallback|].
  destruct (code =? 200) eqn:Hcode; cbn [negb]; [|exact Hfallback].
  apply Z.eqb_eq in Hcode as ->.
  set (t2 := set_status t1 TaskStatusInProgress).
  destruct Hb2 as (Ha2 & Hg2 & Hl2 & [row2 Hrow2]).
  rewrite (on_pool_Update_ok t2 w2 row2); [| |exact Hrow2].
  2:{ eapply task_encodes_core; [|apply in_int4_spec; cbn; lia|done|done|lia]. by repeat split. }
  eexists. split; [reflexivity|]. split; [|split].
  - cbn [posts with_store w2]. rewrite length_app. simpl. lia.
  - left. split; [|done].
    exists (task_row t2), (ag_ID worker), (at_now a + dur).
    split; [apply lookup_insert_eq|]. split; [by repeat split|].
    repeat split; try done; cbn [RetryCount task_row t2 t1 set_status set_dispatched]; try lia.
    cbn [posts with_store w2]. rewrite length_app. simpl. lia.
  - intros HR. apply Forall_inv in HR. by rewrite Hres in HR.
Qed.

(** C7 (dispatch response), as the code has it.  After the task is
    recorded as dispatched and the POST is sent, a response with status 200
    advances the task to in_progress and starts one deadline watcher for
    the task, the worker and the recorded deadline; any other response
    status, and any transport error, is the fallback path. *)
Theorem dispatch_response a script task worker w dur row :
  GetDeadline (CapabilityRequired task) (InputPayload task) = inr dur ->
  task_encodes task = true ->
  tasks (store w) !! ID task = Some row ->
  url_parses (EndpointURL worker) = true ->
  let deadline := at_now a + dur in
  let t1 := set_dispatched task (ag_ID worker) deadline in
  let w2 := mkWorld (set_tasks (insert (ID task) (task_row t1)) (store w))
                    (posts w ++ [mkPost (EndpointURL worker) (ID task) (ag_ID worker) deadline])
                    (watchers w) in
  (at_result a = Response 200 ->
   dispatchToWorker url_parses (a :: script) task worker w
   = Some (inr tt,
           mkWorld (set_tasks (insert (ID task)
                                      (task_row (set_status t1 TaskStatusInProgress)))
                              (store w2))
                   (posts w2)
                   (watchers w ++ [mkWatcher (ID task) (ag_ID worker) deadline])))
  /\ (at_result a <> Response 200 ->
      dispatchToWorker url_parses (a :: script) task worker w
      = dispatchWithFallback url_parses script t1 (ag_ID worker) w2).
Proof.
  intros Hdur Henc Hrow Hurl deadline t1 w2.
  rewrite dispatchToWorker_cons, Hdur. cbn zeta. fold deadline. fold t1.
  rewrite (on_pool_Update_ok t1 w row); [|exact Henc|exact Hrow].
  rewrite Hurl. cbn [negb].
  split.
  - intros ->. cbn [Z.eqb Pos.eqb negb].
    match goal with
    | |- context [on_pool (TaskRepo_Update ?t) ?x] => change x with w2
    end.
    erewrite (on_pool_Update_ok (set_status t1 TaskStatusInProgress) w2);
      [reflexivity|exact Henc|].
    cbn. apply lookup_insert_eq.
  - intros Hne. destruct (at_result a) as [|code]; [reflexivity|].
    destruct (Z.eqb_spec code 200) as [->|Hc]; [done|reflexivity].
Qed.

Lemma DispatchTask_run script task ra w :
  (forall a, a ∈ agents (store w) -> url_parses (EndpointURL a) = true) ->
  is_Some (tasks (store w) !! ID task) ->
  dispatch_ready (store w) task ra ->
  RetryCount task = 0 ->
  (3 <= length script)%nat ->
  run_ok (store w) task (ag_AccountID ra) 3 0 (all_refused script) w
         (DispatchTask url_parses script task w).
Proof.
  intros Hurl Hrow Hready Hrc Hlen.
  assert (same_books (store w) task w) as Hbooks by done.
  unfold DispatchTask.
  destruct (FindBestWorker_from_agents task (store w)) as (r & Hr & Hin).
  unfold on_pool at 1. rewrite Hr.
  assert (with_store w (store w) = w) as -> by (by destruct w).
  destruct r as [worker|].
  - pose proof (dispatchToWorker_run (store w) ra script Hurl task worker w Hbooks Hready)
      as Hrun.
    rewrite Hrc in Hrun. apply Hrun; [lia|by apply Hin|simpl; lia].
  - unfold failNoWorker.
    apply (refund_run_ok (store w) task ra 3 0 (all_refused script) w Hbooks Hready).
    rewrite Hrc. reflexivity.
Qed.

Lemma monitorDeadline_run s0 ra script wt w row :
  (forall a, a ∈ agents s0 -> url_parses (EndpointURL a) = true) ->
  tasks (store w) !! w_task wt = Some row -> ID row = w_task wt ->
  Status row = TaskStatusInProgress ->
  accounts (store w) = accounts s0 -> agents (store w) = agents s0 ->
  credit_ledger (store w) = credit_ledger s0 ->
  dispatch_ready s0 row ra ->
  0 <= RetryCount row <= 2 ->
  (3 <= length script)%nat ->
  exists w',
    monitorDeadline url_parses script wt w = Some w'
    /\ run_ok s0 row (ag_AccountID ra) (2 - Z.to_nat (RetryCount row)) (RetryCount row + 1)
              (all_refused script) w (Some (inr tt, w')).
Proof.
  intros Hurl Hrow Hid Hst Ha Hg Hl Hready Hrc Hlen.
  unfold monitorDeadline. unfold on_pool at 1.
  rewrite (TaskRepo_GetByID_Some _ _ _ Hrow).
  assert (with_store w (store w) = w) as -> by (by destruct w).
  rewrite Hst.
  change (negb (TaskStatusInProgress =? TaskStatusInProgress)%string) with false. cbv iota.
  set (t1 := set_output_status (set_status row TaskStatusFailed) TaskOutputStatusError).
  assert (same_core row t1) as Hc1 by (by repeat split).
  pose proof Hready as (_ & Hac & Hpf & HB & _).
  rewrite (on_pool_Update_ok t1 w row); cycle 1.
  { eapply task_encodes_core; [exact Hc1| |done|done|lia]. apply in_int4_spec. cbn. lia. }
  { change (ID t1) with (ID row). by rewrite Hid. }
  set (w1 := with_store w _).
  assert (same_books s0 row w1) as Hb1.
  { apply (same_books_update s0 row t1 w); [done|]. repeat split; try done.
    rewrite Hid. by eexists. }
  assert (run_ok s0 row (ag_AccountID ra) (2 - Z.to_nat (RetryCount row)) (RetryCount row + 1)
                 (all_refused script) w
                 (dispatchWithFallback url_parses script t1 (w_worker wt) w1)) as Hrun.
  { eapply (run_ok_shift _ _ t1 _ _ (2 - Z.to_nat (RetryCount row)) _ (RetryCount t1 + 1)
                          _ (all_refused script) w w1); [done|done|simpl; lia|cbn; lia|done|].
    apply fallback_run.
    - by eapply same_books_core.
    - by eapply dispatch_ready_core.
    - done.
    - intros Hlt task' worker' w' Hc' Hrc' Hb' Hw' _ _.
      change (RetryCount t1) with (RetryCount row) in *.
      replace (2 - Z.to_nat (RetryCount row))%nat
        with (3 - Z.to_nat (RetryCount task'))%nat by lia.
      apply (dispatchToWorker_run s0 ra script Hurl); try done.
      + eapply dispatch_ready_core; [|exact Hready]. exact Hc'.
      + lia.
      + lia. }
  destruct Hrun as (w' & Hres & Hrest).
  rewrite Hres. exists w'. split; [done|]. exists w'. by split.
Qed.

Lemma expire_next_step s0 task ra script k w0 w :
  (forall a, a ∈ agents s0 -> url_parses (EndpointURL a) = true) ->
  watchers w0 = [] ->
  dispatch_ready s0 task ra ->
  (3 <= length script)%nat ->
  life_state s0 task (ag_AccountID ra) k w0 w ->
  exists w', expire_next url_parses script w = Some w'
             /\ life_state s0 task (ag_AccountID ra) (k + 1) w0 w'.
Proof.
  intros Hurl Hw0 Hready Hlen [Hposts [Hh|[Hf Hw]]].
  - destruct Hh as ((row & wid & dl & Hrow & Hcr & Hst & Hwid & Hdl & Hwat & Hrc & Hk & Hp)
                    & Ha & Hg & Hl).
    unfold expire_next. rewrite Hwat, Hw0. cbn [app].
    set (w_ := mkWorld (store w) (posts w) []).
    pose proof Hcr as (Hid & _).
    destruct (monitorDeadline_run s0 ra script (mkWatcher (ID task) wid dl) w_ row)
      as (w' & Hm & w'' & Hres & Hp' & Hout & _); try done.
    { by eapply dispatch_ready_core. }
    assert (w'' = w') as -> by congruence.
    exists w'. split; [exact Hm|]. split.
    + cbn [posts w_] in Hp'. lia.
    + destruct Hout as [Hh'|[Hf' Hw']].
      * left.
        eapply (handed_to_worker_core s0 task row 3 (2 - Z.to_nat (RetryCount row))
                                      (k + 1) (RetryCount row + 1) w_ w0 w');
          [done|by rewrite Hw0|cbn [posts w_]; lia|lia|exact Hh'].
      * right. split; [by eapply failed_and_refunded_core|]. by rewrite Hw', Hw0.
  - exists w. unfold expire_next. rewrite Hw, Hw0. split; [done|].
    split; [done|]. right. by rewrite Hw0 in *.
Qed.

Lemma expire_all_steps s0 task ra scripts :
  (forall a, a ∈ agents s0 -> url_parses (EndpointURL a) = true) ->
  dispatch_ready s0 task ra ->
  Forall (fun script => (3 <= length script)%nat) scripts ->
  forall k w0 w,
    watchers w0 = [] ->
    life_state s0 task (ag_AccountID ra) k w0 w ->
    exists w', expire_all url_parses scripts w = Some w'
               /\ life_state s0 task (ag_AccountID ra) (k + Z.of_nat (length scripts)) w0 w'.
Proof.
  intros Hurl Hready Hall. induction Hall as [|script scripts Hlen _ IH]; intros k w0 w Hw0 Hst.
  { exists w. split; [done|]. simpl. by rewrite Z.add_0_r. }
  destruct (expire_next_step s0 task ra script k w0 w Hurl Hw0 Hready Hlen Hst)
    as (w1 & Hn & Hst1).
  destruct (IH (k + 1) w0 w1 Hw0 Hst1) as (w' & Ha & Hst').
  exists w'. simpl expire_all. rewrite Hn. split; [done|].
  replace (k + Z.of_nat (length (script :: scripts)))
    with (k + 1 + Z.of_nat (length scripts)) by (simpl length; lia).
  done.
Qed.

(** X26.  The fallback bound, where every endpoint URL parses.  A freshly
    created task (retry count 0) of a known capability, whose requester
    account can take the budget back, in a store whose agents all have an
    endpoint URL that [http.NewRequestWithContext] accepts, is dispatched
    with at most 3 POSTs, whatever the workers answer; the run ends with
    the task either in progress with a worker or failed with the whole
    budget refunded to the requester's account; and when no attempt is
    answered 200 it ends failed and refunded.  The bound covers the deadlines too: when accepted
    dispatches are never called back and the watchers fire, at most 3 POSTs
    are made in the whole life of the task, and after the third deadline at
    the latest the task is failed and refunded. *)
Theorem fallback_bound script task ra w :
  (forall a, a ∈ agents (store w) -> url_parses (EndpointURL a) = true) ->
  is_Some (tasks (store w) !! ID task) ->
  dispatch_ready (store w) task ra ->
  RetryCount task = 0 ->
  (3 <= length script)%nat ->
  (exists w',
      DispatchTask url_parses script task w = Some (inr tt, w')
      /\ (length (posts w') <= length (posts w) + 3)%nat
      /\ (handed_to_worker (store w) task 3 0 w w'
          \/ (failed_and_refunded (store w) task (ag_AccountID ra) w'
              /\ watchers w' = watchers w))
      /\ (all_refused script ->
          failed_and_refunded (store w) task (ag_AccountID ra) w'
          /\ watchers w' = watchers w))
  /\ (forall scripts,
        watchers w = [] ->
        Forall (fun script => (3 <= length script)%nat) scripts ->
        exists w',
          silent_life url_parses script scripts task w = Some w'
          /\ (length (posts w') <= length (posts w) + 3)%nat
          /\ ((3 <= length scripts)%nat ->
              failed_and_refunded (store w) task (ag_AccountID ra) w'
              /\ watchers w' = [])).
Proof.
  intros Hurl Hrow Hready Hrc Hlen.
  pose proof (DispatchTask_run script task ra w Hurl Hrow Hready Hrc Hlen) as Hrun.
  split; [exact Hrun|].
  intros scripts Hw0 Hall.
  destruct Hrun as (w1 & Hres & Hposts & Hout & _).
  assert (life_state (store w) task (ag_AccountID ra) 0 w w1) as Hst by (by split).
  destruct (expire_all_steps (store w) task ra scripts Hurl Hready Hall 0 w w1 Hw0 Hst)
    as (w' & Ha & Hp' & Hout').
  exists w'. unfold silent_life. rewrite Hres. split; [exact Ha|]. split; [exact Hp'|].
  intros H3. destruct Hout' as [Hh|[Hf Hw']].
  - destruct Hh as ((row & wid & dl & _ & _ & _ & _ & _ & _ & Hr2 & Hk & _) & _). lia.
  - split; [done|]. by rewrite Hw', Hw0.
Qed.

End DispatcherFacts.

Lemma dispatch_response_witness :
  let w := world0 (market TaskStatusMatching) in
  let task := task7 TaskStatusMatching in
  let a := mkAttempt 10 (Response 200) in
  let deadline := at_now a + ResearchDeadlineStandard in
  let t1 := set_dispatched task (ag_ID agent200) deadline in
  let w2 := mkWorld (set_tasks (insert (ID task) (task_row t1)) (store w))
                    (posts w ++ [mkPost (EndpointURL agent200) (ID task) (ag_ID agent200) deadline])
                    (watchers w) in
  dispatchToWorker any_url [a] task agent200 w
  = Some (inr tt,
          mkWorld (set_tasks (insert (ID task) (task_row (set_status t1 TaskStatusInProgress)))
                             (store w2))
                  (posts w2)
                  (watchers w ++ [mkWatcher (ID task) (ag_ID agent200) deadline])).
Proof.
  apply (proj1 (dispatch_response any_url (mkAttempt 10 (Response 200)) []
                  (task7 TaskStatusMatching) agent200 (world0 (market TaskStatusMatching))
                  ResearchDeadlineStandard (task7 TaskStatusMatching)
                  eq_refl eq_refl eq_refl eq_refl)).
  reflexivity.
Defined.

(** C7 as stated fails: every worker answers 204, a 2xx status, and the
    task is never advanced to in_progress and no watcher is started; the
    dispatcher falls back twice and then fails the task. *)
Lemma status_204_takes_fallback :
  Forall (fun a => exists c, at_result a = Response c /\ 200 <= c < 300) script_204
  /\ exists w',
      dispatchToWorker any_url script_204 (task7 TaskStatusMatching) agent200
                       (world0 (market TaskStatusMatching))
      = Some (inr tt, w')
      /\ watchers w' = []
      /\ (Status <$> tasks (store w') !! 7%N) = Some TaskStatusFailed
      /\ length (posts w') = 3%nat.
Proof.
  split.
  - repeat constructor; eexists; (split; [reflexivity|lia]).
  - eexists. split; [vm_compute; reflexivity|]. repeat split.
Qed.

Lemma fallback_bound_witness :
  let w := world0 (market TaskStatusMatching) in
  let task := task7 TaskStatusMatching in
  (exists w',
      DispatchTask any_url script_500 task w = Some (inr tt, w')
      /\ (length (posts w') <= length (posts w) + 3)%nat
      /\ (handed_to_worker (store w) task 3 0 w w'
          \/ (failed_and_refunded (store w) task (ag_AccountID agent100) w'
              /\ watchers w' = watchers w))
      /\ (all_refused script_500 ->
          failed_and_refunded (store w) task (ag_AccountID agent100) w'
          /\ watchers w' = watchers w))
  /\ (forall scripts,
        watchers w = [] ->
        Forall (fun script => (3 <= length script)%nat) scripts ->
        exists w',
          silent_life any_url script_500 scripts task w = Some w'
          /\ (length (posts w') <= length (posts w) + 3)%nat
          /\ ((3 <= length scripts)%nat ->
              failed_and_refunded (store w) task (ag_AccountID agent100) w'
              /\ watchers w' = [])).
Proof.
  apply (fallback_bound any_url script_500 (task7 TaskStatusMatching) agent100
           (world0 (market TaskStatusMatching))).
  - reflexivity.
  - by eexists.
  - split; [by eexists|]. split; [reflexivity|]. split; [reflexivity|].
    split; [simpl; lia|]. split; [vm_compute; reflexivity|]. solve_room.
  - reflexivity.
  - simpl. lia.
Defined.

Lemma expire_all_idle url_parses scripts w :
  watchers w = [] -> expire_all url_parses scripts w = Some w.
Proof.
  intros Hw. induction scripts as [|script scripts IH]; [done|].
  simpl. unfold expire_next. by rewrite Hw.
Qed.

(** C6 (fallback bound), the code at the failing input.  Task 7 (budget
    100, locked from account 10) is dispatched in a marketplace whose only
    worker has the endpoint_url ":9000/run".  [dispatchToWorker] writes the
    task as dispatched, fails to build the request and returns the error:
    no POST is sent, no fallback is tried, no watcher is started and
    nothing is refunded.  No deadline ever fires for the task, so it stays
    dispatched with its budget locked, where the claim has it reach failed
    with a full refund within 3 attempts. *)
Lemma unparsed_url_strands_task :
  let task := task7 TaskStatusMatching in
  let w := world0 lone_worker_market in
  has_scheme (EndpointURL agent250) = false
  /\ exists w',
       DispatchTask has_scheme script_500 task w = Some (inl ErrBadURL, w')
       /\ posts w' = [] /\ watchers w' = []
       /\ (Status <$> tasks (store w') !! 7%N) = Some TaskStatusDispatched
       /\ (WorkerAgentID <$> tasks (store w') !! 7%N) = Some (Some 250%N)
       /\ balance (store w') 10%N = balance lone_worker_market 10%N
       /\ credit_ledger (store w') = [lock_entry 10 7 100 900]
       /\ (forall scripts, silent_life has_scheme script_500 scripts task w = Some w')
       /\ ~ failed_and_refunded lone_worker_market task 10%N w'.
Proof.
  intros task w. split; [reflexivity|].
  eexists. split; [vm_compute; reflexivity|].
  split; [reflexivity|]. split; [reflexivity|]. split; [vm_compute; reflexivity|].
  split; [vm_compute; reflexivity|]. split; [vm_compute; reflexivity|].
  split; [reflexivity|]. split.
  - intros scripts. unfold silent_life.
    match goal with
    | |- match ?d with _ => _ end = Some ?w' =>
        replace d with (Some (@inl error unit ErrBadURL, w')) by (vm_compute; reflexivity)
    end.
    by apply expire_all_idle.
  - intros ((row & Hrow & Hst & _) & _). vm_compute in Hrow. injection Hrow as <-.
    vm_compute in Hst. discriminate.
Qed.

(** * Further properties of the code *)

(** ** The escrow service, operation by operation *)

Lemma for_each_lock_missing ids s id :
  id ∈ ids -> accounts s !! id = None ->
  for_each GetByIDForUpdate ids s = (inl ErrNoRows, s).
Proof.
  intros Hin Hnone. induction ids as [|i ids IH]; [by apply elem_of_nil in Hin|].
  simpl. unfold bind. unfold GetByIDForUpdate at 1.
  destruct (accounts s !! i) as [a|] eqn:Hi; [|done].
  apply elem_of_cons in Hin as [->|Hin]; [congruence|]. by apply IH.
Qed.

Lemma SettleError_inl taskID requesterID budget s e s' :
  SettleError taskID requesterID budget s = (inl e, s') ->
  s' = s /\ 0 < budget
  /\ (accounts s !! requesterID = None -> e = ErrNoRows).
Proof.
  unfold SettleError. destruct (budget <=? 0) eqn:Hb; [discriminate|].
  unfold bind at 1. unfold GetByIDForUpdate at 1.
  destruct (accounts s !! requesterID) as [a|] eqn:Ha.
  2:{ intros H. simplify_eq. split; [done|split; [lia|done]]. }
  unfold bind at 1. destruct (AddCredits requesterID budget s) as [[e1|nb] s1] eqn:E1.
  { intros H. apply AddCredits_inl in E1. simplify_eq. split; [done|split; [lia|]].
    intros; congruence. }
  pose proof E1 as (_ & _ & _ & Hi & Hj & _)%AddCredits_effect.
  erewrite CreateTx_succeeds by done. discriminate.
Qed.

(** X1.  [RefundFailed] (that is, [SettleError]) refunds all or nothing.
    With a budget that is not positive it returns without error and without
    touching the store, whether or not the account exists.  Otherwise a
    return without error means that the requester's balance has grown by
    exactly the budget, no other balance has moved, and one refund entry
    with the new balance ends the ledger; and a return with an error means
    that the store is the one before the call, the error being
    [pgx.ErrNoRows] when there is no such account. *)
Theorem refund_all_or_nothing taskID requesterID budget s r s' :
  RefundFailed taskID requesterID budget s = (r, s') ->
  (budget <= 0 -> r = inr tt /\ s' = s)
  /\ (0 < budget -> r = inr tt ->
      (forall id, balance s' id
                  = balance s id + if (requesterID =? id)%N then budget else 0)
      /\ credit_ledger s'
         = credit_ledger s
           ++ [refund_entry requesterID taskID budget (balance s requesterID + budget)]
      /\ tasks s' = tasks s /\ agents s' = agents s)
  /\ (forall e, r = inl e ->
      s' = s /\ (accounts s !! requesterID = None -> e = ErrNoRows)).
Proof.
  unfold RefundFailed. intros H. split; [|split].
  - intros Hb. unfold SettleError in H.
    assert ((budget <=? 0) = true) as Hle by lia. rewrite Hle in H.
    unfold ret in H. by simplify_eq.
  - intros Hb ->.
    apply SettleError_inr in H as [[? _]|(_ & _ & Hbal & Hl & Hk & Hg)]; [lia|done].
  - intros e ->. apply SettleError_inl in H as (-> & _ & He). done.
Qed.

Lemma refund_all_or_nothing_witness :
  exists s',
    RefundFailed 7%N 10%N 100 demo_store = (inr tt, s')
    /\ balance s' 10%N = 1100 /\ balance s' 20%N = 200
    /\ credit_ledger s' = [refund_entry 10%N 7%N 100 1100].
Proof.
  eexists. split; [vm_compute; reflexivity|].
  match goal with |- context [balance ?s' _] => set (s1 := s') end.
  destruct (refund_all_or_nothing 7%N 10%N 100 demo_store (inr tt) s1) as (_ & H & _).
  { vm_compute; reflexivity. }
  destruct H as (Hb & Hl & _); [lia|done|].
  rewrite !Hb, Hl. by vm_compute.
Defined.

Lemma account_eta (a : Account) : mkAccount (CreditBalance a) (IsSystemAccount a) = a.
Proof. by destruct a. Qed.

(** X2.  Locking a positive amount and then refunding it is a round trip on
    the accounts table: after [LockCredits] and [RefundFailed] for the same
    account and amount every account row is as it was (balances are values
    of an INT column), and the ledger has grown by the lock entry and the
    refund entry, the latter recording the original balance. *)
Theorem lock_then_refund_restores accountID taskID amount s s1 :
  0 < amount ->
  in_int4 (balance s accountID) = true ->
  LockCredits accountID taskID amount s = (inr tt, s1) ->
  exists s2,
    RefundFailed taskID accountID amount s1 = (inr tt, s2)
    /\ accounts s2 = accounts s
    /\ credit_ledger s2
       = credit_ledger s
         ++ [lock_entry accountID taskID amount (balance s accountID - amount);
             refund_entry accountID taskID amount (balance s accountID)]
    /\ tasks s2 = tasks s /\ agents s2 = agents s.
Proof.
  intros Hpos Hint H. rewrite LockCredits_cases in H. unfold balance in *.
  destruct (accounts s !! accountID) as [acc|] eqn:Hacc; [|discriminate].
  destruct (CreditBalance acc <? amount) eqn:Hlt; [discriminate|].
  destruct (in_int4 amount && in_int4 (CreditBalance acc - amount)) eqn:Hr; [|discriminate].
  apply andb_prop in Hr as [Ha Hd]. apply Z.ltb_ge in Hlt.
  injection H as <-.
  unfold RefundFailed, SettleError.
  assert ((amount <=? 0) = false) as -> by lia.
  unfold bind at 1. unfold GetByIDForUpdate at 1. simpl.
  rewrite lookup_insert_eq.
  unfold bind at 1. unfold AddCredits. rewrite Ha. simpl. rewrite lookup_insert_eq. simpl.
  replace (CreditBalance acc - amount + amount) with (CreditBalance acc) by lia.
  rewrite Hint. unfold CreateTx. simpl. rewrite Ha, Hint. simpl.
  eexists. split; [reflexivity|]. simpl. repeat split.
  - rewrite insert_insert_eq, account_eta. by apply insert_id.
  - by rewrite <- app_assoc.
Qed.

Lemma lock_then_refund_restores_witness :
  exists s1 s2,
    LockCredits 10%N 7%N 100 demo_store = (inr tt, s1)
    /\ RefundFailed 7%N 10%N 100 s1 = (inr tt, s2)
    /\ accounts s2 = accounts demo_store
    /\ credit_ledger s2 = [lock_entry 10%N 7%N 100 900; refund_entry 10%N 7%N 100 1000].
Proof.
  eexists.
  destruct (lock_then_refund_restores 10%N 7%N 100 demo_store
              (LockCredits 10%N 7%N 100 demo_store).2) as (s2 & H2 & Ha & Hl & _).
  - lia.
  - vm_compute; reflexivity.
  - vm_compute; reflexivity.
  - exists s2. split; [vm_compute; reflexivity|]. split; [exact H2|]. split; [exact Ha|].
    rewrite Hl. reflexivity.
Defined.

Lemma LockCredits_inr accountID taskID amount s u s1 :
  LockCredits accountID taskID amount s = (inr u, s1) ->
  amount <= balance s accountID
  /\ is_Some (accounts s !! accountID)
  /\ in_int4 amount = true /\ in_int4 (balance s accountID - amount) = true
  /\ total_credits s1 = total_credits s - amount
  /\ (forall id, balance s1 id = balance s id - if (accountID =? id)%N then amount else 0)
  /\ (forall id, is_Some (accounts s1 !! id) <-> is_Some (accounts s !! id))
  /\ credit_ledger s1
     = credit_ledger s ++ [lock_entry accountID taskID amount (balance s accountID - amount)]
  /\ tasks s1 = tasks s /\ agents s1 = agents s.
Proof.
  intros H. rewrite LockCredits_cases in H.
  destruct (accounts s !! accountID) as [acc|] eqn:Hacc; [|discriminate].
  assert (balance s accountID = CreditBalance acc) as Hbal
      by (unfold balance; by rewrite Hacc).
  destruct (CreditBalance acc <? amount) eqn:Hlt; [discriminate|].
  destruct (in_int4 amount && in_int4 (CreditBalance acc - amount)) eqn:Hr; [|discriminate].
  apply andb_prop in Hr as [Ha Hd]. apply Z.ltb_ge in Hlt.
  injection H as H. subst s1. rewrite Hbal.
  assert (forall id,
             is_Some (<[accountID := mkAccount (CreditBalance acc - amount)
                                               (IsSystemAccount acc)]> (accounts s) !! id)
             <-> is_Some (accounts s !! id)) as Hdom.
  { intros id. destruct (decide (accountID = id)) as [<-|Hne].
    - rewrite lookup_insert_eq, Hacc. by split.
    - by rewrite lookup_insert_ne. }
  split; [lia|]. split; [done|]. split; [done|]. split; [done|].
  split. { rewrite total_credits_ledger, (total_credits_update _ _ acc) by done. lia. }
  split. { intros id. rewrite balance_ledger, balance_update.
           destruct (accountID =? id)%N eqn:E; [|lia].
           apply N.eqb_eq in E as <-. lia. }
  split; [exact Hdom|]. done.
Qed.

Lemma room_after_lock s s1 accountID amount B id :
  (forall id, balance s1 id = balance s id - if (accountID =? id)%N then amount else 0) ->
  (forall id, is_Some (accounts s1 !! id) <-> is_Some (accounts s !! id)) ->
  id <> accountID -> room_for s B id -> room_for s1 B id.
Proof.
  intros Hb Hd Hne (Hs & Hlo & Hhi). split; [by apply Hd|]. rewrite Hb.
  assert ((accountID =? id)%N = false) as -> by (apply N.eqb_neq; congruence). lia.
Qed.

(** X3.  A lock followed by a settlement within the budget moves credits
    between accounts without creating or destroying any.  After
    [LockCredits] of the budget [B] on the requester's account and
    [SettleTask] at a cost [C] with [1 <= C <= B], for a worker account and
    a platform account that exist and can take the credits, the sum of all
    balances is what it was before the lock; the requester has paid exactly
    [C], the worker has received [C - floor(C*10/100)] and the platform
    [floor(C*10/100)]. *)
Theorem lock_then_settle_conserves requesterID workerID taskID B C s s1 :
  1 <= C <= B -> B <= 2147483647 ->
  requesterID <> workerID -> requesterID <> SystemPlatformAccountID ->
  workerID <> SystemPlatformAccountID ->
  in_int4 (balance s requesterID) = true ->
  room_for s B workerID -> room_for s B SystemPlatformAccountID ->
  LockCredits requesterID taskID B s = (inr tt, s1) ->
  exists s2,
    SettleTask taskID requesterID workerID B C s1 = (inr tt, s2)
    /\ total_credits s2 = total_credits s
    /\ balance s2 requesterID = balance s requesterID - C
    /\ balance s2 workerID = balance s workerID + (C - C * 10 / 100)
    /\ balance s2 SystemPlatformAccountID = balance s SystemPlatformAccountID + C * 10 / 100.
Proof.
  intros HC HB Hrw Hrp Hwp Hint Hw Hp Hlock.
  apply LockCredits_inr in Hlock as (Hle & Hsome & Ha & Hd & Ht & Hb & Hdom & Hl & _).
  apply in_int4_spec in Hint, Hd.
  destruct (SettleTask_succeeds taskID requesterID workerID B C s1) as [s2 H2]; [lia|lia|..].
  { split; [by apply Hdom|]. rewrite Hb, N.eqb_refl. lia. }
  { by apply (room_after_lock s s1 requesterID B). }
  { by apply (room_after_lock s s1 requesterID B). }
  exists s2. split; [done|].
  assert (0 <= C <= B) as HC0 by lia.
  destruct (SettleTask_inr _ _ _ _ _ _ _ _ HC0 HB H2) as (nw & np & nr & _ & Ht2 & Hb2 & _).
  split; [lia|].
  assert ((requesterID =? workerID)%N = false) as Hxw by (by apply N.eqb_neq).
  assert ((requesterID =? SystemPlatformAccountID)%N = false) as Hx by (by apply N.eqb_neq).
  assert ((workerID =? requesterID)%N = false) as Hy by (apply N.eqb_neq; congruence).
  assert ((SystemPlatformAccountID =? requesterID)%N = false) as Hz
      by (apply N.eqb_neq; congruence).
  assert ((workerID =? SystemPlatformAccountID)%N = false) as Hv by (by apply N.eqb_neq).
  assert ((SystemPlatformAccountID =? workerID)%N = false) as Hu
      by (apply N.eqb_neq; congruence).
  rewrite !Hb2, !Hb.
  unfold settle_entries, credited, earning_entry, fee_entry, release_entry.
  destruct (B - C >? 0) eqn:Hrem;
    cbn [fold_right app AccountID Amount];
    rewrite ?Hxw, ?Hx, ?Hy, ?Hz, ?Hv, ?Hu, ?N.eqb_refl; repeat split; lia.
Qed.

Lemma lock_then_settle_conserves_witness :
  exists s1 s2,
    LockCredits 10%N 7%N 100 demo_store = (inr tt, s1)
    /\ SettleTask 7%N 10%N 20%N 100 80 s1 = (inr tt, s2)
    /\ total_credits s2 = total_credits demo_store
    /\ balance s2 10%N = 920 /\ balance s2 20%N = 272
    /\ balance s2 SystemPlatformAccountID = 8.
Proof.
  eexists.
  destruct (lock_then_settle_conserves 10%N 20%N 7%N 100 80 demo_store
              (LockCredits 10%N 7%N 100 demo_store).2)
    as (s2 & H2 & Ht & Hr & Hw & Hp);
    [lia|lia|done|done|done|reflexivity|solve_room|solve_room|vm_compute; reflexivity|].
  exists s2. split; [vm_compute; reflexivity|]. split; [exact H2|]. split; [exact Ht|].
  rewrite Hr, Hw, Hp. by vm_compute.
Defined.

(** X4.  A settlement touches no balance unless all three accounts exist:
    [SettleTask] first locks the requester's, the worker's and the platform's
    rows, and when one of them is missing it returns [pgx.ErrNoRows] with
    the store as it was, whatever the budget and the cost. *)
Theorem settle_needs_all_accounts taskID requesterID workerID B C s id :
  id ∈ [requesterID; workerID; SystemPlatformAccountID] ->
  accounts s !! id = None ->
  SettleTask taskID requesterID workerID B C s = (inl ErrNoRows, s).
Proof.
  intros Hin Hnone. unfold SettleTask. unfold bind at 1.
  rewrite (for_each_lock_missing _ s id); [done| |done].
  by apply sort_ids_elem_of.
Qed.

Lemma settle_needs_all_accounts_witness :
  SettleTask 7%N 10%N 30%N 100 80 demo_store = (inl ErrNoRows, demo_store).
Proof.
  apply (settle_needs_all_accounts 7%N 10%N 30%N 100 80 demo_store 30%N).
  - set_solver.
  - reflexivity.
Defined.

Lemma over_budget_amounts B C :
  0 <= B < C -> C <= 2147483647 ->
  GoInt.div (GoInt.mul C 10) 100 = C * 10 / 100
  /\ GoInt.sub C (C * 10 / 100) = C - C * 10 / 100
  /\ GoInt.sub B C = B - C.
Proof.
  intros HC HB. assert (0 <= C) as HC0 by lia. pose proof (fee_bounds C HC0) as Hfee.
  repeat split.
  - apply platform_fee_small. lia.
  - apply wrap64_small. lia.
  - apply wrap64_small. lia.
Qed.

(** X5.  [SettleTask] floors the remainder at zero, not the cost at the
    budget.  For a cost [C] above the budget [B] a settlement that returns
    without error has paid out the whole cost: the ledger has grown by the
    worker's earning [C - floor(C*10/100)] and the platform's fee
    [floor(C*10/100)] and by no escrow_release entry, the sum of all
    balances has grown by [C] (more than the [B] that was locked), and a
    requester who is neither the worker nor the platform gets nothing
    back.  It does return without error when the requester's account
    exists and the worker's and the platform's can take the credits. *)
Theorem settle_over_budget_pays_cost taskID requesterID workerID B C s :
  0 <= B < C -> C <= 2147483647 ->
  (forall s',
      SettleTask taskID requesterID workerID B C s = (inr tt, s') ->
      exists nw np,
        credit_ledger s'
        = credit_ledger s ++ [earning_entry workerID taskID (C - C * 10 / 100) nw;
                              fee_entry taskID (C * 10 / 100) np]
        /\ total_credits s' = total_credits s + C
        /\ (requesterID <> workerID -> requesterID <> SystemPlatformAccountID ->
            balance s' requesterID = balance s requesterID))
  /\ (is_Some (accounts s !! requesterID) ->
      room_for s C workerID -> room_for s C SystemPlatformAccountID ->
      exists s', SettleTask taskID requesterID workerID B C s = (inr tt, s')).
Proof.
  intros HC HB. assert (0 <= C) as HC0 by lia. pose proof (fee_bounds C HC0) as Hfee.
  assert ((if B - C <? 0 then 0 else B - C) = 0) as Hrem
      by (destruct (B - C <? 0) eqn:?; lia).
  split.
  - intros s' H. unfold SettleTask in H.
    destruct (over_budget_amounts B C HC HB) as (-> & -> & ->) in H.
    rewrite Hrem in H. change (0 >? 0) with false in H. cbv iota in H.
    bind_inr H u0 s0 E0.
    pose proof (for_each_lock_store
                  (sort_ids [requesterID; workerID; SystemPlatformAccountID]) s) as Hs0.
    rewrite E0 in Hs0. simpl in Hs0. subst s0.
    bind_inr H nw s1 E1.
    apply AddCredits_effect in E1 as (Ht1 & Hb1 & Hnw & _ & _ & Hl1 & _).
    bind_inr H u2 s2 E2. apply CreateTx_effect in E2 as (Ha2 & Hl2 & _).
    bind_inr H np s3 E3.
    apply AddCredits_effect in E3 as (Ht3 & Hb3 & Hnp & _ & _ & Hl3 & _).
    bind_inr H u4 s4 E4. apply CreateTx_effect in E4 as (Ha4 & Hl4 & _).
    unfold ret in H. assert (s' = s4) as -> by congruence.
    exists nw, np. split; [|split].
    + rewrite Hl4, Hl3, Hl2, Hl1. by rewrite <- app_assoc.
    + rewrite (total_credits_accounts _ _ Ha4), Ht3, (total_credits_accounts _ _ Ha2), Ht1.
      lia.
    + intros Hrw Hrp.
      rewrite (balance_accounts _ _ _ Ha4), Hb3, (balance_accounts _ _ _ Ha2), Hb1.
      assert ((workerID =? requesterID)%N = false) as -> by (apply N.eqb_neq; congruence).
      assert ((SystemPlatformAccountID =? requesterID)%N = false) as ->
          by (apply N.eqb_neq; congruence).
      lia.
  - intros Hr (Hw & Hw1 & Hw2) (Hp & Hp1 & Hp2). unfold SettleTask.
    destruct (over_budget_amounts B C HC HB) as (-> & -> & ->).
    rewrite Hrem. change (0 >? 0) with false. cbv iota.
    unfold bind at 1. rewrite for_each_lock_ok; cycle 1.
    { intros id Hin. apply (proj1 (sort_ids_elem_of _ _)) in Hin.
      rewrite !elem_of_cons, elem_of_nil in Hin.
      destruct Hin as [->|[->|[->|[]]]]; done. }
    destruct (AddCredits_succeeds workerID (C - C * 10 / 100) s) as (nw & s1 & E1);
      [done|lia|lia|].
    unfold bind at 1. rewrite E1.
    pose proof E1 as (Ht1 & Hb1 & Hnw & Hi1 & Hj1 & Hl1 & Hk1 & Hg1 & Hd1)%AddCredits_effect.
    unfold bind at 1. erewrite CreateTx_succeeds by done.
    set (s2 := set_credit_ledger _ s1).
    assert (forall id, balance s2 id = balance s1 id) as Hb2 by done.
    assert (forall id, is_Some (accounts s2 !! id) <-> is_Some (accounts s !! id)) as Hd2
        by (intros id; apply Hd1).
    destruct (AddCredits_succeeds SystemPlatformAccountID (C * 10 / 100) s2) as (np & s3 & E3).
    { by apply Hd2. }
    { lia. }
    { rewrite Hb2, Hb1. destruct (workerID =? SystemPlatformAccountID)%N; lia. }
    unfold bind at 1. rewrite E3.
    pose proof E3 as (_ & _ & _ & Hi3 & Hj3 & _)%AddCredits_effect.
    unfold bind at 1. erewrite CreateTx_succeeds by done. by eexists.
Qed.

Lemma settle_over_budget_pays_cost_witness :
  exists s',
    SettleTask 7%N 10%N 20%N 100 150 demo_store = (inr tt, s')
    /\ total_credits s' = total_credits demo_store + 150
    /\ balance s' 10%N = balance demo_store 10%N.
Proof.
  destruct (settle_over_budget_pays_cost 7%N 10%N 20%N 100 150 demo_store) as [Hinv Hex];
    [lia|lia|].
  destruct Hex as [s' H]; [by eexists|solve_room|solve_room|].
  exists s'. split; [exact H|].
  destruct (Hinv s' H) as (nw & np & _ & Ht & Hb). split; [exact Ht|]. by apply Hb.
Defined.

(** ** The matchmaker: who is found *)

Lemma filter_filter_andb {A} (f g : A -> bool) l :
  List.filter g (List.filter f l) = List.filter (fun a => f a && g a) l.
Proof.
  induction l as [|x l IH]; [done|]. simpl.
  destruct (f x); simpl; [|done]. destruct (g x); by rewrite IH.
Qed.

(** The agents of the candidates are the workers that pass the two tests of
    the loop, in the order of the workers. *)
Lemma buildCandidates_agents workers task excludeID :
  List.map agent (buildCandidates workers task excludeID)
  = List.filter (fun a => negb (ag_ID a =? excludeID)%N
                          && (price_for task a <=? Budget task)) workers.
Proof.
  induction workers as [|ag rest IH]; [done|]. simpl. unfold price_for at 1.
  destruct (ag_ID ag =? excludeID)%N; simpl; [done|].
  destruct (Z.gtb_spec (getPricingPerTask (CapabilitiesOffered ag) (CapabilityRequired task))
                       (Budget task)) as [Hgt|Hle].
  - assert ((getPricingPerTask (CapabilitiesOffered ag) (CapabilityRequired task)
             <=? Budget task) = false) as -> by lia. done.
  - assert ((getPricingPerTask (CapabilitiesOffered ag) (CapabilityRequired task)
             <=? Budget task) = true) as -> by lia. simpl. by rewrite IH.
Qed.

Lemma candidates_of_store task excludeID s :
  List.map agent (buildCandidates (List.filter (available_worker s (CapabilityRequired task))
                                               (agents s)) task excludeID)
  = List.filter (eligible s task excludeID) (agents s).
Proof.
  rewrite buildCandidates_agents, filter_filter_andb.
  apply List.filter_ext. intros a. unfold eligible, price_for. by rewrite andb_assoc.
Qed.

Lemma buildCandidates_fields workers task excludeID c :
  c ∈ buildCandidates workers task excludeID ->
  pricingPerTask c = price_for task (agent c) /\ avgResponseMs c = response_ms (agent c).
Proof.
  induction workers as [|ag rest IH]; simpl; [by intros ?%elem_of_nil|].
  destruct (ag_ID ag =? excludeID)%N; [done|].
  destruct (getPricingPerTask (CapabilitiesOffered ag) (CapabilityRequired task) >? Budget task);
    [done|].
  rewrite elem_of_cons. intros [->|Hc]; [done|by apply IH].
Qed.

Lemma FindBestWorker_eligible task s :
  exists r, FindBestWorker task s = (inr r, s)
            /\ (r = None <-> List.filter (eligible s task uuid_Nil) (agents s) = [])
            /\ (forall a, r = Some a -> a ∈ List.filter (eligible s task uuid_Nil) (agents s)).
Proof.
  unfold FindBestWorker, bind, FindAvailableWorkers.
  pose proof (candidates_of_store task uuid_Nil s) as Hc.
  set (cands := buildCandidates _ task uuid_Nil) in *.
  pose proof (scoreAndSort_Permutation cands task) as Hp.
  destruct cands as [|c0 cs] eqn:Hcs.
  { exists None. simpl in Hc. rewrite <- Hc. split; [done|]. split; [done|]. intros; congruence. }
  rewrite <- Hcs in *. clearbody cands.
  destruct (scoreAndSort cands task) as [|c sorted] eqn:Hs.
  { apply Permutation_nil_l in Hp. congruence. }
  exists (Some (agent c)). split; [done|]. split.
  - split; [congruence|]. rewrite <- Hc, Hcs. discriminate.
  - intros a [= <-]. rewrite <- Hc. apply list_elem_of_In, in_map, list_elem_of_In.
    rewrite <- Hp. by left.
Qed.

Lemma FindFallbacks_eligible task excludeAgentID s :
  exists l, FindFallbacks task excludeAgentID s = (inr l, s)
            /\ length l
               = Nat.min 2 (length (List.filter (eligible s task excludeAgentID) (agents s)))
            /\ (forall a, a ∈ l -> a ∈ List.filter (eligible s task excludeAgentID) (agents s))
            /\ (NoDup (agents s) -> NoDup l).
Proof.
  unfold FindFallbacks, bind, FindAvailableWorkers.
  pose proof (candidates_of_store task excludeAgentID s) as Hc.
  set (cands := buildCandidates _ task excludeAgentID) in *.
  pose proof (scoreAndSort_Permutation cands task) as Hp.
  destruct cands as [|c0 cs] eqn:Hcs.
  { exists []. simpl in Hc. rewrite <- Hc. split; [done|]. split; [done|].
    split; [by intros a ?%elem_of_nil|]. intros; constructor. }
  rewrite <- Hcs in *. clearbody cands.
  exists (List.map agent (firstn 2 (scoreAndSort cands task))).
  split; [done|]. rewrite <- Hc.
  assert (List.map agent (scoreAndSort cands task) ≡ₚ List.map agent cands) as Hpm
      by (by apply Permutation_map).
  rewrite <- firstn_map. split; [|split].
  - rewrite length_take, !length_map. by rewrite Hp.
  - intros a Ha. rewrite <- Hpm. by eapply firstn_elem_of.
  - intros Hnd. eapply sublist_NoDup; [|apply sublist_take].
    rewrite Hpm, Hc. by apply NoDup_ListNoDup, List.NoDup_filter, NoDup_ListNoDup.
Qed.

(** X6.  The matchmaker finds a worker exactly when one is eligible.  Call
    an agent eligible when it is in the worker pool of the task's
    capability, is not the excluded agent and is priced within the budget.
    [FindBestWorker] (which excludes [uuid.Nil]) returns nil when no agent
    is eligible and an eligible agent otherwise; [FindFallbacks] returns
    eligible agents, as many as there are up to two, and never the same
    agent row twice. *)
Theorem matcher_finds_the_eligible task s :
  (exists r, FindBestWorker task s = (inr r, s)
             /\ (r = None <-> List.filter (eligible s task uuid_Nil) (agents s) = [])
             /\ (forall a, r = Some a -> a ∈ List.filter (eligible s task uuid_Nil) (agents s)))
  /\ (forall excludeAgentID,
        exists l, FindFallbacks task excludeAgentID s = (inr l, s)
                  /\ length l
                     = Nat.min 2 (length (List.filter (eligible s task excludeAgentID)
                                                      (agents s)))
                  /\ (forall a, a ∈ l ->
                                a ∈ List.filter (eligible s task excludeAgentID) (agents s))
                  /\ (NoDup (agents s) -> NoDup l)).
Proof.
  split.
  - apply FindBestWorker_eligible.
  - intros excludeAgentID. apply FindFallbacks_eligible.
Qed.

(** ** [sort.Slice] with a comparison of keys sorts *)

Section SliceSorted.
Context {A : Type} (key : A -> Z).

Lemma swap_adjacent (p : list A) y x r :
  Sort.swap (p ++ y :: x :: r) (S (length p)) (length p) = p ++ x :: y :: r.
Proof.
  unfold Sort.swap.
  rewrite (lookup_app_r p _ (S (length p))) by lia.
  rewrite (lookup_app_r p _ (length p)) by lia.
  replace (S (length p) - length p)%nat with 1%nat by lia.
  replace (length p - length p)%nat with 0%nat by lia. simpl.
  rewrite (insert_app_r_alt p _ (length p)) by lia.
  replace (length p - length p)%nat with 0%nat by lia. simpl.
  rewrite (insert_app_r_alt p _ (S (length p))) by lia.
  replace (S (length p) - length p)%nat with 1%nat by lia. done.
Qed.

(** One pass of the inner loop puts the element after a sorted prefix into
    its place. *)
Lemma sift_inserts (p : list A) x r :
  StronglySorted (le_key key) p ->
  exists p', Sort.sift (less_key key) (length p) (p ++ x :: r) = p' ++ r
             /\ p' ≡ₚ p ++ [x] /\ StronglySorted (le_key key) p'.
Proof.
  revert r. induction p as [|y p0 IH] using rev_ind; intros r Hsorted.
  { exists [x]. repeat split; [done|]. repeat constructor. }
  apply StronglySorted_app in Hsorted as (Hle & Hs0 & _).
  rewrite length_app. simpl. rewrite Nat.add_1_r. simpl.
  rewrite <- app_assoc. simpl.
  assert ((less_key key) (p0 ++ y :: x :: r) (S (length p0)) (length p0) = (key x <? key y)) as ->.
  { unfold less_key. rewrite (lookup_app_r p0 _ (S (length p0))) by lia.
    rewrite (lookup_app_r p0 _ (length p0)) by lia.
    replace (S (length p0) - length p0)%nat with 1%nat by lia.
    by replace (length p0 - length p0)%nat with 0%nat by lia. }
  assert (StronglySorted (le_key key) [y]) as Hy by (repeat constructor).
  assert (StronglySorted (le_key key) [x]) as Hx by (repeat constructor).
  destruct (Z.ltb_spec (key x) (key y)) as [Hlt|Hge].
  - rewrite swap_adjacent. destruct (IH (y :: r) Hs0) as (p0' & -> & Hp & Hs).
    exists (p0' ++ [y]). split; [by rewrite <- app_assoc|]. split.
    + rewrite Hp. rewrite <- !app_assoc. apply Permutation_app_head, Permutation_swap.
    + apply StronglySorted_app. split; [|done].
      intros a b Ha ->%list_elem_of_singleton. rewrite Hp in Ha.
      apply elem_of_app in Ha as [Ha| ->%list_elem_of_singleton].
      * apply Hle; [done|]. by apply list_elem_of_singleton.
      * unfold le_key. lia.
  - exists ((p0 ++ [y]) ++ [x]). split; [by rewrite <- !app_assoc|]. split; [done|].
    apply StronglySorted_app. split.
    2:{ split; [|done]. by apply StronglySorted_app. }
    intros a b Ha ->%list_elem_of_singleton.
    apply elem_of_app in Ha as [Ha| ->%list_elem_of_singleton].
    + assert ((le_key key) a y) as Hay by (apply Hle; [done|by apply list_elem_of_singleton]).
      unfold le_key in *. lia.
    + unfold le_key. lia.
Qed.

Lemma Slice_prefix_sorted (l : list A) n :
  (S n <= length l)%nat ->
  exists p, fold_left (fun acc i => Sort.sift (less_key key) i acc) (seq 1 n) l = p ++ drop (S n) l
            /\ length p = S n /\ StronglySorted (le_key key) p.
Proof.
  induction n as [|n IH]; intros Hn.
  - destruct l as [|x l]; [simpl in Hn; lia|].
    exists [x]. simpl. rewrite drop_0. repeat split. repeat constructor.
  - destruct IH as (p & Hp & Hlen & Hs); [lia|].
    rewrite seq_S, fold_left_app, Hp. cbn [fold_left]. change (1 + n)%nat with (S n).
    destruct (lookup_lt_is_Some_2 l (S n)) as [x Hx]; [lia|].
    rewrite (drop_S _ _ _ Hx).
    destruct (sift_inserts p x (drop (S (S n)) l) Hs) as (p' & Hsift & Hperm & Hs').
    rewrite Hlen in Hsift. rewrite Hsift.
    exists p'. repeat split; [|done].
    rewrite Hperm, length_app, Hlen. simpl. lia.
Qed.

Lemma Slice_sorted (l : list A) : StronglySorted (le_key key) (Sort.Slice (less_key key) l).
Proof.
  unfold Sort.Slice. destruct l as [|x l]; [constructor|].
  destruct (Slice_prefix_sorted (x :: l) (length (x :: l) - 1)) as (p & -> & _ & Hs).
  { simpl. lia. }
  replace (S (length (x :: l) - 1)) with (length (x :: l)) by (simpl; lia).
  by rewrite drop_all, app_nil_r.
Qed.

(** The first element of the sorted slice has the least key of the slice. *)
Lemma Slice_head_least (l : list A) c b :
  head (Sort.Slice (less_key key) l) = Some c -> b ∈ l -> key c <= key b.
Proof.
  intros Hhd Hb. pose proof (Slice_sorted l) as Hs.
  apply (Slice_elem_of (less_key key)) in Hb.
  destruct (Sort.Slice (less_key key) l) as [|c' rest]; [done|]. simpl in Hhd. simplify_eq.
  apply StronglySorted_inv in Hs as [_ Hall].
  apply elem_of_cons in Hb as [->|Hb]; [lia|].
  rewrite Forall_forall in Hall. by apply Hall.
Qed.

End SliceSorted.

Lemma scoreAndSort_head_least candidates task c d :
  head (scoreAndSort candidates task) = Some c -> d ∈ candidates ->
  (routingPreference task = RoutingCheapest -> pricingPerTask c <= pricingPerTask d)
  /\ (routingPreference task = RoutingFastest -> avgResponseMs c <= avgResponseMs d).
Proof.
  intros Hhd Hd. unfold scoreAndSort in Hhd. split; intros Hpref; rewrite Hpref in Hhd.
  - change (String.eqb RoutingCheapest RoutingFastest) with false in Hhd.
    change (String.eqb RoutingCheapest RoutingCheapest) with true in Hhd. cbv iota in Hhd.
    by apply (Slice_head_least pricingPerTask candidates).
  - change (String.eqb RoutingFastest RoutingFastest) with true in Hhd. cbv iota in Hhd.
    by apply (Slice_head_least avgResponseMs candidates).
Qed.

Lemma first_candidate_least task excludeID s c sorted b :
  scoreAndSort (buildCandidates (List.filter (available_worker s (CapabilityRequired task))
                                             (agents s)) task excludeID) task
  = c :: sorted ->
  b ∈ List.filter (eligible s task excludeID) (agents s) ->
  (routingPreference task = RoutingCheapest ->
   price_for task (agent c) <= price_for task b)
  /\ (routingPreference task = RoutingFastest -> response_ms (agent c) <= response_ms b).
Proof.
  intros Hs Hb. rewrite <- candidates_of_store in Hb.
  set (cands := buildCandidates _ task excludeID) in *.
  apply list_elem_of_In, in_map_iff in Hb as (d & <- & Hd%list_elem_of_In).
  assert (c ∈ cands) as Hc by (apply (scoreAndSort_elem_of _ task); rewrite Hs; by left).
  destruct (buildCandidates_fields _ _ _ _ Hc) as [<- <-].
  destruct (buildCandidates_fields _ _ _ _ Hd) as [<- <-].
  apply (scoreAndSort_head_least cands task); [by rewrite Hs|done].
Qed.

(** X7.  With the routing preference cheapest the matchmaker returns a
    cheapest eligible agent, and with fastest one of least average response
    time (an agent with none recorded counts as 0 ms): no eligible agent is
    priced below, respectively answers faster than, the agent
    [FindBestWorker] returns, and the same holds for the first fallback
    among the agents eligible once the failed agent is excluded.  Stated
    for up to 12 agents, where [sort.Slice] is the insertion sort. *)
Theorem cheapest_and_fastest_take_a_least task s :
  (length (agents s) <= 12)%nat ->
  (forall a b,
      FindBestWorker task s = (inr (Some a), s) ->
      b ∈ List.filter (eligible s task uuid_Nil) (agents s) ->
      (routingPreference task = RoutingCheapest -> price_for task a <= price_for task b)
      /\ (routingPreference task = RoutingFastest -> response_ms a <= response_ms b))
  /\ (forall excludeAgentID a rest b,
        FindFallbacks task excludeAgentID s = (inr (a :: rest), s) ->
        b ∈ List.filter (eligible s task excludeAgentID) (agents s) ->
        (routingPreference task = RoutingCheapest -> price_for task a <= price_for task b)
        /\ (routingPreference task = RoutingFastest -> response_ms a <= response_ms b)).
Proof.
  intros _. split.
  - intros a b H Hb. unfold FindBestWorker, bind, FindAvailableWorkers in H.
    destruct (buildCandidates _ task uuid_Nil) as [|c0 cs] eqn:Hcs;
      unfold ret in H; [congruence|].
    rewrite <- Hcs in *.
    destruct (scoreAndSort _ task) as [|c sorted] eqn:Hs; simpl in H; [congruence|].
    assert (a = agent c) as -> by congruence.
    by apply (first_candidate_least task uuid_Nil s c sorted).
  - intros ex a rest b H Hb. unfold FindFallbacks, bind, FindAvailableWorkers in H.
    destruct (buildCandidates _ task ex) as [|c0 cs] eqn:Hcs;
      unfold ret in H; [congruence|].
    rewrite <- Hcs in *.
    destruct (scoreAndSort _ task) as [|c sorted] eqn:Hs; simpl in H; [congruence|].
    assert (a = agent c) as -> by congruence.
    by apply (first_candidate_least task ex s c sorted).
Qed.

Lemma cheapest_and_fastest_take_a_least_witness :
  FindBestWorker (research_task RoutingCheapest) (market TaskStatusMatching)
  = (inr (Some agent300), market TaskStatusMatching)
  /\ FindBestWorker (research_task RoutingFastest) (market TaskStatusMatching)
     = (inr (Some agent300), market TaskStatusMatching)
  /\ price_for (research_task RoutingCheapest) agent300
     <= price_for (research_task RoutingCheapest) agent200
  /\ response_ms agent300 <= response_ms agent200.
Proof.
  split; [vm_compute; reflexivity|]. split; [vm_compute; reflexivity|].
  assert (agent200 ∈ List.filter (eligible (market TaskStatusMatching)
                                           (research_task RoutingCheapest) uuid_Nil)
                                 (agents (market TaskStatusMatching))) as Hin
      by (vm_compute; set_solver).
  split.
  - destruct (proj1 (cheapest_and_fastest_take_a_least (research_task RoutingCheapest)
                       (market TaskStatusMatching) ltac:(simpl; lia))
                agent300 agent200) as [Hcheap _];
      [vm_compute; reflexivity|exact Hin|].
    apply Hcheap. reflexivity.
  - destruct (proj1 (cheapest_and_fastest_take_a_least (research_task RoutingFastest)
                       (market TaskStatusMatching) ltac:(simpl; lia))
                agent300 agent200) as [_ Hfast];
      [vm_compute; reflexivity|exact Hin|].
    apply Hfast. reflexivity.
Defined.

(** ** Deadlines *)

(** X8.  [GetDeadline] knows three capabilities.  It fails exactly when the
    capability is none of research, summarize and data_extraction, or when
    it is research and the input does not unmarshal; these two failures
    are told apart.  A deadline it returns is between 15 and 45 seconds:
    15 s for summarize, 20 s for data_extraction, and for research 15 s at
    depth quick, 45 s at depth deep and 30 s at every other depth, the
    absent one included. *)
Theorem deadline_by_capability capability input :
  (GetDeadline capability input = inl ErrUnknownCapability
   <-> capability <> CapabilityResearch /\ capability <> CapabilitySummarize
       /\ capability <> CapabilityDataExtraction)
  /\ (GetDeadline capability input = inl ErrResearchInput
      <-> capability = CapabilityResearch /\ input = None)
  /\ (forall d, GetDeadline capability input = inr d ->
        15 * Second <= d <= 45 * Second
        /\ (capability = CapabilitySummarize -> d = 15 * Second)
        /\ (capability = CapabilityDataExtraction -> d = 20 * Second)
        /\ (forall depth, capability = CapabilityResearch -> input = Some depth ->
              d = if String.eqb depth "quick" then 15 * Second
                  else if String.eqb depth "deep" then 45 * Second
                  else 30 * Second)).
Proof.
  unfold GetDeadline.
  destruct (String.eqb_spec capability CapabilityResearch) as [->|Hr].
  { split; [|split].
    - split; [by destruct input as [depth|]; repeat case_match|]. by intros [? _].
    - split; [|by intros [_ ->]]. intros H. split; [done|].
      destruct input as [depth|]; [|done]. by repeat case_match.
    - intros d H. destruct input as [depth|]; [|done].
      assert (d = if String.eqb depth "quick" then 15 * Second
                  else if String.eqb depth "deep" then 45 * Second
                  else 30 * Second) as Hd.
      { destruct (String.eqb depth "quick") eqn:Hq; [by simplify_eq|].
        destruct (String.eqb depth "standard") eqn:Hs.
        - apply String.eqb_eq in Hs as ->. by simplify_eq.
        - destruct (String.eqb depth "deep"); by simplify_eq. }
      split; [|split; [done|split; [done|]]].
      + rewrite Hd. unfold Second. repeat case_match; lia.
      + intros depth' _ [= <-]. done. }
  destruct (String.eqb_spec capability CapabilitySummarize) as [->|Hs].
  { split; [|split].
    - split; [done|]. by intros (_ & ? & _).
    - split; [done|]. by intros [? _].
    - intros d [= <-]. unfold SummarizeDeadline, Second. repeat split; try done; lia. }
  destruct (String.eqb_spec capability CapabilityDataExtraction) as [->|Hd].
  { split; [|split].
    - split; [done|]. by intros (_ & _ & ?).
    - split; [done|]. by intros [? _].
    - intros d [= <-]. unfold DataExtractionDeadline, Second. repeat split; try done; lia. }
  split; [|split].
  - by split.
  - split; [done|]. by intros [? _].
  - done.
Qed.

(** ** The escrow service leaves tasks and agents alone *)

Lemma keeps_tasks_ret {A} (a : A) : keeps_tasks (ret a).
Proof. by intros s. Qed.

Lemma keeps_tasks_fail {A} e : keeps_tasks (@fail A e).
Proof. by intros s. Qed.

Lemma keeps_tasks_bind {A B} (m : M A) (k : A -> M B) :
  keeps_tasks m -> (forall a, keeps_tasks (k a)) -> keeps_tasks (bind m k).
Proof.
  intros Hm Hk s. unfold bind. specialize (Hm s).
  destruct (m s) as [[e|a] s1]; simpl in *; [done|].
  destruct (Hk a s1) as [-> ->]. done.
Qed.

Lemma keeps_tasks_GetByIDForUpdate id : keeps_tasks (GetByIDForUpdate id).
Proof. intros s. unfold GetByIDForUpdate. by destruct (accounts s !! id). Qed.

Lemma keeps_tasks_AddCredits id amount : keeps_tasks (AddCredits id amount).
Proof. intros s. unfold AddCredits. by repeat case_match. Qed.

Lemma keeps_tasks_DeductCredits id amount : keeps_tasks (DeductCredits id amount).
Proof. intros s. unfold DeductCredits. by repeat case_match. Qed.

Lemma keeps_tasks_CreateTx c : keeps_tasks (CreateTx c).
Proof. intros s. unfold CreateTx. by repeat case_match. Qed.

Lemma keeps_tasks_for_each ids : keeps_tasks (for_each GetByIDForUpdate ids).
Proof.
  induction ids as [|id ids IH]; [apply keeps_tasks_ret|].
  simpl. apply keeps_tasks_bind; [apply keeps_tasks_GetByIDForUpdate|done].
Qed.

Lemma keeps_tasks_LockCredits a t amount : keeps_tasks (LockCredits a t amount).
Proof.
  unfold LockCredits. apply keeps_tasks_bind; [apply keeps_tasks_GetByIDForUpdate|].
  intros acc. destruct (CreditBalance acc <? amount); [apply keeps_tasks_fail|].
  apply keeps_tasks_bind; [apply keeps_tasks_DeductCredits|]. intros. apply keeps_tasks_CreateTx.
Qed.

Lemma keeps_tasks_SettleTask t r w B C : keeps_tasks (SettleTask t r w B C).
Proof.
  unfold SettleTask.
  apply keeps_tasks_bind; [apply keeps_tasks_for_each|]. intros _.
  apply keeps_tasks_bind; [apply keeps_tasks_AddCredits|]. intros nw.
  apply keeps_tasks_bind; [apply keeps_tasks_CreateTx|]. intros _.
  apply keeps_tasks_bind; [apply keeps_tasks_AddCredits|]. intros np.
  apply keeps_tasks_bind; [apply keeps_tasks_CreateTx|]. intros _.
  case_match; [|apply keeps_tasks_ret].
  apply keeps_tasks_bind; [apply keeps_tasks_AddCredits|]. intros. apply keeps_tasks_CreateTx.
Qed.

Lemma keeps_tasks_SettleError t r B : keeps_tasks (SettleError t r B).
Proof.
  unfold SettleError. case_match; [apply keeps_tasks_ret|].
  apply keeps_tasks_bind; [apply keeps_tasks_GetByIDForUpdate|]. intros _.
  apply keeps_tasks_bind; [apply keeps_tasks_AddCredits|]. intros. apply keeps_tasks_CreateTx.
Qed.

Lemma rollback_same at_begin now :
  tasks now = tasks at_begin -> agents now = agents at_begin ->
  rollback at_begin now = at_begin.
Proof. intros Ht Ha. unfold rollback. rewrite Ht, Ha. by destruct at_begin. Qed.

Lemma resolveAccountID_store id s : (resolveAccountID id s).2 = s.
Proof.
  unfold resolveAccountID, bind, AgentRepo_GetByID. by destruct (agent_row s id).
Qed.

Lemma TaskRepo_Update_inl t s e s' : TaskRepo_Update t s = (inl e, s') -> s' = s.
Proof. unfold TaskRepo_Update. repeat case_match; intros; by simplify_eq. Qed.

Lemma rollback_fields at_begin now :
  accounts (rollback at_begin now) = accounts at_begin
  /\ credit_ledger (rollback at_begin now) = credit_ledger at_begin
  /\ tasks (rollback at_begin now) = tasks now
  /\ agents (rollback at_begin now) = agents now.
Proof. done. Qed.

Lemma finish_result_cases at_begin task commits s :
  tasks s = tasks at_begin -> agents s = agents at_begin ->
  (finish_result at_begin task commits s
   = (mkResponse StatusInternalServerError (ErrorBody "internal error"), at_begin))
  \/ (task_encodes task = true
      /\ exists s1,
           s1 = match tasks s !! ID task with
                | Some _ => set_tasks (insert (ID task) (task_row task)) s
                | None => s
                end
           /\ finish_result at_begin task commits s
              = if commits
                then (mkResponse StatusOK (ResultBody (ID task) (Status task)), s1)
                else (mkResponse StatusInternalServerError (ErrorBody "internal error"),
                      rollback at_begin s1)).
Proof.
  intros Ht Ha. unfold finish_result, TaskRepo_Update.
  destruct (task_encodes task); [|left; by rewrite rollback_same].
  right. split; [done|]. eexists. split; [reflexivity|].
  by destruct (tasks s !! ID task).
Qed.

(** ** The worker callback, whatever it is given *)

(** Every way [SubmitResult] can end: an answer other than 200 with the
    store as it was, or the task row written as completed or failed and
    then, as the commit goes, 200 or 500 with the transaction undone. *)
Lemma SubmitResult_outcome p taskID body commits s resp s' :
  SubmitResult p taskID body commits s = (resp, s') ->
  (code resp <> StatusOK /\ s' = s)
  \/ (exists id task req t' s1,
         taskID = Some id /\ tasks s !! id = Some task /\ body = Some req
         /\ dispatchable task = true /\ caller_is_worker p task = true
         /\ task_encodes t' = true /\ ID t' = ID task
         /\ (Status t' = TaskStatusCompleted \/ Status t' = TaskStatusFailed)
         /\ tasks s1 = match tasks s !! ID task with
                       | Some _ => <[ID task := task_row t']> (tasks s)
                       | None => tasks s
                       end
         /\ agents s1 = agents s
         /\ (resp, s')
            = if commits
              then (mkResponse StatusOK (ResultBody (ID task) (Status t')), s1)
              else (mkResponse StatusInternalServerError (ErrorBody "internal error"),
                    rollback s s1)).
Proof.
  unfold SubmitResult. intros H.
  destruct taskID as [id|]; [|left; by simplify_eq].
  unfold TaskRepo_GetByID in H.
  destruct (tasks s !! id) as [task|] eqn:Htask; [|left; by simplify_eq].
  destruct (negb (String.eqb (Status task) TaskStatusInProgress)
            && negb (String.eqb (Status task) TaskStatusDispatched)) eqn:Hst;
    [left; by simplify_eq|].
  assert (dispatchable task = true) as Hdisp.
  { unfold dispatchable. apply andb_false_iff in Hst as [Hst|Hst];
      apply negb_false_iff in Hst; rewrite Hst; [done|by rewrite orb_true_r]. }
  destruct (match AgentFromCtx p with
            | Some ca => match WorkerAgentID task with
                         | Some wid => negb (ag_ID ca =? wid)%N
                         | None => true
                         end
            | None => true
            end) eqn:Hcaller; [left; by simplify_eq|].
  assert (caller_is_worker p task = true) as Hworker.
  { unfold caller_is_worker. destruct (AgentFromCtx p); [|done].
    destruct (WorkerAgentID task); [|done]. by apply negb_false_iff in Hcaller. }
  destruct body as [req|]; [|left; by simplify_eq].
  set (os := if String.eqb (req_OutputStatus req) "" then TaskOutputStatusSuccess
             else req_OutputStatus req) in *.
  pose proof (resolveAccountID_store (RequesterAgentID (set_result task req os)) s) as Hr1.
  destruct (resolveAccountID (RequesterAgentID (set_result task req os)) s)
    as [[e1|racc] s1]; simpl in Hr1; subst s1.
  { left. rewrite rollback_same in H by done. by simplify_eq. }
  destruct (String.eqb os TaskOutputStatusSuccess || String.eqb os TaskOutputStatusPartial).
  - destruct (WorkerAgentID (set_result task req os)) as [wid|].
    2:{ left. rewrite rollback_same in H by done. by simplify_eq. }
    pose proof (resolveAccountID_store wid s) as Hr2.
    destruct (resolveAccountID wid s) as [[e2|wacc] s2]; simpl in Hr2; subst s2.
    { left. rewrite rollback_same in H by done. by simplify_eq. }
    match type of H with
    | context [SettleTask ?t ?r ?w ?B ?C s] =>
        destruct (keeps_tasks_SettleTask t r w B C s) as [Hk Hg];
        destruct (SettleTask t r w B C s) as [[e3|u3] s3]; simpl in Hk, Hg
    end.
    { left. rewrite rollback_same in H by done. by simplify_eq. }
    match type of H with
    | finish_result s ?t commits s3 = _ =>
        destruct (finish_result_cases s t commits s3 Hk Hg) as [Hf|(Henc & s4 & Hs4 & Hf)];
        rewrite Hf in H
    end.
    { left. by simplify_eq. }
    right. eexists id, task, req, _, s4.
    split; [done|]. split; [done|]. split; [done|]. split; [done|]. split; [done|].
    split; [exact Henc|]. split; [done|]. split; [by left|].
    cbn [ID set_completed set_result] in Hs4 |- *. rewrite Hk in Hs4.
    split; [|split; [|by rewrite <- H]];
      subst s4; destruct (tasks s !! ID task); simpl; by rewrite ?Hk, ?Hg.
  - destruct (String.eqb os TaskOutputStatusError).
    2:{ left. rewrite rollback_same in H by done. by simplify_eq. }
    match type of H with
    | context [RefundFailed ?t ?r ?B s] =>
        destruct (keeps_tasks_SettleError t r B s) as [Hk Hg];
        unfold RefundFailed in H;
        destruct (SettleError t r B s) as [[e3|u3] s3]; simpl in Hk, Hg
    end.
    { left. rewrite rollback_same in H by done. by simplify_eq. }
    match type of H with
    | finish_result s ?t commits s3 = _ =>
        destruct (finish_result_cases s t commits s3 Hk Hg) as [Hf|(Henc & s4 & Hs4 & Hf)];
        rewrite Hf in H
    end.
    { left. by simplify_eq. }
    right. eexists id, task, req, _, s4.
    split; [done|]. split; [done|]. split; [done|]. split; [done|]. split; [done|].
    split; [exact Henc|]. split; [done|]. split; [by right|].
    cbn [ID set_status set_result] in Hs4 |- *. rewrite Hk in Hs4.
    split; [|split; [|by rewrite <- H]];
      subst s4; destruct (tasks s !! ID task); simpl; by rewrite ?Hk, ?Hg.
Qed.

(** An answer of 200 is given after a commit, with the row written. *)
Lemma SubmitResult_accepted p taskID body commits s resp s' :
  SubmitResult p taskID body commits s = (resp, s') -> code resp = StatusOK ->
  commits = true
  /\ exists id task req t',
       taskID = Some id /\ tasks s !! id = Some task /\ body = Some req
       /\ dispatchable task = true /\ caller_is_worker p task = true
       /\ task_encodes t' = true /\ ID t' = ID task
       /\ (Status t' = TaskStatusCompleted \/ Status t' = TaskStatusFailed)
       /\ resp = mkResponse StatusOK (ResultBody (ID task) (Status t'))
       /\ tasks s' = match tasks s !! ID task with
                     | Some _ => <[ID task := task_row t']> (tasks s)
                     | None => tasks s
                     end
       /\ agents s' = agents s.
Proof.
  intros H Hcode. apply SubmitResult_outcome in H as [[? _]|H]; [done|].
  destruct H as (id & task & req & t' & s1 & ? & ? & ? & ? & ? & ? & ? & ? & Hk & Hg & H).
  destruct commits; injection H as -> ->; [|done].
  split; [done|]. by exists id, task, req, t'.
Qed.

(** Any other answer has moved no credits; the task row is as it was
    unless it is the commit that failed. *)
Lemma SubmitResult_rejected p taskID body commits s resp s' :
  SubmitResult p taskID body commits s = (resp, s') -> code resp <> StatusOK ->
  accounts s' = accounts s /\ credit_ledger s' = credit_ledger s /\ agents s' = agents s
  /\ (commits = true -> s' = s)
  /\ (tasks s' <> tasks s ->
      commits = false
      /\ resp = mkResponse StatusInternalServerError (ErrorBody "internal error")
      /\ exists id task t',
           taskID = Some id /\ tasks s !! id = Some task
           /\ dispatchable task = true /\ caller_is_worker p task = true
           /\ ID t' = ID task
           /\ (Status t' = TaskStatusCompleted \/ Status t' = TaskStatusFailed)
           /\ tasks s' = <[ID task := task_row t']> (tasks s)).
Proof.
  intros H Hcode. apply SubmitResult_outcome in H as [[_ ->]|H]; [done|].
  destruct H as (id & task & req & t' & s1 & ? & ? & ? & ? & ? & ? & ? & ? & Hk & Hg & H).
  destruct commits; injection H as -> ->; [done|].
  split; [done|]. split; [done|]. split; [done|]. split; [done|].
  intros Hne. split; [done|]. split; [done|]. exists id, task, t'.
  cbn [tasks rollback] in Hne |- *. rewrite Hk in Hne |- *.
  destruct (tasks s !! ID task); done.
Qed.

(** X10.  A worker callback that is not answered 200 has moved no credits,
    and has changed the task row only if the commit failed.  Whenever
    [SubmitResult] answers anything other than 200, every account and the
    ledger are as before the call.  When the commit succeeds the whole
    store is as before.  The tasks table differs only when [tx.Commit]
    returned an error: the answer is then 500, and the row of the task,
    which [TaskRepo.Update] wrote on the pool before the commit, reads
    completed or failed although nothing was paid or refunded. *)
Theorem failed_callback_moves_no_credits p taskID body commits s resp s' :
  SubmitResult p taskID body commits s = (resp, s') ->
  code resp <> StatusOK ->
  accounts s' = accounts s /\ credit_ledger s' = credit_ledger s /\ agents s' = agents s
  /\ (commits = true -> s' = s)
  /\ (tasks s' <> tasks s ->
      commits = false
      /\ resp = mkResponse StatusInternalServerError (ErrorBody "internal error")
      /\ exists id task t',
           taskID = Some id /\ tasks s !! id = Some task
           /\ dispatchable task = true /\ caller_is_worker p task = true
           /\ ID t' = ID task
           /\ (Status t' = TaskStatusCompleted \/ Status t' = TaskStatusFailed)
           /\ tasks s' = <[ID task := task_row t']> (tasks s)).
Proof. apply SubmitResult_rejected. Qed.

Lemma failed_callback_moves_no_credits_witness :
  let s := market TaskStatusInProgress in
  let out := SubmitResult p200 (Some 7%N) (Some (mkResult "out" TaskOutputStatusSuccess 80))
                          false s in
  code out.1 = StatusInternalServerError
  /\ accounts out.2 = accounts s /\ credit_ledger out.2 = credit_ledger s
  /\ (Status <$> tasks s !! 7%N) = Some TaskStatusInProgress
  /\ (Status <$> tasks out.2 !! 7%N) = Some TaskStatusCompleted.
Proof.
  intros s out.
  destruct (failed_callback_moves_no_credits p200 (Some 7%N)
              (Some (mkResult "out" TaskOutputStatusSuccess 80)) false s out.1 out.2)
    as (Ha & Hl & _).
  - apply surjective_pairing.
  - vm_compute. discriminate.
  - split; [vm_compute; reflexivity|]. split; [exact Ha|]. split; [exact Hl|].
    split; vm_compute; reflexivity.
Defined.

Lemma settled_row p id body commits s resp s' :
  (forall t, tasks s !! id = Some t -> ID t = id) ->
  SubmitResult p (Some id) body commits s = (resp, s') -> code resp = StatusOK ->
  exists t', tasks s' !! id = Some t'
             /\ (Status t' = TaskStatusCompleted \/ Status t' = TaskStatusFailed).
Proof.
  intros Hwf H Hcode. apply SubmitResult_accepted in H as [_ H]; [|done].
  destruct H as (id' & task & req & t' & [= <-] & Htask & _ & _ & _ & _ & _ & Hst & _ & Hk & _).
  rewrite (Hwf _ Htask), Htask in Hk. exists (task_row t'). split; [|done].
  rewrite Hk. apply lookup_insert_eq.
Qed.

(** X11.  A task is settled at most once.  After [SubmitResult] has
    answered 200 for a task (whose row carries its own id), the row is
    completed or failed, and every further callback for that task, from
    whatever caller and with whatever body, is answered 409 Conflict and
    leaves the store as it is: no second payment, no second refund. *)
Theorem no_second_settlement p id body commits s resp s' p2 body2 commits2 :
  (forall t, tasks s !! id = Some t -> ID t = id) ->
  SubmitResult p (Some id) body commits s = (resp, s') ->
  code resp = StatusOK ->
  exists t',
    tasks s' !! id = Some t'
    /\ (Status t' = TaskStatusCompleted \/ Status t' = TaskStatusFailed)
    /\ SubmitResult p2 (Some id) body2 commits2 s'
       = (mkResponse StatusConflict
            (ConflictBody "task is not in a dispatchable state" (Status t')), s').
Proof.
  intros Hwf H Hcode. destruct (settled_row _ _ _ _ _ _ _ Hwf H Hcode) as (t' & Ht' & Hst).
  exists t'. split; [done|]. split; [done|].
  unfold SubmitResult. rewrite (TaskRepo_GetByID_Some _ _ _ Ht').
  by destruct Hst as [-> | ->].
Qed.

Lemma no_second_settlement_witness :
  exists s' t',
    SubmitResult p200 (Some 7%N) (Some (mkResult "out" TaskOutputStatusSuccess 80)) true
                 (market TaskStatusInProgress)
    = (mkResponse StatusOK (ResultBody 7%N TaskStatusCompleted), s')
    /\ tasks s' !! 7%N = Some t'
    /\ SubmitResult p200 (Some 7%N) (Some (mkResult "out" TaskOutputStatusSuccess 80)) true s'
       = (mkResponse StatusConflict
            (ConflictBody "task is not in a dispatchable state" (Status t')), s').
Proof.
  eexists.
  destruct (no_second_settlement p200 7%N (Some (mkResult "out" TaskOutputStatusSuccess 80))
              true (market TaskStatusInProgress)
              (mkResponse StatusOK (ResultBody 7%N TaskStatusCompleted))
              (SubmitResult p200 (Some 7%N) (Some (mkResult "out" TaskOutputStatusSuccess 80))
                            true (market TaskStatusInProgress)).2
              p200 (Some (mkResult "out" TaskOutputStatusSuccess 80)) true)
    as (t' & Ht' & _ & H2).
  - intros t Ht. vm_compute in Ht. by simplify_eq.
  - vm_compute; reflexivity.
  - reflexivity.
  - exists t'. split; [vm_compute; reflexivity|]. split; [exact Ht'|exact H2].
Defined.

(** X12.  A callback that reports output_status error refunds the requester
    in full and pays nobody.  When it comes from the assigned worker of a
    dispatchable task (INT-sized fields, a requester account that can take
    the budget back), [SubmitResult] reaches the commit with the task row
    failed, output_status error; the requester's balance grown by the whole
    budget, every other balance (the worker's and the platform's included)
    as it was, and the ledger grown by one refund entry.  It answers 200
    with status failed, and this is the store it leaves, when the commit
    succeeds; when the commit fails it answers 500 and the refund is
    undone. *)
Theorem error_callback_refunds p id req commits s task ca ra :
  tasks s !! id = Some task -> ID task = id ->
  dispatchable task = true ->
  AgentFromCtx p = Some ca -> WorkerAgentID task = Some (ag_ID ca) ->
  req_OutputStatus req = TaskOutputStatusError ->
  agent_row s (RequesterAgentID task) = Some ra ->
  1 <= Budget task <= 2147483647 ->
  in_int4 (req_ActualCost req) = true ->
  fits_int4 (PlatformFee task) = true ->
  in_int4 (RetryCount task) = true ->
  room_for s (Budget task) (ag_AccountID ra) ->
  exists s' t',
    SubmitResult p (Some id) (Some req) commits s
    = (if commits then (mkResponse StatusOK (ResultBody id TaskStatusFailed), s')
       else (mkResponse StatusInternalServerError (ErrorBody "internal error"),
             rollback s s'))
    /\ tasks s' !! id = Some t'
    /\ Status t' = TaskStatusFailed /\ OutputStatus t' = TaskOutputStatusError
    /\ (forall a, balance s' a
                  = balance s a + if (ag_AccountID ra =? a)%N then Budget task else 0)
    /\ credit_ledger s'
       = credit_ledger s
         ++ [refund_entry (ag_AccountID ra) id (Budget task)
                          (balance s (ag_AccountID ra) + Budget task)].
Proof.
  intros Ht Hid Hdisp Hca Hwid Hos Hra HB Hcost Hpf Hretry (Hsome & Hlo & Hhi).
  unfold SubmitResult.
  rewrite (TaskRepo_GetByID_Some _ _ _ Ht).
  unfold dispatchable in Hdisp. rewrite <- negb_orb, Hdisp. cbn [negb].
  rewrite Hca, Hwid, N.eqb_refl. cbn [negb].
  rewrite Hos.
  change (String.eqb TaskOutputStatusError "") with false. cbv iota.
  change (String.eqb TaskOutputStatusError TaskOutputStatusSuccess
          || String.eqb TaskOutputStatusError TaskOutputStatusPartial) with false.
  change (String.eqb TaskOutputStatusError TaskOutputStatusError) with true.
  cbn [RequesterAgentID set_result set_status WorkerAgentID Budget ID].
  rewrite (resolveAccountID_Some _ _ _ Hra). cbv iota.
  rewrite Hid. unfold RefundFailed.
  destruct (SettleError_succeeds id (ag_AccountID ra) (Budget task) s) as [s1 Hs1];
    [lia|done|done|done|].
  rewrite Hs1.
  apply SettleError_inr in Hs1 as [[Hneg _]|(_ & _ & Hb & Hl & Hk & _)]; [lia|].
  unfold finish_result.
  erewrite TaskRepo_Update_Some; cycle 1.
  { unfold task_encodes.
    cbn [Budget ActualCost PlatformFee RetryCount set_status set_result fits_int4].
    rewrite Hcost, Hpf, Hretry, !andb_true_r. apply in_int4_spec. lia. }
  { cbn [ID set_status set_result]. rewrite Hk, Hid. exact Ht. }
  cbn [ID Status set_status set_result]. rewrite Hid.
  eexists _, _. split; [reflexivity|]. split; [apply lookup_insert_eq|].
  split; [done|]. split; [done|]. split; [|done].
  intros a. apply Hb.
Qed.

Lemma error_callback_refunds_witness :
  exists s' t',
    SubmitResult p200 (Some 7%N) (Some (mkResult "" TaskOutputStatusError 0)) true
                 (market TaskStatusInProgress)
    = (mkResponse StatusOK (ResultBody 7%N TaskStatusFailed), s')
    /\ tasks s' !! 7%N = Some t'
    /\ Status t' = TaskStatusFailed
    /\ balance s' 10%N = 1000 /\ balance s' 20%N = 200.
Proof.
  destruct (error_callback_refunds p200 7%N (mkResult "" TaskOutputStatusError 0) true
              (market TaskStatusInProgress) (task7 TaskStatusInProgress) agent200 agent100)
    as (s' & t' & H & Ht' & Hst & _ & Hb & _);
    [reflexivity|reflexivity|reflexivity|reflexivity|reflexivity|reflexivity|reflexivity
    |simpl; lia|reflexivity|reflexivity|reflexivity|solve_room|].
  exists s', t'. split; [exact H|]. split; [exact Ht'|]. split; [exact Hst|].
  rewrite !Hb. by vm_compute.
Defined.

(** ** The dispatcher: the paths that send nothing *)

Lemma refundAndFail_refunds task row ra w :
  tasks (store w) !! ID task = Some row ->
  task_encodes task = true -> 1 <= Budget task ->
  agent_row (store w) (RequesterAgentID task) = Some ra ->
  room_for (store w) (Budget task) (ag_AccountID ra) ->
  exists w',
    refundAndFail task w = (inr tt, w')
    /\ posts w' = posts w /\ watchers w' = watchers w
    /\ failed_and_refunded (store w) task (ag_AccountID ra) w'
    /\ accounts (store w')
       = <[ag_AccountID ra := mkAccount (balance (store w) (ag_AccountID ra) + Budget task)
                                        (match accounts (store w) !! ag_AccountID ra with
                                         | Some a => IsSystemAccount a
                                         | None => false
                                         end)]> (accounts (store w)).
Proof.
  intros Hrow Henc HB Hra (Hsome & Hlo & Hhi).
  unfold refundAndFail, on_pool.
  set (task' := set_output_status (set_status task TaskStatusFailed) TaskOutputStatusError).
  unfold bind at 1.
  erewrite (TaskRepo_Update_Some task' (store w) row); [|exact Henc|exact Hrow].
  set (s1 := set_tasks _ (store w)).
  unfold bind at 1.
  rewrite (resolveAccountID_Some (RequesterAgentID task') s1 ra)
    by (rewrite (agent_row_agents (store w) s1); done).
  assert (accounts s1 = accounts (store w)) as Hacc1 by done.
  assert (Budget task <= 2147483647) as HB'.
  { unfold task_encodes in Henc. rewrite !andb_true_iff in Henc.
    destruct Henc as [[[Hb _] _] _]. apply in_int4_spec in Hb. lia. }
  unfold in_tx, RefundFailed, SettleError.
  change (Budget task') with (Budget task). change (ID task') with (ID task).
  assert ((Budget task <=? 0) = false) as -> by lia.
  destruct Hsome as [a Ha].
  unfold bind at 1. rewrite (GetByIDForUpdate_Some _ s1 a) by (by rewrite Hacc1).
  unfold balance in Hlo, Hhi. rewrite Ha in Hlo, Hhi.
  unfold bind at 1.
  rewrite (AddCredits_ok _ _ s1 a); [|by rewrite Hacc1|apply in_int4_spec; lia
                                     |apply in_int4_spec; lia].
  rewrite CreateTx_ok; [|apply in_int4_spec; simpl; lia|apply in_int4_spec; simpl; lia].
  eexists. split; [reflexivity|]. split; [done|]. split; [done|].
  cbn [store with_store]. split; [split; [|split]|].
  - exists (task_row task'). split; [simpl; apply lookup_insert_eq|done].
  - unfold balance. simpl. by rewrite lookup_insert_eq, Ha.
  - simpl. unfold balance. by rewrite Ha.
  - simpl. unfold balance. by rewrite Ha.
Qed.

Section DispatcherMore.

Variable url_parses : string -> bool.

(** X13.  When no agent is eligible for a task, [DispatchTask] fails the
    task and refunds it without sending anything: whatever the network
    would answer, no POST is made and no watcher is started, the task row
    is failed with output_status error, and the whole budget is back on
    the requester's account, with the refund entry at the end of the
    ledger. *)
Theorem dispatch_without_worker script task row ra w :
  List.filter (eligible (store w) task uuid_Nil) (agents (store w)) = [] ->
  tasks (store w) !! ID task = Some row ->
  task_encodes task = true -> 1 <= Budget task ->
  agent_row (store w) (RequesterAgentID task) = Some ra ->
  room_for (store w) (Budget task) (ag_AccountID ra) ->
  exists w',
    DispatchTask url_parses script task w = Some (inr tt, w')
    /\ posts w' = posts w /\ watchers w' = watchers w
    /\ failed_and_refunded (store w) task (ag_AccountID ra) w'.
Proof.
  intros Hnone Hrow Henc HB Hra Hroom. unfold DispatchTask.
  destruct (FindBestWorker_eligible task (store w)) as (r & Hr & Hiff & _).
  unfold on_pool at 1. rewrite Hr.
  assert (with_store w (store w) = w) as -> by (by destruct w).
  rewrite (proj2 Hiff Hnone). unfold failNoWorker.
  destruct (refundAndFail_refunds task row ra w) as (w' & -> & Hp & Hw & Hf & _); try done.
  by exists w'.
Qed.

(** X14.  A deadline means nothing to a task that has been settled.  After
    [SubmitResult] has answered 200 for a task (whose row carries its own
    id), the watcher that was started for it, whenever it fires and
    whatever the network would answer, reads the row, finds it no longer
    in progress and stops: the world is unchanged, nothing is sent. *)
Theorem settled_task_ignores_deadline p id body commits s resp script wt w :
  (forall t, tasks s !! id = Some t -> ID t = id) ->
  SubmitResult p (Some id) body commits s = (resp, store w) ->
  code resp = StatusOK ->
  w_task wt = id ->
  monitorDeadline url_parses script wt w = Some w.
Proof.
  intros Hwf H Hcode Hid.
  destruct (settled_row _ _ _ _ _ _ _ Hwf H Hcode) as (t' & Ht' & Hst).
  unfold monitorDeadline, on_pool. rewrite Hid, (TaskRepo_GetByID_Some _ _ _ Ht').
  assert (with_store w (store w) = w) as -> by (by destruct w).
  by destruct Hst as [-> | ->].
Qed.

End DispatcherMore.

Lemma dispatch_without_worker_witness :
  exists w',
    DispatchTask any_url [] (mkTask 7 100 None CapabilityResearch (Some "quick") "" ""
                                    TaskStatusMatching 100 None None None 0 "")
                 (world0 (set_accounts (insert 20%N (mkAccount 200 true))
                            (set_accounts (insert 30%N (mkAccount 50 true))
                               (market TaskStatusMatching))))
    = Some (inr tt, w')
    /\ posts w' = [] /\ watchers w' = []
    /\ (Status <$> tasks (store w') !! 7%N) = Some TaskStatusFailed
    /\ balance (store w') 10%N = 1000.
Proof.
  destruct (dispatch_without_worker any_url []
              (mkTask 7 100 None CapabilityResearch (Some "quick") "" ""
                      TaskStatusMatching 100 None None None 0 "")
              (task7 TaskStatusMatching) agent100
              (world0 (set_accounts (insert 20%N (mkAccount 200 true))
                         (set_accounts (insert 30%N (mkAccount 50 true))
                            (market TaskStatusMatching)))))
    as (w' & H & Hp & Hw & ((t' & Ht' & Hst & _) & Hb & _));
    [reflexivity|reflexivity|reflexivity|simpl; lia|reflexivity|solve_room|].
  exists w'. split; [exact H|]. split; [exact Hp|]. split; [exact Hw|].
  split.
  - etransitivity; [exact (f_equal (fmap Status) Ht')|]. simpl. by rewrite Hst.
  - etransitivity; [exact Hb|]. by vm_compute.
Defined.

Lemma settled_task_ignores_deadline_witness :
  let out := SubmitResult p200 (Some 7%N) (Some (mkResult "out" TaskOutputStatusSuccess 80))
                          true (market TaskStatusInProgress) in
  let w := mkWorld out.2 [] [] in
  monitorDeadline any_url script_500 (mkWatcher 7 200 1000) w = Some w.
Proof.
  apply (settled_task_ignores_deadline any_url p200 7%N
           (Some (mkResult "out" TaskOutputStatusSuccess 80)) true
           (market TaskStatusInProgress)
           (mkResponse StatusOK (ResultBody 7%N TaskStatusCompleted))).
  - intros t Ht. vm_compute in Ht. by simplify_eq.
  - vm_compute; reflexivity.
  - reflexivity.
  - reflexivity.
Defined.

(** ** Authentication *)

Lemma ListByAccountID_elem_of accountID s a :
  a ∈ ListByAccountID accountID s ->
  a ∈ agents s /\ ag_AccountID a = accountID
  /\ exists ac, accounts s !! accountID = Some ac /\ IsSystemAccount ac = false.
Proof.
  unfold ListByAccountID. rewrite list_elem_of_In, filter_In, <- list_elem_of_In.
  intros [Hin Hf]. apply andb_prop in Hf as [Hsys Hid]. apply N.eqb_eq in Hid.
  split; [done|]. split; [done|]. rewrite <- Hid.
  destruct (accounts s !! ag_AccountID a) as [ac|]; [|done].
  exists ac. split; [done|]. by apply negb_true_iff.
Qed.

Lemma ListByAccountID_system accountID s ac :
  accounts s !! accountID = Some ac -> IsSystemAccount ac = true ->
  ListByAccountID accountID s = [].
Proof.
  intros Hac Hsys. unfold ListByAccountID.
  induction (agents s) as [|a l IH]; [done|]. simpl. rewrite IH.
  destruct (N.eqb_spec (ag_AccountID a) accountID) as [->|]; [|by rewrite andb_false_r].
  by rewrite Hac, Hsys.
Qed.

Section AuthFacts.

Variable hashKey : string -> string.
Variable api_keys : list APIKey.
Variable limits : uuid -> option Z * option Z.

Lemma FindByKeyHash_Some keyHash s acc :
  FindByKeyHash api_keys limits keyHash s = Some acc ->
  exists k, k ∈ api_keys /\ KeyHash k = keyHash /\ IsActive k = true
            /\ key_AccountID k = acc_ID acc /\ is_Some (accounts s !! acc_ID acc).
Proof.
  unfold FindByKeyHash.
  destruct (List.find _ api_keys) as [k|] eqn:Hfind; [|done].
  intros [= <-]. apply find_some in Hfind as [Hin Hk].
  apply andb_prop in Hk as [Hk Hacc]. apply andb_prop in Hk as [Hhash Hact].
  exists k. split; [by apply list_elem_of_In|]. split; [by apply String.eqb_eq|].
  split; [done|]. split; [done|]. by apply bool_decide_eq_true in Hacc.
Qed.

Lemma FindByKeyHash_None keyHash s :
  (forall k, k ∈ api_keys -> KeyHash k = keyHash -> IsActive k = false) ->
  FindByKeyHash api_keys limits keyHash s = None.
Proof.
  intros Hall. unfold FindByKeyHash.
  destruct (List.find _ api_keys) as [k|] eqn:Hfind; [|done].
  apply find_some in Hfind as [Hin Hk].
  apply andb_prop in Hk as [Hk _]. apply andb_prop in Hk as [Hhash Hact].
  apply String.eqb_eq in Hhash. apply list_elem_of_In in Hin.
  rewrite (Hall k Hin Hhash) in Hact. done.
Qed.

Lemma APIKeyAuth_Next raw s c :
  APIKeyAuth hashKey api_keys limits raw s = Next c ->
  raw <> ""
  /\ exists acc k,
       ctx_account c = Some acc
       /\ k ∈ api_keys /\ KeyHash k = hashKey raw /\ IsActive k = true
       /\ key_AccountID k = acc_ID acc /\ is_Some (accounts s !! acc_ID acc)
       /\ (forall ag, ctx_agent c = Some ag ->
             ag ∈ agents s /\ ag_AccountID ag = acc_ID acc
             /\ exists ac, accounts s !! acc_ID acc = Some ac
                           /\ IsSystemAccount ac = false)
       /\ (forall ac, accounts s !! acc_ID acc = Some ac -> IsSystemAccount ac = true ->
             ctx_agent c = None).
Proof.
  unfold APIKeyAuth. intros H.
  destruct (String.eqb_spec raw "") as [|Hraw]; [done|]. split; [done|].
  destruct (FindByKeyHash api_keys limits (hashKey raw) s) as [acc|] eqn:Hfind; [|done].
  injection H as <-.
  destruct (FindByKeyHash_Some _ _ _ Hfind) as (k & Hin & Hhash & Hact & Hk & Hsome).
  exists acc, k. split; [done|]. split; [done|]. split; [done|]. split; [done|].
  split; [done|]. split; [done|]. split.
  - intros ag Hag. simpl in Hag.
    by apply (ListByAccountID_elem_of (acc_ID acc) s), head_elem_of.
  - intros ac Hac Hsys. simpl. by rewrite (ListByAccountID_system _ _ _ Hac Hsys).
Qed.

(** X15.  What [APIKeyAuth] lets through.  A request reaches the handler
    only with a token that is not empty and whose digest is the hash of an
    active row of api_keys; the account in its context is the account of
    that row, and it exists.  The agent in its context, if there is one,
    is an agent of the store that belongs to that very account, and the
    account is not a system account: a system account never has an agent
    in its context.  A token whose digest matches no active key is
    answered 401. *)
Theorem api_key_auth_binds_agent_to_account raw s :
  (forall c, APIKeyAuth hashKey api_keys limits raw s = Next c ->
     raw <> ""
     /\ exists acc k,
          ctx_account c = Some acc
          /\ k ∈ api_keys /\ KeyHash k = hashKey raw /\ IsActive k = true
          /\ key_AccountID k = acc_ID acc /\ is_Some (accounts s !! acc_ID acc)
          /\ (forall ag, ctx_agent c = Some ag ->
                ag ∈ agents s /\ ag_AccountID ag = acc_ID acc
                /\ exists ac, accounts s !! acc_ID acc = Some ac
                              /\ IsSystemAccount ac = false)
          /\ (forall ac, accounts s !! acc_ID acc = Some ac -> IsSystemAccount ac = true ->
                ctx_agent c = None))
  /\ ((forall k, k ∈ api_keys -> KeyHash k = hashKey raw -> IsActive k = false) ->
      exists why, APIKeyAuth hashKey api_keys limits raw s = Reject StatusUnauthorized why).
Proof.
  split; [intros c; apply APIKeyAuth_Next|].
  intros Hall. unfold APIKeyAuth. destruct (String.eqb raw ""); [by eexists|].
  rewrite FindByKeyHash_None by done. by eexists.
Qed.

(** X16.  Only a key of the account that owns the assigned worker settles
    a task.  When the route POST /v1/tasks/{id}/result answers 200, the
    token is the one of an active key, the task was dispatchable and had
    a worker, and that worker is an agent of the key's account, which is
    not a system account.  On any other answer no credits have moved:
    accounts and ledger are as before the call, and so is the whole store
    unless the commit failed.  In particular a key of a system account
    gets an answer other than 200. *)
Theorem result_route_needs_owner_key raw taskID body commits s resp s' :
  post_result hashKey api_keys limits raw taskID body commits s = (resp, s') ->
  (code resp = StatusOK ->
   exists k id task ca,
     k ∈ api_keys /\ KeyHash k = hashKey raw /\ IsActive k = true
     /\ taskID = Some id /\ tasks s !! id = Some task /\ dispatchable task = true
     /\ WorkerAgentID task = Some (ag_ID ca)
     /\ ca ∈ agents s /\ ag_AccountID ca = key_AccountID k
     /\ exists ac, accounts s !! key_AccountID k = Some ac /\ IsSystemAccount ac = false)
  /\ (code resp <> StatusOK ->
      accounts s' = accounts s /\ credit_ledger s' = credit_ledger s
      /\ (commits = true -> s' = s)).
Proof.
  unfold post_result. intros H.
  destruct (APIKeyAuth hashKey api_keys limits raw s) as [status why|c] eqn:Hauth.
  { injection H as <- <-. split; [|done].
    unfold APIKeyAuth in Hauth. destruct (String.eqb raw ""); [by simplify_eq|].
    destruct (FindByKeyHash _ _ _ _); by simplify_eq. }
  destruct (APIKeyAuth_Next raw s c Hauth) as (_ & acc & k & Hc & Hin & Hh & Ha & Hk & _ & Hag & _).
  split.
  2:{ intros Hcode.
      destruct (SubmitResult_rejected _ _ _ _ _ _ _ H Hcode) as (? & ? & _ & ? & _). done. }
  intros Hcode. apply SubmitResult_accepted in H as [_ H]; [|done].
  destruct H as (id & task & req & t' & -> & Htask & _ & Hdisp & Hworker & _).
  unfold caller_is_worker, principal_of, AgentFromCtx in Hworker. simpl in Hworker.
  destruct (ctx_agent c) as [ca|] eqn:Hca; [|done].
  destruct (WorkerAgentID task) as [wid|] eqn:Hwid; [|done].
  apply N.eqb_eq in Hworker as <-.
  destruct (Hag ca eq_refl) as (Hcain & Hcaacc & ac & Hac & Hsys).
  exists k, id, task, ca. rewrite Hk. repeat split; try done. by exists ac.
Qed.

End AuthFacts.

Lemma result_route_needs_owner_key_witness :
  let call raw := post_result demo_hash demo_keys demo_limits raw (Some 7%N)
                              (Some (mkResult "out" TaskOutputStatusSuccess 80)) true
                              (market TaskStatusInProgress) in
  code (call "key-20").1 = StatusOK
  /\ code (call "key-platform").1 = StatusForbidden
  /\ (call "key-platform").2 = market TaskStatusInProgress.
Proof.
  split; [vm_compute; reflexivity|]. split; [vm_compute; reflexivity|].
  destruct (result_route_needs_owner_key demo_hash demo_keys demo_limits "key-platform"
              (Some 7%N) (Some (mkResult "out" TaskOutputStatusSuccess 80)) true
              (market TaskStatusInProgress)
              (mkResponse StatusForbidden (ErrorBody "caller is not the assigned worker"))
              _ ltac:(vm_compute; reflexivity)) as [_ H].
  destruct H as (_ & _ & H); [discriminate|]. by apply H.
Defined.

(** ** The budget gate *)

Section BudgetFacts.

Variable dailySpendFn : uuid -> Store -> option Z.

Lemma BudgetCheck_Next c peek s pb :
  BudgetCheck dailySpendFn c peek s = Next pb ->
  peek = Some pb
  /\ 0 < pb_Budget pb
  /\ (pb_CapabilityRequired pb = "" \/ AllowedCapabilities (pb_CapabilityRequired pb) = true)
  /\ exists acc,
       AccountFromCtx c = Some acc
       /\ (forall m, GlobalMaxPerTask acc = Some m -> pb_Budget pb <= m)
       /\ (forall m, GlobalMaxPerDay acc = Some m ->
             exists spent,
               dailySpendFn (acc_ID acc) s = Some spent
               /\ GoInt.add spent (pb_Budget pb) <= m
               /\ (- 2 ^ 63 <= spent + pb_Budget pb < 2 ^ 63 -> spent + pb_Budget pb <= m)).
Proof.
  unfold BudgetCheck. intros H.
  destruct (AccountFromCtx c) as [acc|]; [|done].
  destruct peek as [peek|]; [|done].
  destruct (Z.leb_spec (pb_Budget peek) 0) as [|Hpos]; [done|].
  destruct (negb (String.eqb (pb_CapabilityRequired peek) "")
            && negb (AllowedCapabilities (pb_CapabilityRequired peek))) eqn:Hcap; [done|].
  assert (pb_CapabilityRequired peek = ""
          \/ AllowedCapabilities (pb_CapabilityRequired peek) = true) as Hcap'.
  { apply andb_false_iff in Hcap as [Hc|Hc]; apply negb_false_iff in Hc.
    - left. by apply String.eqb_eq.
    - by right. }
  destruct (match GlobalMaxPerTask acc with
            | Some m => pb_Budget peek >? m
            | None => false
            end) eqn:Htask; [done|].
  assert (forall m, GlobalMaxPerTask acc = Some m -> pb_Budget peek <= m) as Htask'.
  { intros m Hm. rewrite Hm in Htask. lia. }
  destruct (GlobalMaxPerDay acc) as [m|] eqn:Hday.
  - destruct (dailySpendFn (acc_ID acc) s) as [spent|] eqn:Hspent; [|done].
    destruct (Z.gtb_spec (GoInt.add spent (pb_Budget peek)) m) as [|Hle]; [done|].
    injection H as <-. split; [done|]. split; [done|]. split; [done|].
    exists acc. split; [done|]. split; [done|].
    intros m' Hm'. assert (m' = m) as -> by congruence.
    exists spent. split; [done|]. split; [done|].
    intros Hrange. unfold GoInt.add in Hle. by rewrite wrap64_small in Hle.
  - injection H as <-. split; [done|]. split; [done|]. split; [done|].
    exists acc. split; [done|]. split; [done|]. intros m Hm. congruence.
Qed.

Lemma BudgetCheck_Reject c peek s status why :
  BudgetCheck dailySpendFn c peek s = Reject status why -> status <> StatusAccepted.
Proof.
  unfold BudgetCheck. intros H. repeat case_match; by simplify_eq.
Qed.

(** X17.  What [BudgetCheck] lets through.  A request reaches the handler
    only if its context has an account and its body unmarshals, with a
    budget above 0, a capability that is empty or one of the three allowed
    ones, a budget within the account's per-task limit when it has one,
    and, when the account has a daily limit, a daily spend that could be
    read and that, added to the budget as Go adds, is within that limit;
    without overflow of the addition the sum itself is within the limit.
    The store plays no part beyond the daily spend. *)
Theorem budget_check_lets_through c peek s pb :
  BudgetCheck dailySpendFn c peek s = Next pb ->
  peek = Some pb
  /\ 0 < pb_Budget pb
  /\ (pb_CapabilityRequired pb = "" \/ AllowedCapabilities (pb_CapabilityRequired pb) = true)
  /\ exists acc,
       AccountFromCtx c = Some acc
       /\ (forall m, GlobalMaxPerTask acc = Some m -> pb_Budget pb <= m)
       /\ (forall m, GlobalMaxPerDay acc = Some m ->
             exists spent,
               dailySpendFn (acc_ID acc) s = Some spent
               /\ GoInt.add spent (pb_Budget pb) <= m
               /\ (- 2 ^ 63 <= spent + pb_Budget pb < 2 ^ 63 -> spent + pb_Budget pb <= m)).
Proof. apply BudgetCheck_Next. Qed.

End BudgetFacts.

Lemma budget_check_lets_through_witness :
  BudgetCheck no_spend (mkCtx (Some (mkAccountCtx 10 (Some 500) (Some 1000))) None)
              (Some (mkParsedBudget 100 "research")) demo_store
  = Next (mkParsedBudget 100 "research")
  /\ 0 < 100 /\ 100 <= 500.
Proof.
  split; [reflexivity|].
  destruct (budget_check_lets_through no_spend
              (mkCtx (Some (mkAccountCtx 10 (Some 500) (Some 1000))) None)
              (Some (mkParsedBudget 100 "research")) demo_store
              (mkParsedBudget 100 "research") eq_refl)
    as (_ & Hpos & _ & acc & Hacc & Htask & _).
  split; [exact Hpos|]. injection Hacc as <-. by apply Htask.
Defined.

(** ** The daily spend *)

Lemma adds_no_lock_ret {A} (a : A) : adds_no_lock (ret a).
Proof. intros s. exists []. by rewrite app_nil_r. Qed.

Lemma adds_no_lock_fail {A} e : adds_no_lock (@fail A e).
Proof. intros s. exists []. by rewrite app_nil_r. Qed.

Lemma adds_no_lock_bind {A B} (m : M A) (k : A -> M B) :
  adds_no_lock m -> (forall a, adds_no_lock (k a)) -> adds_no_lock (bind m k).
Proof.
  intros Hm Hk s. unfold bind. destruct (Hm s) as (l1 & Hl1 & Hf1).
  destruct (m s) as [[e|a] s1]; simpl in *; [by exists l1|].
  destruct (Hk a s1) as (l2 & Hl2 & Hf2). exists (l1 ++ l2).
  rewrite Hl2, Hl1, app_assoc. split; [done|]. by apply Forall_app.
Qed.

Lemma adds_no_lock_GetByIDForUpdate id : adds_no_lock (GetByIDForUpdate id).
Proof.
  intros s. exists []. rewrite app_nil_r. unfold GetByIDForUpdate.
  by destruct (accounts s !! id).
Qed.

Lemma adds_no_lock_AddCredits id amount : adds_no_lock (AddCredits id amount).
Proof.
  intros s. exists []. rewrite app_nil_r. unfold AddCredits. by repeat case_match.
Qed.

Lemma adds_no_lock_CreateTx c :
  EntryType c <> CreditEntryEscrowLock -> adds_no_lock (CreateTx c).
Proof.
  intros Hc s. unfold CreateTx. case_match.
  - exists [c]. split; [done|]. by repeat constructor.
  - exists []. by rewrite app_nil_r.
Qed.

Lemma adds_no_lock_for_each ids : adds_no_lock (for_each GetByIDForUpdate ids).
Proof.
  induction ids as [|id ids IH]; [apply adds_no_lock_ret|].
  simpl. apply adds_no_lock_bind; [apply adds_no_lock_GetByIDForUpdate|done].
Qed.

Lemma adds_no_lock_SettleTask t r w B C : adds_no_lock (SettleTask t r w B C).
Proof.
  unfold SettleTask.
  apply adds_no_lock_bind; [apply adds_no_lock_for_each|]. intros _.
  apply adds_no_lock_bind; [apply adds_no_lock_AddCredits|]. intros nw.
  apply adds_no_lock_bind; [by apply adds_no_lock_CreateTx|]. intros _.
  apply adds_no_lock_bind; [apply adds_no_lock_AddCredits|]. intros np.
  apply adds_no_lock_bind; [by apply adds_no_lock_CreateTx|]. intros _.
  case_match; [|apply adds_no_lock_ret].
  apply adds_no_lock_bind; [apply adds_no_lock_AddCredits|]. intros.
  by apply adds_no_lock_CreateTx.
Qed.

Lemma adds_no_lock_SettleError t r B : adds_no_lock (SettleError t r B).
Proof.
  unfold SettleError. case_match; [apply adds_no_lock_ret|].
  apply adds_no_lock_bind; [apply adds_no_lock_GetByIDForUpdate|]. intros _.
  apply adds_no_lock_bind; [apply adds_no_lock_AddCredits|]. intros.
  by apply adds_no_lock_CreateTx.
Qed.

Lemma defaultDailySpend_app midnight a s s' l :
  (midnight <= length (credit_ledger s))%nat ->
  credit_ledger s' = credit_ledger s ++ l ->
  defaultDailySpend midnight a s'
  = defaultDailySpend midnight a s
    + fold_right (fun e acc =>
                    if (AccountID e =? a)%N && String.eqb (EntryType e) CreditEntryEscrowLock
                    then Amount e + acc else acc) 0 l.
Proof.
  intros Hm Hl. unfold defaultDailySpend. rewrite Hl, drop_app_le by done.
  induction (drop midnight (credit_ledger s)) as [|e rest IH]; simpl; [lia|].
  rewrite IH. case_match; lia.
Qed.

Lemma defaultDailySpend_no_lock {A} (m : M A) midnight a s :
  adds_no_lock m ->
  (midnight <= length (credit_ledger s))%nat ->
  defaultDailySpend midnight a (m s).2 = defaultDailySpend midnight a s.
Proof.
  intros Hm Hlen. destruct (Hm s) as (l & Hl & Hf).
  rewrite (defaultDailySpend_app midnight a s _ l Hlen Hl).
  clear Hl. induction Hf as [|e l He Hf IH]; simpl; [lia|].
  destruct (String.eqb_spec (EntryType e) CreditEntryEscrowLock) as [|_]; [done|].
  by rewrite andb_false_r.
Qed.

(** X18.  The daily spend that [BudgetCheck] reads counts the locks of the
    day and nothing else.  A [LockCredits] that returns without error
    raises the daily spend of its account by the amount locked and leaves
    that of every other account alone; [SettleTask] and [RefundFailed],
    whatever they are given and however they end, leave every daily spend
    where it was: a task that is refunded still counts against the day's
    limit of its requester. *)
Theorem daily_spend_counts_locks_only midnight s :
  (midnight <= length (credit_ledger s))%nat ->
  (forall a t B s1 a',
      LockCredits a t B s = (inr tt, s1) ->
      defaultDailySpend midnight a' s1
      = defaultDailySpend midnight a' s + if (a =? a')%N then B else 0)
  /\ (forall t r w B C a',
        defaultDailySpend midnight a' (SettleTask t r w B C s).2
        = defaultDailySpend midnight a' s)
  /\ (forall t r B a',
        defaultDailySpend midnight a' (RefundFailed t r B s).2
        = defaultDailySpend midnight a' s).
Proof.
  intros Hlen. split; [|split].
  - intros a t B s1 a' H. apply LockCredits_inr in H as (_ & _ & _ & _ & _ & _ & _ & Hl & _).
    rewrite (defaultDailySpend_app midnight a' s s1 _ Hlen Hl). simpl.
    change (String.eqb CreditEntryEscrowLock CreditEntryEscrowLock) with true.
    rewrite andb_true_r. destruct (a =? a')%N; lia.
  - intros. apply defaultDailySpend_no_lock; [apply adds_no_lock_SettleTask|done].
  - intros. apply defaultDailySpend_no_lock; [apply adds_no_lock_SettleError|done].
Qed.

Lemma daily_spend_counts_locks_only_witness :
  let s1 := (LockCredits 10%N 7%N 100 demo_store).2 in
  let s2 := (RefundFailed 7%N 10%N 100 s1).2 in
  defaultDailySpend 0 10%N s1 = 100
  /\ balance s2 10%N = balance demo_store 10%N
  /\ defaultDailySpend 0 10%N s2 = 100.
Proof.
  destruct (daily_spend_counts_locks_only 0 demo_store ltac:(simpl; lia)) as (Hlock & _ & _).
  destruct (daily_spend_counts_locks_only 0 (LockCredits 10%N 7%N 100 demo_store).2
              ltac:(simpl; lia)) as (_ & _ & Hrefund).
  split; [|split].
  - rewrite (Hlock 10%N 7%N 100 (LockCredits 10%N 7%N 100 demo_store).2 10%N)
      by (vm_compute; reflexivity).
    reflexivity.
  - vm_compute; reflexivity.
  - cbv zeta. rewrite Hrefund.
    rewrite (Hlock 10%N 7%N 100 (LockCredits 10%N 7%N 100 demo_store).2 10%N)
      by (vm_compute; reflexivity).
    reflexivity.
Defined.

(** ** Creating a task *)

(** Every way [CreateTask] can end: an answer other than 202 with the
    store as it was, or the budget locked and the task inserted and then,
    as the commit goes, 202 or 500 with the lock undone. *)
Lemma CreateTask_outcome c newID body commits s resp s' :
  CreateTask c newID body commits s = (resp, s') ->
  (code resp <> StatusAccepted /\ s' = s)
  \/ (exists acc req rid s1,
         ctx_account c = Some acc /\ body = Some req
         /\ ct_RequesterAgentID req = Some rid
         /\ ct_CapabilityRequired req <> "" /\ 0 < ct_Budget req
         /\ ct_Verdict req = Conforms
         /\ LockCredits (acc_ID acc) newID (ct_Budget req) s = (inr tt, s1)
         /\ task_encodes (created_task newID rid req) = true
         /\ tasks s !! newID = None
         /\ (resp, s')
            = let stored := set_tasks (insert newID (task_row (created_task newID rid req))) s1 in
              if commits
              then (mkResponse StatusAccepted (ResultBody newID TaskStatusMatching), stored)
              else (mkResponse StatusInternalServerError (ErrorBody "internal error"),
                    rollback s stored)).
Proof.
  unfold CreateTask, AccountFromCtx. intros H.
  destruct (ctx_account c) as [acc|]; [|left; by simplify_eq].
  destruct body as [req|]; [|left; by simplify_eq].
  destruct (ct_RequesterAgentID req) as [rid|] eqn:Hrid; [|left; by simplify_eq].
  destruct (String.eqb_spec (ct_CapabilityRequired req) "") as [|Hcap];
    [left; by simplify_eq|].
  destruct (Z.leb_spec (ct_Budget req) 0) as [|Hpos]; [left; by simplify_eq|].
  destruct (ct_Verdict req) eqn:Hv; [|left; by simplify_eq..].
  cbn [ID Budget] in H.
  destruct (keeps_tasks_LockCredits (acc_ID acc) newID (ct_Budget req) s) as [Hk Hg].
  destruct (LockCredits (acc_ID acc) newID (ct_Budget req) s) as [[e|[]] s1] eqn:Hlock;
    simpl in Hk, Hg.
  { left. rewrite rollback_same in H by done. destruct e; by simplify_eq. }
  unfold TaskRepo_Create in H. cbn [ID set_status] in H.
  change (set_status _ TaskStatusMatching) with (created_task newID rid req) in H.
  destruct (task_encodes (created_task newID rid req)) eqn:Henc.
  2:{ left. rewrite rollback_same in H by done. by simplify_eq. }
  rewrite Hk in H.
  destruct (tasks s !! newID) eqn:Hnew.
  { left. rewrite rollback_same in H by done. by simplify_eq. }
  right. exists acc, req, rid, s1. by rewrite <- H.
Qed.

(** An answer of 202 is given after a commit, with lock and task stored. *)
Lemma CreateTask_accepted c newID body commits s resp s' :
  CreateTask c newID body commits s = (resp, s') -> code resp = StatusAccepted ->
  commits = true
  /\ exists acc req rid s1,
       ctx_account c = Some acc /\ body = Some req
       /\ ct_RequesterAgentID req = Some rid
       /\ ct_CapabilityRequired req <> "" /\ 0 < ct_Budget req
       /\ ct_Verdict req = Conforms
       /\ resp = mkResponse StatusAccepted (ResultBody newID TaskStatusMatching)
       /\ LockCredits (acc_ID acc) newID (ct_Budget req) s = (inr tt, s1)
       /\ task_encodes (created_task newID rid req) = true
       /\ tasks s !! newID = None
       /\ s' = set_tasks (insert newID (task_row (created_task newID rid req))) s1.
Proof.
  intros H Hcode. apply CreateTask_outcome in H as [[? _]|H]; [done|].
  destruct H as (acc & req & rid & s1 & ? & ? & ? & ? & ? & ? & ? & ? & ? & H).
  cbv zeta in H. destruct commits; injection H as -> ->; [|done].
  split; [done|]. by exists acc, req, rid, s1.
Qed.

(** Any other answer has moved no credits; the tasks table is as it was
    unless it is the commit that failed. *)
Lemma CreateTask_rejected c newID body commits s resp s' :
  CreateTask c newID body commits s = (resp, s') -> code resp <> StatusAccepted ->
  accounts s' = accounts s /\ credit_ledger s' = credit_ledger s /\ agents s' = agents s
  /\ (commits = true -> s' = s)
  /\ (tasks s' <> tasks s ->
      commits = false
      /\ resp = mkResponse StatusInternalServerError (ErrorBody "internal error")
      /\ exists req rid,
           body = Some req /\ ct_RequesterAgentID req = Some rid
           /\ tasks s !! newID = None
           /\ tasks s' = <[newID := task_row (created_task newID rid req)]> (tasks s)).
Proof.
  intros H Hcode. apply CreateTask_outcome in H as [[_ ->]|H]; [done|].
  destruct H as (acc & req & rid & s1 & ? & ? & ? & ? & ? & ? & Hlock & ? & ? & H).
  destruct (keeps_tasks_LockCredits (acc_ID acc) newID (ct_Budget req) s) as [Hk Hg].
  rewrite Hlock in Hk, Hg. simpl in Hk, Hg.
  cbv zeta in H. destruct commits; injection H as -> ->; [done|].
  split; [done|]. split; [done|]. split; [done|]. split; [done|].
  intros _. split; [done|]. split; [done|]. exists req, rid.
  split; [done|]. split; [done|]. split; [done|]. simpl. by rewrite Hk.
Qed.

(** X19.  [CreateTask] locks the budget or moves no credits.  An answer
    other than 202 means that every account and the ledger are as before
    the call.  When the commit succeeds the whole store is as before.  The
    tasks table differs only when [tx.Commit] returned an error: the answer
    is then 500, and the row that [TaskRepo.Create] inserted on the pool
    before the commit is there, in state matching, with no credits locked
    for it.  An answer of 202 means that the request named a capability and
    a budget above 0 and passed validation, that the budget has been taken
    from the account of the API key (whose balance covered it) with an
    escrow_lock entry written for the new task, and that the task is
    stored under the new id, which was free, in state matching with no
    worker and retry count 0.  The requester agent named in the body is
    stored as it is: it is not compared with the account that pays. *)
Theorem create_task_locks_or_moves_no_credits c newID body commits s resp s' :
  CreateTask c newID body commits s = (resp, s') ->
  (code resp <> StatusAccepted ->
   accounts s' = accounts s /\ credit_ledger s' = credit_ledger s /\ agents s' = agents s
   /\ (commits = true -> s' = s)
   /\ (tasks s' <> tasks s ->
       commits = false
       /\ resp = mkResponse StatusInternalServerError (ErrorBody "internal error")
       /\ exists req rid,
            body = Some req /\ ct_RequesterAgentID req = Some rid
            /\ tasks s !! newID = None
            /\ tasks s' = <[newID := task_row (created_task newID rid req)]> (tasks s)))
  /\ (code resp = StatusAccepted ->
      exists acc req rid,
        ctx_account c = Some acc /\ body = Some req
        /\ ct_RequesterAgentID req = Some rid
        /\ ct_CapabilityRequired req <> "" /\ 0 < ct_Budget req
        /\ ct_Verdict req = Conforms
        /\ resp = mkResponse StatusAccepted (ResultBody newID TaskStatusMatching)
        /\ ct_Budget req <= balance s (acc_ID acc)
        /\ (forall a, balance s' a
                      = balance s a - if (acc_ID acc =? a)%N then ct_Budget req else 0)
        /\ credit_ledger s'
           = credit_ledger s
             ++ [lock_entry (acc_ID acc) newID (ct_Budget req)
                            (balance s (acc_ID acc) - ct_Budget req)]
        /\ tasks s !! newID = None
        /\ tasks s' = <[newID := task_row (created_task newID rid req)]> (tasks s)
        /\ agents s' = agents s).
Proof.
  intros H. split; [by apply (CreateTask_rejected c newID body)|].
  intros Hcode. apply CreateTask_accepted in H as [_ H]; [|done].
  destruct H as (acc & req & rid & s1 & Hc & Hb & Hrid & Hcap & Hpos & Hv & -> & Hlock & _
                 & Hnew & ->).
  apply LockCredits_inr in Hlock as (Hle & _ & _ & _ & _ & Hbal & _ & Hl & Hk & Hg).
  exists acc, req, rid. repeat split; try done. simpl. by rewrite Hk.
Qed.

Lemma create_task_locks_or_moves_no_credits_witness :
  let c := mkCtx (Some (mkAccountCtx 10 None None)) (Some agent100) in
  let req := mkCreateTask (Some 100%N) CapabilityResearch (Some "quick") Conforms 100 "" in
  let failed := CreateTask c 9%N (Some req) false demo_store in
  (exists s',
      CreateTask c 9%N (Some req) true demo_store
      = (mkResponse StatusAccepted (ResultBody 9%N TaskStatusMatching), s')
      /\ balance s' 10%N = 900
      /\ tasks s' !! 9%N = Some (task_row (created_task 9%N 100%N req)))
  /\ code failed.1 = StatusInternalServerError
  /\ accounts failed.2 = accounts demo_store
  /\ credit_ledger failed.2 = credit_ledger demo_store
  /\ tasks failed.2 !! 9%N = Some (task_row (created_task 9%N 100%N req)).
Proof.
  intros c req failed. split.
  - eexists. split; [vm_compute; reflexivity|].
    match goal with |- context [balance ?x _] => set (s' := x) end.
    destruct (create_task_locks_or_moves_no_credits c 9%N (Some req) true demo_store
                (mkResponse StatusAccepted (ResultBody 9%N TaskStatusMatching)) s')
      as [_ H]; [vm_compute; reflexivity|].
    destruct (H eq_refl) as (acc & req' & rid & Hc & Hb & Hrid & _ & _ & _ & _ & _ & Hbal & _ & _
                             & Hk & _).
    injection Hc as <-. injection Hb as <-. injection Hrid as <-.
    split; [by rewrite Hbal|]. rewrite Hk. apply lookup_insert_eq.
  - destruct (create_task_locks_or_moves_no_credits c 9%N (Some req) false demo_store
                failed.1 failed.2) as [H _]; [apply surjective_pairing|].
    destruct H as (Ha & Hl & _); [vm_compute; discriminate|].
    split; [vm_compute; reflexivity|]. split; [exact Ha|]. split; [exact Hl|].
    vm_compute; reflexivity.
Defined.

(** X20.  Insufficient funds are answered 402 and nothing is stored.  For
    a request that names a requester agent and a capability, with a budget
    above 0 and a payload that conforms, [CreateTask] answers 402 when the
    balance of the account of the API key is below the budget, and 500
    when there is no such account; in both cases no task is created and
    the store is unchanged. *)
Theorem create_task_insufficient_funds c newID req commits s acc rid :
  ctx_account c = Some acc ->
  ct_RequesterAgentID req = Some rid ->
  ct_CapabilityRequired req <> "" -> 0 < ct_Budget req ->
  ct_Verdict req = Conforms ->
  (forall a, accounts s !! acc_ID acc = Some a -> CreditBalance a < ct_Budget req) ->
  CreateTask c newID (Some req) commits s
  = (match accounts s !! acc_ID acc with
     | Some _ => mkResponse StatusPaymentRequired (ErrorBody "insufficient funds")
     | None => mkResponse StatusInternalServerError (ErrorBody "failed to lock credits")
     end, s).
Proof.
  intros Hc Hrid Hcap Hpos Hv Hbal. unfold CreateTask, AccountFromCtx.
  rewrite Hc, Hrid, Hv.
  assert (String.eqb (ct_CapabilityRequired req) "" = false) as -> by (by apply String.eqb_neq).
  assert ((ct_Budget req <=? 0) = false) as -> by lia.
  cbn [ID Budget]. rewrite LockCredits_cases.
  destruct (accounts s !! acc_ID acc) as [a|] eqn:Ha.
  - assert ((CreditBalance a <? ct_Budget req) = true) as -> by (specialize (Hbal a eq_refl); lia).
    by rewrite rollback_same.
  - by rewrite rollback_same.
Qed.

Lemma create_task_insufficient_funds_witness :
  CreateTask (mkCtx (Some (mkAccountCtx 20 None None)) (Some agent200)) 9%N
             (Some (mkCreateTask (Some 200%N) CapabilityResearch (Some "quick") Conforms 500 ""))
             true demo_store
  = (mkResponse StatusPaymentRequired (ErrorBody "insufficient funds"), demo_store).
Proof.
  apply (create_task_insufficient_funds
           (mkCtx (Some (mkAccountCtx 20 None None)) (Some agent200)) 9%N
           (mkCreateTask (Some 200%N) CapabilityResearch (Some "quick") Conforms 500 "")
           true demo_store (mkAccountCtx 20 None None) 200%N);
    [reflexivity|reflexivity|discriminate|simpl; lia|reflexivity|].
  intros a Ha. vm_compute in Ha. injection Ha as <-. simpl. lia.
Defined.

(** ** The route POST /v1/tasks *)

Lemma AllowedCapabilities_deadline capability input :
  AllowedCapabilities capability = true ->
  GetDeadline capability input <> inl ErrUnknownCapability.
Proof.
  unfold AllowedCapabilities, GetDeadline. intros H.
  change "research"%string with CapabilityResearch in H.
  change "summarize"%string with CapabilitySummarize in H.
  change "data_extraction"%string with CapabilityDataExtraction in H.
  destruct (String.eqb capability CapabilityResearch).
  { destruct input; by repeat case_match. }
  destruct (String.eqb capability CapabilitySummarize); [done|].
  by destruct (String.eqb capability CapabilityDataExtraction).
Qed.

(** X21.  A task accepted at POST /v1/tasks is within the limits of the
    account that pays for it.  When the chain of [APIKeyAuth],
    [BudgetCheck] and [CreateTask] answers 202 on one body, the token is
    that of an active key; the capability is one of the three allowed
    ones, so that [GetDeadline] knows it; the budget is above 0, within
    the per-task limit of the key's account if it has one and, added to
    the day's spend as Go adds, within its daily limit if it has one; and
    the budget has been taken from that account.  On every other answer
    no credits have moved: accounts and ledger are as before the call, and
    so is the whole store unless the commit failed. *)
Theorem accepted_task_is_within_limits hashKey api_keys limits dailySpendFn
        raw newID peek body commits s resp s' :
  same_body peek body ->
  post_tasks hashKey api_keys limits dailySpendFn raw newID peek body commits s = (resp, s') ->
  (code resp <> StatusAccepted ->
   accounts s' = accounts s /\ credit_ledger s' = credit_ledger s
   /\ (commits = true -> s' = s))
  /\ (code resp = StatusAccepted ->
      exists k req,
        k ∈ api_keys /\ KeyHash k = hashKey raw /\ IsActive k = true
        /\ body = Some req
        /\ AllowedCapabilities (ct_CapabilityRequired req) = true
        /\ GetDeadline (ct_CapabilityRequired req) (ct_InputPayload req)
           <> inl ErrUnknownCapability
        /\ 0 < ct_Budget req
        /\ (forall m, (limits (key_AccountID k)).1 = Some m -> ct_Budget req <= m)
        /\ (forall m, (limits (key_AccountID k)).2 = Some m ->
              exists spent, dailySpendFn (key_AccountID k) s = Some spent
                            /\ GoInt.add spent (ct_Budget req) <= m)
        /\ balance s' (key_AccountID k) = balance s (key_AccountID k) - ct_Budget req).
Proof.
  intros Hsame H. unfold post_tasks in H.
  destruct (APIKeyAuth hashKey api_keys limits raw s) as [status why|c] eqn:Hauth.
  { injection H as <- <-. split; [done|]. simpl. intros ->.
    unfold APIKeyAuth in Hauth. repeat case_match; by simplify_eq. }
  destruct (BudgetCheck dailySpendFn c peek s) as [status why|pb] eqn:Hgate.
  { injection H as <- <-. split; [done|]. simpl. intros ->.
    by apply BudgetCheck_Reject in Hgate. }
  split.
  { intros Hcode.
    destruct (CreateTask_rejected _ _ _ _ _ _ _ H Hcode) as (? & ? & _ & ? & _). done. }
  intros Hcode. apply CreateTask_accepted in H as [_ H]; [|done].
  destruct H as (acc & req & rid & s1 & Hc & Hb & Hrid & Hcap & Hpos & Hv & -> & Hlock & _
                 & Hnew & ->).
  destruct (APIKeyAuth_Next _ _ _ _ _ _ Hauth)
    as (_ & acc' & k & Hc' & Hin & Hh & Ha & Hk & _).
  assert (acc' = acc) as -> by congruence.
  destruct (BudgetCheck_Next _ _ _ _ _ Hgate)
    as (Hpeek & _ & Hallowed & acc' & Hacc' & Htask & Hday).
  assert (acc' = acc) as -> by (unfold AccountFromCtx in Hacc'; congruence).
  destruct (Hsame pb req Hpeek Hb) as [Hbudget Hcapab].
  rewrite Hbudget in Htask, Hday. rewrite Hcapab in Hallowed.
  destruct Hallowed as [|Hallowed]; [done|].
  assert (acc = mkAccountCtx (key_AccountID k) (limits (key_AccountID k)).1
                             (limits (key_AccountID k)).2) as Hacc.
  { unfold APIKeyAuth in Hauth. destruct (String.eqb raw ""); [done|].
    unfold FindByKeyHash in Hauth.
    destruct (List.find _ api_keys) as [k'|]; [|done].
    injection Hauth as <-. injection Hc as <-. simpl in Hk. by rewrite Hk. }
  apply LockCredits_inr in Hlock as (_ & _ & _ & _ & _ & Hbal & _).
  subst acc. cbn [acc_ID GlobalMaxPerTask GlobalMaxPerDay] in *.
  exists k, req.
  split; [done|]. split; [done|]. split; [done|]. split; [done|]. split; [done|].
  split; [by apply AllowedCapabilities_deadline|]. split; [done|].
  split; [done|]. split.
  { intros m Hm. destruct (Hday m Hm) as (spent & Hs & Hle & _). by exists spent. }
  change (balance (set_tasks _ s1) (key_AccountID k)) with (balance s1 (key_AccountID k)).
  by rewrite Hbal, N.eqb_refl.
Qed.

Lemma accepted_task_is_within_limits_witness :
  let req := mkCreateTask (Some 100%N) CapabilityResearch (Some "quick") Conforms 100 "" in
  let out := post_tasks demo_hash demo_keys demo_limits no_spend "key-10" 9%N
                        (Some (mkParsedBudget 100 CapabilityResearch)) (Some req) true
                        demo_store in
  out.1 = mkResponse StatusAccepted (ResultBody 9%N TaskStatusMatching)
  /\ exists k, k ∈ demo_keys /\ balance out.2 (key_AccountID k)
                               = balance demo_store (key_AccountID k) - 100.
Proof.
  intros req out. split; [vm_compute; reflexivity|].
  destruct (accepted_task_is_within_limits demo_hash demo_keys demo_limits no_spend "key-10"
              9%N (Some (mkParsedBudget 100 CapabilityResearch)) (Some req) true demo_store
              out.1 out.2) as [_ H].
  - intros pb req' [= <-] [= <-]. by split.
  - vm_compute; reflexivity.
  - destruct H as (k & req' & Hin & _ & _ & Hb & _ & _ & _ & _ & _ & Hbal);
      [vm_compute; reflexivity|].
    injection Hb as <-. by exists k.
Defined.

(** ** From creation to refund *)

Lemma LockCredits_system a t B s u s1 :
  LockCredits a t B s = (inr u, s1) ->
  forall id, IsSystemAccount <$> accounts s1 !! id = IsSystemAccount <$> accounts s !! id.
Proof.
  intros H id. rewrite LockCredits_cases in H.
  destruct (accounts s !! a) as [acc|] eqn:Hacc; [|discriminate].
  destruct (CreditBalance acc <? B); [discriminate|].
  destruct (in_int4 B && in_int4 (CreditBalance acc - B)); [|discriminate].
  injection H as H. subst s1. simpl. destruct (decide (a = id)) as [<-|Hne].
  - by rewrite lookup_insert_eq, Hacc.
  - by rewrite lookup_insert_ne.
Qed.

Lemma eligible_same_accounts s s1 task excludeID a :
  (forall id, IsSystemAccount <$> accounts s1 !! id = IsSystemAccount <$> accounts s !! id) ->
  eligible s1 task excludeID a = eligible s task excludeID a.
Proof.
  intros Hsys. unfold eligible, available_worker. specialize (Hsys (ag_AccountID a)).
  destruct (accounts s1 !! ag_AccountID a) as [ac1|],
           (accounts s !! ag_AccountID a) as [ac|]; simpl in Hsys; try done.
  by injection Hsys as ->.
Qed.

Section Lifecycle.

Variable url_parses : string -> bool.

(** X22.  A task that is created and finds no worker is refunded to the
    account of the requester agent it names.  After [CreateTask] has
    answered 202, with the budget taken from the account of the API key,
    [DispatchTask] on the task that was stored, when no agent is eligible,
    sends nothing, fails the task and credits the whole budget to the
    account that owns the requester agent of the request.  Every balance
    ends as it began, less the budget for the account that paid, plus the
    budget for the account that was refunded; they are the same account
    exactly when the caller named an agent of its own. *)
Theorem unmatched_task_refunds_named_requester script c newID req commits s resp s1 acc rid ra :
  CreateTask c newID (Some req) commits s = (resp, s1) ->
  code resp = StatusAccepted ->
  ctx_account c = Some acc ->
  ct_RequesterAgentID req = Some rid ->
  agent_row s rid = Some ra ->
  List.filter (eligible s (created_task newID rid req) uuid_Nil) (agents s) = [] ->
  room_for s (ct_Budget req) (ag_AccountID ra) ->
  exists w',
    DispatchTask url_parses script (created_task newID rid req) (world0 s1)
    = Some (inr tt, w')
    /\ posts w' = [] /\ watchers w' = []
    /\ (Status <$> tasks (store w') !! newID) = Some TaskStatusFailed
    /\ (forall a, balance (store w') a
                  = balance s a
                    - (if (acc_ID acc =? a)%N then ct_Budget req else 0)
                    + (if (ag_AccountID ra =? a)%N then ct_Budget req else 0)).
Proof.
  intros H Hcode Hc Hrid Hra Hnone (Hsome & Hlo & Hhi).
  apply CreateTask_accepted in H as [_ H]; [|done].
  destruct H as (acc' & req' & rid' & s0 & Hc' & Hb & Hrid' & _ & Hpos & _ & _ & Hlock & Henc
                 & Hnew & ->).
  injection Hb as <-. assert (acc' = acc) as -> by congruence.
  assert (rid' = rid) as -> by congruence.
  pose proof (LockCredits_system _ _ _ _ _ _ Hlock) as Hsys.
  apply LockCredits_inr in Hlock as (Hle & _ & _ & Hd & _ & Hbal & Hdom & _ & Hk & Hg).
  apply in_int4_spec in Hd.
  set (task := created_task newID rid req) in *.
  set (s1 := set_tasks _ s0).
  assert (forall a, balance s1 a = balance s0 a) as Hb1 by done.
  unfold DispatchTask.
  destruct (FindBestWorker_eligible task s1) as (r & Hr & Hiff & _).
  unfold on_pool at 1. cbn [store world0]. rewrite Hr.
  assert (r = None) as ->.
  { apply Hiff. change (agents s1) with (agents s0). rewrite Hg, <- Hnone.
    apply List.filter_ext. intros a. by apply eligible_same_accounts. }
  unfold with_store, failNoWorker. cbn [posts watchers world0].
  destruct (refundAndFail_refunds task (task_row task) ra (mkWorld s1 [] []))
    as (w' & -> & Hp & Hw & ((row & Hrow & Hst & _) & _) & Hacc).
  { simpl. apply lookup_insert_eq. }
  { done. }
  { simpl. lia. }
  { cbn [store]. rewrite (agent_row_agents s s1); [done|]. change (agents s1) with (agents s0).
    done. }
  { cbn [store]. split; [by apply Hdom|]. rewrite Hb1, Hbal. cbn [Budget task created_task].
    destruct (acc_ID acc =? ag_AccountID ra)%N eqn:E; [|lia].
    apply N.eqb_eq in E. rewrite <- E in *. lia. }
  exists w'. split; [done|]. split; [done|]. split; [done|]. split.
  { change (ID task) with newID in Hrow. by rewrite Hrow, <- Hst. }
  intros a. cbn [store Budget task created_task] in Hacc.
  unfold balance at 1. rewrite Hacc.
  destruct (N.eqb_spec (ag_AccountID ra) a) as [<-|Hne].
  - rewrite lookup_insert_eq. cbn [CreditBalance]. rewrite Hb1, Hbal. lia.
  - rewrite lookup_insert_ne by done. fold (balance s1 a). rewrite Hb1, Hbal. lia.
Qed.

End Lifecycle.

Lemma unmatched_task_refunds_named_requester_witness :
  let c := mkCtx (Some (mkAccountCtx 10 None None)) (Some agent100) in
  let req := mkCreateTask (Some 200%N) CapabilitySummarize (Some "") Conforms 100 "" in
  let s := mkStore (accounts demo_store) [agent200; agent100] ∅ [] in
  let s1 := (CreateTask c 9%N (Some req) true s).2 in
  exists w',
    DispatchTask any_url [] (created_task 9%N 200%N req) (world0 s1) = Some (inr tt, w')
    /\ balance (store w') 10%N = 900 /\ balance (store w') 20%N = 300.
Proof.
  intros c req s s1.
  destruct (unmatched_task_refunds_named_requester any_url [] c 9%N req true s
              (mkResponse StatusAccepted (ResultBody 9%N TaskStatusMatching)) s1
              (mkAccountCtx 10 None None) 200%N agent200)
    as (w' & H & _ & _ & _ & Hbal);
    [vm_compute; reflexivity|reflexivity|reflexivity|reflexivity|reflexivity
    |reflexivity|solve_room|].
  exists w'. split; [exact H|]. rewrite !Hbal. by vm_compute.
Defined.

(** ** Prices *)

(** X23.  The default prices are keyed by the display names of the
    capabilities ("Research", "Summarize", "Data Extraction"), which are
    not the names that [BudgetCheck] allows.  So for every allowed
    capability the default price is 0, and the price [getPricingPerTask]
    gives an agent is either a positive price that its capabilities_offered
    lists for the capability, or 0: an agent with NULL capabilities_offered,
    or with no positive price for the capability, is within every budget
    that is not negative. *)
Theorem unlisted_price_is_zero capability :
  AllowedCapabilities capability = true ->
  defaultPriceByCapability capability = 0
  /\ getPricingPerTask None capability = 0
  /\ (forall caps,
        getPricingPerTask (Some caps) capability = 0
        \/ (0 < getPricingPerTask (Some caps) capability
            /\ (capability, getPricingPerTask (Some caps) capability) ∈ caps))
  /\ (forall caps budget, 0 <= budget ->
        (forall price, (capability, price) ∈ caps -> price <= 0) ->
        getPricingPerTask (Some caps) capability <= budget).
Proof.
  intros Hallowed.
  assert (defaultPriceByCapability capability = 0) as Hdef.
  { unfold AllowedCapabilities in Hallowed. unfold defaultPriceByCapability.
    apply orb_prop in Hallowed as [Hallowed|Hallowed];
      [apply orb_prop in Hallowed as [Hallowed|Hallowed]|];
      apply String.eqb_eq in Hallowed; by subst capability. }
  assert (forall caps,
             getPricingPerTask (Some caps) capability = 0
             \/ (0 < getPricingPerTask (Some caps) capability
                 /\ (capability, getPricingPerTask (Some caps) capability) ∈ caps)) as Hcases.
  { intros caps. unfold getPricingPerTask. rewrite Hdef.
    destruct (List.find _ caps) as [[k price]|] eqn:Hfind; [|by left].
    apply find_some in Hfind as [Hin Hk]. simpl in Hk. apply String.eqb_eq in Hk as ->.
    simpl. destruct (Z.gtb_spec price 0) as [Hpos|]; [|by left].
    right. split; [lia|]. by apply list_elem_of_In. }
  split; [done|]. split; [done|]. split; [done|].
  intros caps budget Hb Hall. destruct (Hcases caps) as [->|[Hpos Hin]]; [done|].
  specialize (Hall _ Hin). lia.
Qed.

Lemma unlisted_price_is_zero_witness :
  getPricingPerTask None CapabilityResearch = 0
  /\ getPricingPerTask (Some [("summarize", 4)]) CapabilityResearch <= 1.
Proof.
  destruct (unlisted_price_is_zero CapabilityResearch eq_refl) as (_ & Hnull & _ & Hle).
  split; [exact Hnull|]. apply Hle; [lia|].
  intros price Hin. apply list_elem_of_singleton in Hin. discriminate.
Defined.

(** ** Who is sent a task *)

Lemma on_pool_posts {A} (m : M A) w :
  posts (on_pool m w).2 = posts w /\ watchers (on_pool m w).2 = watchers w.
Proof. unfold on_pool. by destruct (m (store w)). Qed.

Lemma FindFallbacks_not_excluded task excludeAgentID s fb l :
  FindFallbacks task excludeAgentID s = (inr (fb :: l), s) -> ag_ID fb <> excludeAgentID.
Proof.
  intros H. destruct (FindFallbacks_eligible task excludeAgentID s) as (l' & Hl & _ & Hin & _).
  assert (l' = fb :: l) as -> by congruence.
  specialize (Hin fb ltac:(by left)).
  apply list_elem_of_In, filter_In in Hin as [_ He].
  unfold eligible in He. apply andb_prop in He as [He _]. apply andb_prop in He as [_ He].
  apply negb_true_iff in He. by apply N.eqb_neq.
Qed.

Section WhoIsSent.

Variable url_parses : string -> bool.

Lemma refundAndFail_posts task w : posts (refundAndFail task w).2 = posts w.
Proof. unfold refundAndFail. apply on_pool_posts. Qed.

Lemma dispatchWithFallback_posts dispatch task failedAgentID w r w' :
  (forall task' fb w1 r1 w1',
      ag_ID fb <> failedAgentID -> posts w1 = posts w ->
      dispatch task' fb w1 = Some (r1, w1') ->
      exists ps, posts w1' = posts w1 ++ ps /\ changes_worker failedAgentID ps) ->
  dispatchWithFallback_with dispatch task failedAgentID w = Some (r, w') ->
  exists ps, posts w' = posts w ++ ps /\ changes_worker failedAgentID ps.
Proof.
  intros Hd H. unfold dispatchWithFallback_with in H.
  set (t1 := set_retry_count task _) in H.
  destruct (RetryCount t1 >? maxRetries).
  { injection H as H. exists []. rewrite app_nil_r. split; [|done].
    rewrite <- (refundAndFail_posts t1 w). by rewrite H. }
  set (t2 := set_status t1 TaskStatusMatching) in H.
  pose proof (on_pool_posts (TaskRepo_Update t2) w) as [Hp1 _].
  destruct (on_pool (TaskRepo_Update t2) w) as [[e|u] w1]; simpl in Hp1.
  { injection H as _ <-. exists []. by rewrite app_nil_r. }
  pose proof (on_pool_posts (FindFallbacks t2 failedAgentID) w1) as [Hp2 _].
  destruct (on_pool (FindFallbacks t2 failedAgentID) w1) as [[e|l] w2] eqn:Hfb; simpl in Hp2.
  { injection H as _ <-. exists []. rewrite app_nil_r, Hp2. done. }
  destruct l as [|fb l].
  { injection H as H. exists []. rewrite app_nil_r. split; [|done].
    rewrite <- Hp1, <- Hp2, <- (refundAndFail_posts t2 w2). by rewrite H. }
  assert (ag_ID fb <> failedAgentID) as Hne.
  { unfold on_pool in Hfb.
    destruct (FindFallbacks_eligible t2 failedAgentID (store w1)) as (l' & Hl & _).
    rewrite Hl in Hfb. injection Hfb as -> _.
    by apply (FindFallbacks_not_excluded t2 failedAgentID (store w1) fb l). }
  destruct (Hd t2 fb w2 r w' Hne ltac:(congruence) H) as (ps & Hps & Hch).
  exists ps. split; [|done]. rewrite Hps. congruence.
Qed.

Lemma dispatchToWorker_posts script :
  forall task worker w r w',
    dispatchToWorker url_parses script task worker w = Some (r, w') ->
    exists ps, posts w' = posts w ++ ps
               /\ (ps = [] \/ exists p rest, ps = p :: rest /\ post_worker p = ag_ID worker
                                             /\ changes_worker (ag_ID worker) rest).
Proof.
  induction script as [|a script IH]; intros task worker w r w' H.
  { simpl in H. destruct (GetDeadline _ _); [|done].
    injection H as _ <-. exists []. rewrite app_nil_r. by split; [|left]. }
  rewrite dispatchToWorker_cons in H.
  destruct (GetDeadline _ _) as [e|dur].
  { injection H as _ <-. exists []. rewrite app_nil_r. by split; [|left]. }
  cbv zeta in H.
  set (t1 := set_dispatched task (ag_ID worker) (at_now a + dur)) in H.
  pose proof (on_pool_posts (TaskRepo_Update t1) w) as [Hp1 _].
  destruct (on_pool (TaskRepo_Update t1) w) as [[e|u] w1]; simpl in Hp1.
  { injection H as _ <-. exists []. rewrite app_nil_r. by split; [|left]. }
  destruct (negb (url_parses (EndpointURL worker))).
  { injection H as _ <-. exists []. rewrite app_nil_r. by split; [|left]. }
  set (p := mkPost (EndpointURL worker) (ID t1) (ag_ID worker) (at_now a + dur)) in H.
  set (w2 := mkWorld (store w1) (posts w1 ++ [p]) (watchers w1)) in H.
  assert (forall r w',
             dispatchWithFallback url_parses script t1 (ag_ID worker) w2 = Some (r, w') ->
             exists ps, posts w' = posts w ++ ps
                        /\ (ps = [] \/ exists p rest, ps = p :: rest
                                                      /\ post_worker p = ag_ID worker
                                                      /\ changes_worker (ag_ID worker) rest))
    as Hfall.
  { intros r0 w0 H0.
    destruct (dispatchWithFallback_posts (dispatchToWorker url_parses script) t1 (ag_ID worker)
                w2 r0 w0) as (ps & Hps & Hch); [|exact H0|].
    - intros task' fb w3 r3 w3' Hne _ H3.
      destruct (IH task' fb w3 r3 w3' H3) as (ps & Hps & [->|(q & rest & -> & Hq & Hrest)]).
      + by exists [].
      + exists (q :: rest). split; [done|]. simpl. rewrite Hq. by split.
    - exists (p :: ps). split; [|right; by exists p, ps].
      rewrite Hps. simpl. rewrite <- app_assoc, Hp1. done. }
  destruct (at_result a) as [|status]; [exact (Hfall r w' H)|].
  destruct (negb (status =? 200)); [exact (Hfall r w' H)|].
  set (t2 := set_status t1 TaskStatusInProgress) in H.
  pose proof (on_pool_posts (TaskRepo_Update t2) w2) as [Hp2 _].
  destruct (on_pool (TaskRepo_Update t2) w2) as [[e|u2] w3]; simpl in Hp2;
    injection H as _ <-; exists [p]; (split; [|right; by exists p, []]).
  - rewrite Hp2. simpl. by rewrite Hp1.
  - simpl. rewrite Hp2. simpl. by rewrite Hp1.
Qed.

(** X24.  A fallback never goes to the agent that has just failed.  In
    every run of [dispatchToWorker], however it ends, the POSTs it sends
    start with one to the given worker and each further one goes to
    another agent than the one before; and the POSTs that a deadline
    watcher sends for a task still in progress start with one to another
    agent than the worker that let the deadline pass. *)
Theorem fallback_changes_worker script :
  (forall task worker w r w',
      dispatchToWorker url_parses script task worker w = Some (r, w') ->
      exists ps, posts w' = posts w ++ ps
                 /\ (ps = [] \/ exists p rest, ps = p :: rest
                                               /\ post_worker p = ag_ID worker
                                               /\ changes_worker (ag_ID worker) rest))
  /\ (forall wt w w',
        monitorDeadline url_parses script wt w = Some w' ->
        exists ps, posts w' = posts w ++ ps /\ changes_worker (w_worker wt) ps).
Proof.
  split; [apply dispatchToWorker_posts|].
  intros wt w w' H. unfold monitorDeadline in H.
  pose proof (on_pool_posts (TaskRepo_GetByID (w_task wt)) w) as [Hp0 _].
  destruct (on_pool (TaskRepo_GetByID (w_task wt)) w) as [[e|task] w0]; simpl in Hp0.
  { injection H as <-. exists []. by rewrite app_nil_r. }
  destruct (negb (String.eqb (Status task) TaskStatusInProgress)).
  { injection H as <-. exists []. by rewrite app_nil_r. }
  set (t1 := set_output_status _ _) in H.
  pose proof (on_pool_posts (TaskRepo_Update t1) w0) as [Hp1 _].
  destruct (on_pool (TaskRepo_Update t1) w0) as [[e|u] w1]; simpl in Hp1.
  { injection H as <-. exists []. rewrite app_nil_r. split; [congruence|done]. }
  destruct (dispatchWithFallback url_parses script t1 (w_worker wt) w1) as [[r w2]|] eqn:Hf;
    [|done].
  injection H as <-.
  destruct (dispatchWithFallback_posts (dispatchToWorker url_parses script) t1 (w_worker wt)
              w1 r w2) as (ps & Hps & Hch); [|exact Hf|].
  - intros task' fb w3 r3 w3' Hne _ H3.
    destruct (dispatchToWorker_posts script task' fb w3 r3 w3' H3)
      as (ps & Hps & [->|(q & rest & -> & Hq & Hrest)]).
    + by exists [].
    + exists (q :: rest). split; [done|]. simpl. rewrite Hq. by split.
  - exists ps. split; [|done]. rewrite Hps. congruence.
Qed.

End WhoIsSent.

(** ** The order of the row locks *)

Lemma sift_ext {A} (less1 less2 : list A -> nat -> nat -> bool) j l :
  (forall cur i k, less1 cur i k = less2 cur i k) ->
  Sort.sift less1 j l = Sort.sift less2 j l.
Proof.
  intros Hext. revert l. induction j as [|j IH]; intros l; [done|].
  simpl. rewrite Hext. destruct (less2 l (S j) j); [apply IH|done].
Qed.

Lemma Slice_ext {A} (less1 less2 : list A -> nat -> nat -> bool) l :
  (forall cur i k, less1 cur i k = less2 cur i k) ->
  Sort.Slice less1 l = Sort.Slice less2 l.
Proof.
  intros Hext. unfold Sort.Slice. generalize (seq 1 (length l - 1)). intros idx.
  revert l. induction idx as [|i idx IH]; intros l; [done|].
  simpl. rewrite (sift_ext less1 less2) by done. apply IH.
Qed.

Lemma sort_ids_sorted ids : StronglySorted N.le (sort_ids ids).
Proof.
  unfold sort_ids.
  rewrite (Slice_ext _ (less_key Z.of_N)).
  - pose proof (Slice_sorted Z.of_N ids) as Hs.
    induction Hs as [|a l Hs IH Hall]; constructor; [done|].
    eapply Forall_impl; [exact Hall|]. intros b Hab. unfold le_key in Hab. lia.
  - intros cur i k. unfold less_key.
    destruct (cur !! i) as [a|]; [|done]. destruct (cur !! k) as [b|]; [|done].
    destruct (N.ltb_spec a b), (Z.ltb_spec (Z.of_N a) (Z.of_N b)); try done; lia.
Qed.

(** X25.  [SettleTask] locks the three rows in an order that depends on
    the accounts only.  The ids it passes to [GetByIDForUpdate] are the
    requester's, the worker's and the platform's in ascending order; so
    two settlements over the same accounts lock them in the same order,
    whichever account is the requester and whichever the worker (up to 12
    ids, where [sort.Slice] is the insertion sort). *)
Theorem lock_order_is_canonical requesterID workerID :
  sort_ids [requesterID; workerID; SystemPlatformAccountID]
  ≡ₚ [requesterID; workerID; SystemPlatformAccountID]
  /\ StronglySorted N.le (sort_ids [requesterID; workerID; SystemPlatformAccountID])
  /\ sort_ids [requesterID; workerID; SystemPlatformAccountID]
     = sort_ids [workerID; requesterID; SystemPlatformAccountID].
Proof.
  split; [apply Slice_Permutation|]. split; [apply sort_ids_sorted|].
  apply (StronglySorted_unique N.le); [apply sort_ids_sorted..|].
  unfold sort_ids. rewrite !Slice_Permutation. apply Permutation_swap.
Qed.
